(** * Wallet balance service: price oracle, chain fetchers, reconciler,
      bootstrapper and the balance upsert of the storage layer.

    The development follows the TypeScript sources: the balance service
    (getTokenPrices, fetchEVMBalance, fetchNativeBalance, fetchTokenBalances,
    fetchTronBalance, fetchAndUpdateWalletBalances,
    initializeWalletWithAddresses) and storage.ts (getConnectedWallets,
    createConnectedWallet, upsertWalletBalance) over the tables of schema.ts.

    Conventions of the embedding.
    - JavaScript numbers are binary64 floats (Rocq's primitive floats).
    - Strings are Rocq strings; the names and addresses the program handles
      are ASCII.
    - An [async] function is a state transformer that either returns a value
      or throws: [M A := Store -> (Exn + A) * Store].
    - The outside world (HTTP replies, the clock, generated row ids, the
      engine's [Math.pow]) is an [Env]: the k-th interaction of a run reads
      the oracle at index k.
    - Storage statements are taken to succeed: connection failures,
      constraint violations and values outside the range of a numeric column
      are outside the model. Each storage function is one step: nothing is
      interleaved between its SELECT and its write. A decimal column holds
      the text that was written, where the database returns its own
      rendering of the value.
    - [console.error] only logs and is dropped. *)

From Stdlib Require Import ZArith Floats String Ascii List Bool Lia.
From Stdlib Require Import DecimalString DecimalPos DecimalN Sorted Permutation.
From stdpp Require Import gmap strings list.

Local Open Scope Z_scope.

(** ** JavaScript values *)

Module Js.

#[local] Set Warnings "-register-all".

(** What [JSON.parse] can return. An object keeps its fields in source
    order; on a repeated key the last field wins. *)
Inductive JSON : Type :=
| JNull
| JBool (b : bool)
| JNum (x : float)
| JStr (s : string)
| JArr (items : list JSON)
| JObj (fields : list (string * JSON)).

(** A JavaScript value read from a reply: [None] is [undefined]. *)
Definition Value : Type := option JSON.

(** Thrown values. *)
Inductive Exn : Type :=
| NetworkFailure            (* fetch() rejected *)
| SyntaxError               (* response.json() rejected *)
| TypeError                 (* property read of null/undefined, not iterable *)
| Error (message : string). (* new Error(message) *)

Definition Except (A : Type) : Type := Exn + A.

Definition nan : float := (0 / 0)%float.

(** *** Reading decimal and hexadecimal text *)

(** White space of the ASCII range; the texts read here are ASCII. *)
Definition isWhiteSpace (c : ascii) : bool :=
  let n := nat_of_ascii c in
  ((9 <=? n) && (n <=? 13))%nat || (n =? 32)%nat.

Fixpoint trimStart (s : string) : string :=
  match s with
  | String c s' => if isWhiteSpace c then trimStart s' else s
  | EmptyString => s
  end.

Fixpoint allWhiteSpace (s : string) : bool :=
  match s with
  | String c s' => isWhiteSpace c && allWhiteSpace s'
  | EmptyString => true
  end.

Definition digitValue (radix : Z) (c : ascii) : option Z :=
  let n := Z.of_nat (nat_of_ascii c) in
  let d := if (48 <=? n) && (n <=? 57) then n - 48
           else if (97 <=? n) && (n <=? 122) then n - 87
           else if (65 <=? n) && (n <=? 90) then n - 55
           else radix in
  if d <? radix then Some d else None.

(** Longest run of radix digits at the head of [s]: its value, its length
    and the rest of the text. *)
Fixpoint readDigits (radix : Z) (s : string) (acc : Z) (n : nat)
  : Z * nat * string :=
  match s with
  | String c s' =>
      match digitValue radix c with
      | Some d => readDigits radix s' (acc * radix + d) (S n)
      | None => (acc, n, s)
      end
  | EmptyString => (acc, n, s)
  end.

(** The Number nearest to [p / q] (ties to even), signed by [neg]. *)
Definition ofRatio (neg : bool) (p q : Z) : float :=
  match p, q with
  | Zpos p', Zpos q' =>
      SF2Prim (SFdiv prec emax (S754_finite neg p' 0) (S754_finite false q' 0))
  | _, _ => if neg then (-0)%float else 0%float
  end.

(** The Number nearest to [m * 10^e]. *)
Definition ofDecimal (neg : bool) (m e : Z) : float :=
  if 0 <=? e then ofRatio neg (m * 10 ^ e) 1 else ofRatio neg m (10 ^ (- e)).

Definition readSign (s : string) : bool * string :=
  match s with
  | String "-" s' => (true, s')
  | String "+" s' => (false, s')
  | _ => (false, s)
  end.

Definition stripPrefix (p s : string) : option string :=
  if String.prefix p s
  then Some (String.substring (String.length p) (String.length s - String.length p) s)
  else None.

(** [parseInt(string)] with no radix argument. *)
Definition parseInt (input : string) : float :=
  let '(neg, s) := readSign (trimStart input) in
  let '(radix, s) :=
    match s with
    | String "0" (String "x" s') | String "0" (String "X" s') => (16, s')
    | _ => (10, s)
    end in
  let '(v, n, _) := readDigits radix s 0 0 in
  match n with
  | O => nan
  | S _ => ofRatio neg v 1
  end.

(** A decimal literal read from the head of a text. *)
Inductive Literal : Type :=
| LInfinity (neg : bool)
| LDecimal (neg : bool) (mantissa exponent : Z).

Definition literalValue (l : Literal) : float :=
  match l with
  | LInfinity neg => if neg then neg_infinity else infinity
  | LDecimal neg m e => ofDecimal neg m e
  end.

(** Exponent part [e[+-]digits]: only read when a digit follows. *)
Definition readExponent (s : string) : Z * string :=
  match s with
  | String c s' =>
      if (Ascii.eqb c "e" || Ascii.eqb c "E")%bool then
        let '(eneg, s'') := readSign s' in
        let '(v, n, rest) := readDigits 10 s'' 0 0 in
        match n with
        | O => (0, s)
        | S _ => (if eneg then - v else v, rest)
        end
      else (0, s)
  | EmptyString => (0, s)
  end.

(** Longest prefix of [s] that is a StrDecimalLiteral, and what follows. *)
Definition readDecimalLiteral (s : string) : option (Literal * string) :=
  let '(neg, s1) := readSign s in
  match stripPrefix "Infinity" s1 with
  | Some rest => Some (LInfinity neg, rest)
  | None =>
      let '(int, n1, s2) := readDigits 10 s1 0 0 in
      let '(m, n2, s3) :=
        match s2 with
        | String "." s2' =>
            let '(m, n2, s3) := readDigits 10 s2' int 0 in
            match n1, n2 with
            | O, O => (int, O, s2)
            | _, _ => (m, n2, s3)
            end
        | _ => (int, O, s2)
        end in
      match n1, n2 with
      | O, O => None
      | _, _ =>
          let '(e, rest) := readExponent s3 in
          Some (LDecimal neg m (e - Z.of_nat n2), rest)
      end
  end.

(** [parseFloat(string)]. *)
Definition parseFloat (input : string) : float :=
  match readDecimalLiteral (trimStart input) with
  | Some (l, _) => literalValue l
  | None => nan
  end.

(** StringToNumber: the whole text, white space trimmed, must be a numeric
    literal; the empty text is 0. *)
Definition radixLiteral (radix : Z) (s : string) : float :=
  let '(v, n, rest) := readDigits radix s 0 0 in
  match n with
  | O => nan
  | S _ => if allWhiteSpace rest then ofRatio false v 1 else nan
  end.

Definition StringToNumber (input : string) : float :=
  let s := trimStart input in
  match s with
  | EmptyString => 0%float
  | String "0" (String "x" s') | String "0" (String "X" s') => radixLiteral 16 s'
  | String "0" (String "o" s') | String "0" (String "O" s') => radixLiteral 8 s'
  | String "0" (String "b" s') | String "0" (String "B" s') => radixLiteral 2 s'
  | _ =>
      match readDecimalLiteral s with
      | Some (l, rest) => if allWhiteSpace rest then literalValue l else nan
      | None => nan
      end
  end.


(** *** Number::toString (radix 10) *)

Definition showZ (z : Z) : string := NilZero.string_of_uint (N.to_uint (Z.to_N z)).

Fixpoint zeros (n : nat) : string :=
  match n with
  | O => EmptyString
  | S n' => String "0" (zeros n')
  end.

(** The [n] with [10^(n-1) <= p/q < 10^n], for [p/q] a positive double. *)
Fixpoint firstAtLeast (fuel : nat) (p q j : Z) : Z :=
  match fuel with
  | O => j
  | S fuel' => if q <=? p * 10 ^ j then j else firstAtLeast fuel' p q (j + 1)
  end.

Definition decimalExponent (p q : Z) : Z :=
  if q <=? p then Z.of_nat (String.length (showZ (p / q)))
  else 1 - firstAtLeast 400 p q 1.

(** The [k]-digit decimals next to [p/q] that read back as [x]: the closest
    one (the even one on a tie), if any. *)
Definition candidate (x : float) (p q n k : Z) : option Z :=
  let e := n - k in
  let '(num, den) := if 0 <=? e then (p, q * 10 ^ e) else (p * 10 ^ (- e), q) in
  let lo := num / den in
  let r := num mod den in
  let lo_ok := PrimFloat.eqb (ofDecimal false lo e) x in
  let hi_ok := PrimFloat.eqb (ofDecimal false (lo + 1) e) x in
  if r =? 0 then (if lo_ok then Some lo else None)
  else match lo_ok, hi_ok with
       | true, true =>
           match 2 * r ?= den with
           | Lt => Some lo
           | Gt => Some (lo + 1)
           | Eq => Some (if Z.even lo then lo else lo + 1)
           end
       | true, false => Some lo
       | false, true => Some (lo + 1)
       | false, false => None
       end.

(** Fewest digits [s] (with their count [k] and the exponent [n]) such that
    [s * 10^(n-k)] reads back as [x]; seventeen digits always do. *)
Fixpoint shortest (fuel : nat) (x : float) (p q n k : Z) : Z * Z * Z :=
  match fuel with
  | O => (p * 10 ^ 17 / (q * 10 ^ n), 17, n)
  | S fuel' =>
      match candidate x p q n k with
      | Some s => if s =? 10 ^ k then (10 ^ (k - 1), k, n + 1) else (s, k, n)
      | None => shortest fuel' x p q n (k + 1)
      end
  end.

Definition formatDigits (s k n : Z) : string :=
  let digits := showZ s in
  if (-5 <=? n) && (n <=? 21) then
    if k <=? n then digits +:+ zeros (Z.to_nat (n - k))
    else if 0 <? n then
      String.substring 0 (Z.to_nat n) digits +:+ "." +:+
      String.substring (Z.to_nat n) (Z.to_nat (k - n)) digits
    else "0." +:+ zeros (Z.to_nat (- n)) +:+ digits
  else
    let e := n - 1 in
    let tail := "e" +:+ (if e <? 0 then "-" else "+") +:+ showZ (Z.abs e) in
    if k =? 1 then digits +:+ tail
    else String.substring 0 1 digits +:+ "." +:+
         String.substring 1 (Z.to_nat (k - 1)) digits +:+ tail.

Definition Number_toString (x : float) : string :=
  match Prim2SF x with
  | S754_nan => "NaN"
  | S754_zero _ => "0"
  | S754_infinity neg => if neg then "-Infinity" else "Infinity"
  | S754_finite neg m e =>
      let '(p, q) := if 0 <=? e then (Zpos m * 2 ^ e, 1) else (Zpos m, 2 ^ (- e)) in
      let '(s, k, n) := shortest 17 (PrimFloat.abs x) p q (decimalExponent p q) 1 in
      (if neg then "-" else "") +:+ formatDigits s k n
  end.


(** *** Coercions and property reads *)

Definition ofNat (n : nat) : float := ofRatio false (Z.of_nat n) 1.

Definition joinWith (sep : string) (parts : list string) : string :=
  match parts with
  | [] => ""
  | p :: ps => fold_left (fun acc q => acc +:+ sep +:+ q) ps p
  end.

(** ToString of a JSON value; an array joins its elements with commas, a
    null element giving the empty text. *)
Fixpoint JSON_toString (v : JSON) : string :=
  match v with
  | JNull => "null"
  | JBool b => if b then "true" else "false"
  | JNum x => Number_toString x
  | JStr s => s
  | JArr items =>
      joinWith "," (List.map (fun i => match i with
                                       | JNull => ""
                                       | _ => JSON_toString i
                                       end) items)
  | JObj _ => "[object Object]"
  end.

Definition ToString (v : Value) : string :=
  match v with
  | None => "undefined"
  | Some j => JSON_toString j
  end.

Definition ToNumber (v : Value) : float :=
  match v with
  | None => nan
  | Some JNull => 0%float
  | Some (JBool b) => if b then 1%float else 0%float
  | Some (JNum x) => x
  | Some (JStr s) => StringToNumber s
  | Some j => StringToNumber (JSON_toString j)
  end.

(** ToBoolean. *)
Definition truthy (v : Value) : bool :=
  match v with
  | None | Some JNull => false
  | Some (JBool b) => b
  | Some (JNum x) => negb (PrimFloat.eqb x 0) && PrimFloat.eqb x x
  | Some (JStr s) => negb (String.eqb s "")
  | Some (JArr _) | Some (JObj _) => true
  end.

(** [v === s] for a string [s]. *)
Definition strictEqualsString (v : Value) (s : string) : bool :=
  match v with
  | Some (JStr t) => String.eqb t s
  | _ => false
  end.

(** Own field of a parsed object: the last field of that name. *)
Fixpoint field (fields : list (string * JSON)) (key : string) : Value :=
  match fields with
  | [] => None
  | (k, v) :: rest =>
      match field rest key with
      | Some v' => Some v'
      | None => if String.eqb k key then Some v else None
      end
  end.

(** An array index written canonically ("0", "1", "27"). *)
Definition arrayIndex (key : string) : option nat :=
  let '(v, n, rest) := readDigits 10 key 0 0 in
  match n, rest with
  | S _, EmptyString => if String.eqb (showZ v) key then Some (Z.to_nat v) else None
  | _, _ => None
  end.

(** [v[key]] / [v.key]. Reading a property of [undefined] or [null] throws.
    Inherited properties other than [length] are not modelled: none of the
    keys the service reads (status, result, data, usd, balance,
    token_address, token_decimal, 0, the price ids) names one. *)
Definition get (v : Value) (key : string) : Except Value :=
  match v with
  | None | Some JNull => inl TypeError
  | Some (JObj fields) => inr (field fields key)
  | Some (JArr items) =>
      if String.eqb key "length" then inr (Some (JNum (ofNat (List.length items))))
      else inr (match arrayIndex key with
                | Some i => nth_error items i
                | None => None
                end)
  | Some (JStr s) =>
      if String.eqb key "length" then inr (Some (JNum (ofNat (String.length s))))
      else inr (match arrayIndex key with
                | Some i => match String.get i s with
                            | Some c => Some (JStr (String c EmptyString))
                            | None => None
                            end
                | None => None
                end)
  | Some (JNum _) | Some (JBool _) => inr None
  end.

(** The elements a [for ... of] loop visits; a value that is not iterable
    throws. *)
Definition iterate (v : Value) : Except (list Value) :=
  match v with
  | Some (JArr items) => inr (List.map Some items)
  | Some (JStr s) =>
      inr (List.map (fun c => Some (JStr (String c EmptyString))) (list_ascii_of_string s))
  | _ => inl TypeError
  end.

End Js.

Import Js.

(** ** Tables (schema.ts) *)

(** What an insert or an update carries for a nullable column: the key may
    be absent ([undefined]), [null], or a value. *)
Inductive Column (A : Type) : Type :=
| Undefined
| Null
| Given (a : A).
Arguments Undefined {A}.
Arguments Null {A}.
Arguments Given {A} a.

(** [.values(row)]: an absent key takes the column default. *)
Definition inserted {A : Type} (default : option A) (c : Column A) : option A :=
  match c with
  | Undefined => default
  | Null => None
  | Given a => Some a
  end.

(** [.set({col: c})]: the query builder leaves a column out of the UPDATE
    when its value is [undefined]. *)
Definition assigned {A : Type} (c : Column A) (old : option A) : option A :=
  match c with
  | Undefined => old
  | Null => None
  | Given a => Some a
  end.

(** [c || ""] *)
Definition orEmpty (c : Column string) : string :=
  match c with
  | Given a => a
  | _ => ""
  end.

(** connected_wallets *)
Record ConnectedWallet : Type := {
  cw_id : string;
  cw_userId : string;
  cw_walletType : string;
  cw_walletAddress : string;
  cw_chainId : string;
  cw_network : string;
  cw_isActive : option bool;
  cw_lastConnected : option Z;
  cw_createdAt : option Z
}.

(** The columns createConnectedWallet is given; [id] and [createdAt] are
    left to their defaults. *)
Record InsertConnectedWallet : Type := {
  icw_userId : string;
  icw_walletType : string;
  icw_walletAddress : string;
  icw_chainId : string;
  icw_network : string;
  icw_isActive : Column bool;
  icw_lastConnected : Column Z
}.

(** wallet_balances; decimal columns hold the text they were given. *)
Record WalletBalance : Type := {
  wb_id : string;
  wb_userId : string;
  wb_walletId : option string;
  wb_tokenSymbol : string;
  wb_tokenAddress : option string;
  wb_balance : string;
  wb_balanceUSD : option string;
  wb_lastUpdated : option Z
}.

(** The columns upsertWalletBalance is given; [id] and [lastUpdated] are
    left to their defaults. *)
Record InsertWalletBalance : Type := {
  ib_userId : string;
  ib_walletId : Column string;
  ib_tokenSymbol : string;
  ib_tokenAddress : Column string;
  ib_balance : string;
  ib_balanceUSD : Column string
}.

(** An entry a fetcher returns: [{tokenSymbol, balance, tokenAddress}]. *)
Record RawBalance : Type := {
  tokenSymbol : string;
  balance : string;
  tokenAddress : option string
}.

(** ** The world and the store *)

Inductive Reply : Type :=
| Rejected                                    (* fetch() rejects *)
| Answered (status : N) (body : option JSON). (* body None: not JSON *)

Record Response : Type := { status : N; body : option JSON }.

Definition ok (r : Response) : bool := (200 <=? status r)%N && (status r <=? 299)%N.

Record Env : Type := {
  http : nat -> string -> Reply;
  clock : nat -> Z;
  gen_random_uuid : nat -> string;
  Math_pow : float -> float -> float
}.

(** Ghost record of what a run did: the requests it sent and the service
    functions it entered. *)
Inductive Event : Type :=
| Requested (url : string)
| Entered (fn : string) (args : list string).

Record Store : Type := {
  tick : nat;
  trace : list Event;
  connectedWallets : list ConnectedWallet;
  walletBalances : list WalletBalance
}.

(** ** Computations that may throw *)

Definition M (A : Type) : Type := Store -> Except A * Store.

Definition ret {A : Type} (a : A) : M A := fun s => (inr a, s).

Definition bind {A B : Type} (m : M A) (k : A -> M B) : M B :=
  fun s => match m s with
           | (inl e, s') => (inl e, s')
           | (inr a, s') => k a s'
           end.

Definition throw {A : Type} (e : Exn) : M A := fun s => (inl e, s).

(** [try { m } catch (error) { handler error }] *)
Definition tryCatch {A : Type} (m : M A) (handler : Exn -> M A) : M A :=
  fun s => match m s with
           | (inl e, s') => handler e s'
           | (inr a, s') => (inr a, s')
           end.

(** [try { x = m; k x } catch { handler }] where [k] does its own catching
    and [handler] cannot throw: the shape of a try block that fills a local
    array and returns it after the catch. *)
Definition caught {A B : Type} (m : M A) (handler : M B) (k : A -> M B) : M B :=
  fun s => match m s with
           | (inl _, s') => handler s'
           | (inr a, s') => k a s'
           end.

Definition lift {A : Type} (r : Except A) : M A := fun s => (r, s).

Declare Scope service_scope.
Delimit Scope service_scope with service.
Notation "x <- m ;; k" := (bind m (fun x => k))
  (at level 100, m at next level, right associativity) : service_scope.
Notation "m ;;; k" := (bind m (fun _ => k))
  (at level 100, right associativity) : service_scope.
Local Open Scope service_scope.

Definition advance (s : Store) : Store :=
  {| tick := S (tick s); trace := trace s;
     connectedWallets := connectedWallets s; walletBalances := walletBalances s |}.

Definition record (ev : Event) : M unit :=
  fun s => (inr tt, {| tick := tick s; trace := trace s ++ [ev];
                       connectedWallets := connectedWallets s;
                       walletBalances := walletBalances s |}).

Section Service.

Variable env : Env.

(** [await fetch(url)] *)
Definition fetch (url : string) : M Response :=
  fun s =>
    let s' := {| tick := S (tick s); trace := trace s ++ [Requested url];
                 connectedWallets := connectedWallets s;
                 walletBalances := walletBalances s |} in
    match http env (tick s) url with
    | Rejected => (inl NetworkFailure, s')
    | Answered st b => (inr {| status := st; body := b |}, s')
    end.

(** [await response.json()] *)
Definition json (r : Response) : M Value :=
  match body r with
  | Some j => ret (Some j)
  | None => throw SyntaxError
  end.

(** [new Date()] and the database's [now()] *)
Definition now : M Z := fun s => (inr (clock env (tick s)), advance s).

(** the [gen_random_uuid()] default of an [id] column *)
Definition newId : M string := fun s => (inr (gen_random_uuid env (tick s)), advance s).

(** ** storage.ts *)

(** [ORDER BY key DESC]: nulls first, then later timestamps first; rows
    with equal keys keep their table order. *)
Definition descBefore (a b : option Z) : bool :=
  match a, b with
  | None, _ => true
  | Some _, None => false
  | Some x, Some y => y <=? x
  end.

Fixpoint insertDesc {A : Type} (key : A -> option Z) (a : A) (l : list A) : list A :=
  match l with
  | [] => [a]
  | b :: l' => if descBefore (key a) (key b) then a :: l else b :: insertDesc key a l'
  end.

Definition orderByDesc {A : Type} (key : A -> option Z) (l : list A) : list A :=
  fold_right (insertDesc key) [] l.

Definition getConnectedWallets (userId : string) : M (list ConnectedWallet) :=
  fun s =>
    (inr (orderByDesc cw_lastConnected
            (List.filter (fun w => String.eqb (cw_userId w) userId) (connectedWallets s))),
     s).

Definition createConnectedWallet (wallet : InsertConnectedWallet) : M ConnectedWallet :=
  id <- newId ;;
  t <- now ;;
  let row := {| cw_id := id;
                cw_userId := icw_userId wallet;
                cw_walletType := icw_walletType wallet;
                cw_walletAddress := icw_walletAddress wallet;
                cw_chainId := icw_chainId wallet;
                cw_network := icw_network wallet;
                cw_isActive := inserted (Some true) (icw_isActive wallet);
                cw_lastConnected := inserted (Some t) (icw_lastConnected wallet);
                cw_createdAt := Some t |} in
  fun s => (inr row, {| tick := tick s; trace := trace s;
                        connectedWallets := connectedWallets s ++ [row];
                        walletBalances := walletBalances s |}).

(** The WHERE clause of the upsert's SELECT: a row whose wallet_id is NULL
    matches nothing. *)
Definition matchesTriple (b : InsertWalletBalance) (r : WalletBalance) : bool :=
  String.eqb (wb_userId r) (ib_userId b)
  && match wb_walletId r with
     | Some w => String.eqb w (orEmpty (ib_walletId b))
     | None => false
     end
  && String.eqb (wb_tokenSymbol r) (ib_tokenSymbol b).

(** The SET clause of the upsert's UPDATE. *)
Definition updatedRow (b : InsertWalletBalance) (t : Z) (r : WalletBalance) : WalletBalance :=
  {| wb_id := wb_id r;
     wb_userId := wb_userId r;
     wb_walletId := wb_walletId r;
     wb_tokenSymbol := wb_tokenSymbol r;
     wb_tokenAddress := wb_tokenAddress r;
     wb_balance := ib_balance b;
     wb_balanceUSD := assigned (ib_balanceUSD b) (wb_balanceUSD r);
     wb_lastUpdated := Some t |}.

(** The row the upsert's INSERT adds. *)
Definition insertedRow (b : InsertWalletBalance) (id : string) (t : Z) : WalletBalance :=
  {| wb_id := id;
     wb_userId := ib_userId b;
     wb_walletId := inserted None (ib_walletId b);
     wb_tokenSymbol := ib_tokenSymbol b;
     wb_tokenAddress := inserted None (ib_tokenAddress b);
     wb_balance := ib_balance b;
     wb_balanceUSD := inserted None (ib_balanceUSD b);
     wb_lastUpdated := Some t |}.

Definition setWalletBalances (rows : list WalletBalance) : M unit :=
  fun s => (inr tt, {| tick := tick s; trace := trace s;
                       connectedWallets := connectedWallets s;
                       walletBalances := rows |}).

(** Read, then write, as one step. The SELECT has no ORDER BY: [existing]
    is in table order. The UPDATE goes by the id of [existing[0]] and
    returns the first row it updated; the INSERT returns the new row. Both
    statements are taken to succeed, and the decimal columns keep the text
    of the call. *)
Definition upsertWalletBalance (b : InsertWalletBalance) : M WalletBalance :=
  fun s =>
    let existing := List.filter (matchesTriple b) (walletBalances s) in
    match existing with
    | first :: _ =>
        (t <- now ;;
         let hit := fun r => String.eqb (wb_id r) (wb_id first) in
         let rows := List.map (fun r => if hit r then updatedRow b t r else r)
                              (walletBalances s) in
         setWalletBalances rows ;;;
         ret (List.hd (updatedRow b t first) (List.filter hit rows))) s
    | [] =>
        (id <- newId ;;
         t <- now ;;
         let row := insertedRow b id t in
         setWalletBalances (walletBalances s ++ [row]) ;;;
         ret row) s
    end.

(** ** The balance service *)

Fixpoint assoc {A : Type} (key : string) (l : list (string * A)) : option A :=
  match l with
  | [] => None
  | (k, v) :: rest => if String.eqb k key then Some v else assoc key rest
  end.

Definition API_ENDPOINTS : list (string * list (string * string)) :=
  [ ("ethereum", [ ("etherscan", "https://api.etherscan.io/api");
                   ("moralis", "https://deep-index.moralis.io/api/v2") ]);
    ("bsc", [ ("bscscan", "https://api.bscscan.com/api");
              ("moralis", "https://deep-index.moralis.io/api/v2") ]);
    ("polygon", [ ("polygonscan", "https://api.polygonscan.com/api");
                  ("moralis", "https://deep-index.moralis.io/api/v2") ]);
    ("tron", [ ("trongrid", "https://api.trongrid.io") ]) ].

Definition TOKEN_CONTRACTS : list (string * list (string * string)) :=
  [ ("ethereum", [ ("USDT", "0xdAC17F958D2ee523a2206206994597C13D831ec7");
                   ("USDC", "0xA0b86a33E6417C5BB1d1e91a064B1B8a9166B1b8");
                   ("BNB", "0xB8c77482e45F1F44dE1745F52C74426C631bDD52") ]);
    ("bsc", [ ("USDT", "0x55d398326f99059fF775485246999027B3197955");
              ("USDC", "0x8AC76a51cc950d9822D68b83fE1Ad97B32Cd580d");
              ("ETH", "0x2170Ed0880ac9A755fd29B2688956BD959F933F8") ]);
    ("polygon", [ ("USDT", "0xc2132D05D31c914a87C6611C10748AEb04B58e8F");
                  ("USDC", "0x2791Bca1f2de4661ED88A30C99A7a9449Aa84174");
                  ("ETH", "0x7ceB23fD6bC0adD59E62ac25578270cFf1b9f619") ]) ].

Definition COINGECKO_API : string := "https://api.coingecko.com/api/v3".

Definition symbolMapping : list (string * string) :=
  [ ("BTC", "bitcoin"); ("ETH", "ethereum"); ("BNB", "binancecoin");
    ("USDT", "tether"); ("USDC", "usd-coin"); ("MATIC", "matic-network");
    ("TRX", "tron") ].

(** [`${endpoints.name}`] *)
Definition endpoint (endpoints : list (string * string)) (name : string) : string :=
  match assoc name endpoints with
  | Some url => url
  | None => "undefined"
  end.

(** The loop of getTokenPrices over [Object.entries(symbolMapping)]. *)
Fixpoint collectPrices (entries : list (string * string)) (data : Value)
    (prices : gmap string JSON) : Except (gmap string JSON) :=
  match entries with
  | [] => inr prices
  | (symbol, id) :: rest =>
      match get data id with
      | inl e => inl e
      | inr quote =>
          if truthy quote then
            match get quote "usd" with
            | inl e => inl e
            | inr (Some usd) =>
                if truthy (Some usd)
                then collectPrices rest data (<[symbol := usd]> prices)
                else collectPrices rest data prices
            | inr None => collectPrices rest data prices
            end
          else collectPrices rest data prices
      end
  end.

Definition priceUrl (symbols : list string) : string :=
  COINGECKO_API +:+ "/simple/price?ids=" +:+ joinWith "," symbols +:+ "&vs_currencies=usd".

Definition getTokenPrices (symbols : list string) : M (gmap string JSON) :=
  tryCatch
    (response <- fetch (priceUrl symbols) ;;
     if negb (ok response)
     then throw (Error ("CoinGecko API error: " +:+ showZ (Z.of_N (status response))))
     else
       data <- json response ;;
       lift (collectPrices symbolMapping data ∅))
    (fun _ => ret ∅).

(** The switch of fetchNativeBalance: request URL and native symbol. *)
Definition nativeRequest (endpoints : list (string * string)) (address network : string)
  : option (string * string) :=
  let query := "?module=account&action=balance&address=" +:+ address +:+ "&tag=latest" in
  if String.eqb network "ethereum" then Some (endpoint endpoints "etherscan" +:+ query, "ETH")
  else if String.eqb network "bsc" then Some (endpoint endpoints "bscscan" +:+ query, "BNB")
  else if String.eqb network "polygon" then Some (endpoint endpoints "polygonscan" +:+ query, "MATIC")
  else None.

(** [parseInt(raw) / Math.pow(10, decimals)] rendered by [toString()]. *)
Definition scaled (raw : Value) (decimals : float) : string :=
  Number_toString (parseInt (ToString raw) / Math_pow env 10 decimals)%float.

(** What fetchNativeBalance makes of the parsed reply. *)
Definition nativeEntry (nativeSymbol : string) (data : Value) : Except (option RawBalance) :=
  match get data "status" with
  | inl e => inl e
  | inr st =>
      if strictEqualsString st "1" then
        match get data "result" with
        | inl e => inl e
        | inr result =>
            if truthy result
            then inr (Some {| tokenSymbol := nativeSymbol;
                              balance := scaled result 18;
                              tokenAddress := None |})
            else inr None
        end
      else inr None
  end.

(** [API_ENDPOINTS[network]] is read as an own key of the table. (A name
    inherited from Object.prototype would give a truthy value and then leave
    through the default of the switch, with the same [null].) *)
Definition fetchNativeBalance (address network : string) : M (option RawBalance) :=
  match assoc network API_ENDPOINTS with
  | None => ret None
  | Some endpoints =>
      tryCatch
        (match nativeRequest endpoints address network with
         | None => ret None
         | Some (apiUrl, nativeSymbol) =>
             response <- fetch apiUrl ;;
             if negb (ok response) then ret None
             else
               data <- json response ;;
               lift (nativeEntry nativeSymbol data)
         end)
        (fun _ => ret None)
  end.

(** The switch of fetchTokenBalances. *)
Definition tokenRequest (endpoints : list (string * string))
    (address network contractAddress : string) : option string :=
  let query := "?module=account&action=tokenbalance&contractaddress=" +:+ contractAddress
               +:+ "&address=" +:+ address +:+ "&tag=latest" in
  if String.eqb network "ethereum" then Some (endpoint endpoints "etherscan" +:+ query)
  else if String.eqb network "bsc" then Some (endpoint endpoints "bscscan" +:+ query)
  else if String.eqb network "polygon" then Some (endpoint endpoints "polygonscan" +:+ query)
  else None.

(** Most tokens use 18 decimals, USDT/USDC use 6. *)
Definition decimals (symbol : string) : float :=
  if (String.eqb symbol "USDT" || String.eqb symbol "USDC")%bool then 6%float else 18%float.

(** What fetchTokenBalances makes of one parsed reply. *)
Definition tokenEntry (symbol contractAddress : string) (data : Value)
  : Except (option RawBalance) :=
  match get data "status" with
  | inl e => inl e
  | inr st =>
      if strictEqualsString st "1" then
        match get data "result" with
        | inl e => inl e
        | inr result =>
            if truthy result && negb (strictEqualsString result "0")
            then inr (Some {| tokenSymbol := symbol;
                              balance := scaled result (decimals symbol);
                              tokenAddress := Some contractAddress |})
            else inr None
        end
      else inr None
  end.

(** One turn of the token loop: [None] when the turn pushes nothing. *)
Definition tokenTurn (endpoints : list (string * string)) (address network : string)
    (token : string * string) : M (option RawBalance) :=
  let '(symbol, contractAddress) := token in
  match tokenRequest endpoints address network contractAddress with
  | None => ret None
  | Some apiUrl =>
      response <- fetch apiUrl ;;
      if negb (ok response) then ret None
      else
        data <- json response ;;
        lift (tokenEntry symbol contractAddress data)
  end.

Definition pushed {A : Type} (l : list A) (o : option A) : list A :=
  match o with
  | Some a => l ++ [a]
  | None => l
  end.

(** The token loop inside its try block: an exception ends the loop and
    the function returns what [balances] holds by then. *)
Fixpoint tokenLoop (endpoints : list (string * string)) (address network : string)
    (tokens : list (string * string)) (balances : list RawBalance) : M (list RawBalance) :=
  match tokens with
  | [] => ret balances
  | token :: rest =>
      caught (tokenTurn endpoints address network token)
        (ret balances)
        (fun o => tokenLoop endpoints address network rest (pushed balances o))
  end.

Definition fetchTokenBalances (address network : string) : M (list RawBalance) :=
  match assoc network TOKEN_CONTRACTS with
  | None => ret []
  | Some tokens =>
      match assoc network API_ENDPOINTS with
      | None => ret []
      | Some endpoints => tokenLoop endpoints address network tokens []
      end
  end.

Definition fetchEVMBalance (address network : string) : M (list RawBalance) :=
  record (Entered "fetchEVMBalance" [address; network]) ;;;
  tryCatch
    (nativeBalance <- fetchNativeBalance address network ;;
     tokenBalances <- fetchTokenBalances address network ;;
     ret (pushed [] nativeBalance ++ tokenBalances))
    (fun _ => ret []).

Definition usdtTrc20Address : string := "TR7NHqjeKQxGTCi8q8ZY4pL8otSzgjLj6t".

Definition tronGrid : string := endpoint (default [] (assoc "tron" API_ENDPOINTS)) "trongrid".

(** What fetchTronBalance pushes for the parsed account reply. *)
Definition trxEntry (accountData : Value) : Except (list RawBalance) :=
  match get accountData "data" with
  | inl e => inl e
  | inr data =>
      if truthy data then
        match get data "length" with
        | inl e => inl e
        | inr len =>
            if (0 <? ToNumber len)%float then
              match get data "0" with
              | inl e => inl e
              | inr account =>
                  match get account "balance" with
                  | inl e => inl e
                  | inr raw =>
                      let trxBalance :=
                        (ToNumber (if truthy raw then raw else Some (JNum 0)) / 1000000)%float in
                      if (0 <? trxBalance)%float
                      then inr [ {| tokenSymbol := "TRX";
                                    balance := Number_toString trxBalance;
                                    tokenAddress := None |} ]
                      else inr []
                  end
              end
            else inr []
        end
      else inr []
  end.

(** First half of the try block of fetchTronBalance. *)
Definition tronAccount (address : string) : M (list RawBalance) :=
  accountResponse <- fetch (tronGrid +:+ "/v1/accounts/" +:+ address) ;;
  if ok accountResponse then
    accountData <- json accountResponse ;;
    lift (trxEntry accountData)
  else ret [].

(** The loop over [tokenData.data]; an exception ends it and the function
    returns what [balances] holds by then. *)
Fixpoint tronTokenLoop (tokens : list Value) (balances : list RawBalance) : list RawBalance :=
  match tokens with
  | [] => balances
  | token :: rest =>
      match get token "token_address" with
      | inl _ => balances
      | inr a =>
          if strictEqualsString a usdtTrc20Address then
            match get token "balance", get token "token_decimal" with
            | inr raw, inr dec =>
                let usdtBalance :=
                  (parseInt (ToString raw) / Math_pow env 10 (ToNumber dec))%float in
                tronTokenLoop rest
                  (balances ++ [ {| tokenSymbol := "USDT";
                                    balance := Number_toString usdtBalance;
                                    tokenAddress := Some usdtTrc20Address |} ])
            | _, _ => balances
            end
          else tronTokenLoop rest balances
      end
  end.

Definition tronTokens (tokenData : Value) (balances : list RawBalance) : list RawBalance :=
  match get tokenData "data" with
  | inl _ => balances
  | inr data =>
      if truthy data then
        match iterate data with
        | inl _ => balances
        | inr tokens => tronTokenLoop tokens balances
        end
      else balances
  end.

Definition fetchTronBalance (address : string) : M (list RawBalance) :=
  record (Entered "fetchTronBalance" [address]) ;;;
  caught (tronAccount address) (ret [])
    (fun balances =>
       caught (fetch (tronGrid +:+ "/v1/accounts/" +:+ address +:+ "/tokens?type=trc20"))
         (ret balances)
         (fun tokenResponse =>
            if ok tokenResponse then
              caught (json tokenResponse) (ret balances)
                (fun tokenData => ret (tronTokens tokenData balances))
            else ret balances)).

(** The switch on [wallet.network]. *)
Definition balancesOf (wallet : ConnectedWallet) : M (list RawBalance) :=
  let network := cw_network wallet in
  if (String.eqb network "ethereum" || String.eqb network "bsc"
      || String.eqb network "polygon")%bool
  then fetchEVMBalance (cw_walletAddress wallet) network
  else if String.eqb network "tron" then fetchTronBalance (cw_walletAddress wallet)
  else throw (Error ("Unsupported network: " +:+ network)).

(** [prices[symbol] ? (parseFloat(balance) * prices[symbol]).toString()
    : undefined] *)
Definition balanceUSD (prices : gmap string JSON) (b : RawBalance) : Column string :=
  match prices !! tokenSymbol b with
  | Some price =>
      if truthy (Some price)
      then Given (Number_toString (parseFloat (balance b) * ToNumber (Some price))%float)
      else Undefined
  | None => Undefined
  end.

Definition balanceData (walletId userId : string) (prices : gmap string JSON)
    (b : RawBalance) : InsertWalletBalance :=
  {| ib_userId := userId;
     ib_walletId := Given walletId;
     ib_tokenSymbol := tokenSymbol b;
     ib_tokenAddress := match tokenAddress b with
                        | Some a => Given a
                        | None => Null
                        end;
     ib_balance := balance b;
     ib_balanceUSD := balanceUSD prices b |}.

Fixpoint saveBalances (walletId userId : string) (prices : gmap string JSON)
    (balances : list RawBalance) (savedBalances : list WalletBalance)
  : M (list WalletBalance) :=
  match balances with
  | [] => ret savedBalances
  | b :: rest =>
      savedBalance <- upsertWalletBalance (balanceData walletId userId prices b) ;;
      saveBalances walletId userId prices rest (savedBalances ++ [savedBalance])
  end.

(** What fetchAndUpdateWalletBalances does with the fetched balances:
    price them, then save them. *)
Definition priceAndSave (walletId userId : string) (balances : list RawBalance)
  : M (list WalletBalance) :=
  let symbols := List.filter (fun sym => negb (String.eqb sym ""))
                             (List.map tokenSymbol balances) in
  prices <- getTokenPrices symbols ;;
  saveBalances walletId userId prices balances [].

(** The catch of this function logs and throws the error again. *)
Definition fetchAndUpdateWalletBalances (walletId userId : string) : M (list WalletBalance) :=
  record (Entered "fetchAndUpdateWalletBalances" [walletId; userId]) ;;;
  wallets <- getConnectedWallets userId ;;
  match List.find (fun w => String.eqb (cw_id w) walletId) wallets with
  | None => throw (Error "Wallet not found")
  | Some wallet =>
      balances <- balancesOf wallet ;;
      priceAndSave walletId userId balances
  end.

(** A run of upsertWalletBalance calls, one after the other. *)
Fixpoint upsertAll (calls : list InsertWalletBalance) : M (list WalletBalance) :=
  match calls with
  | [] => ret []
  | b :: rest =>
      row <- upsertWalletBalance b ;;
      rows <- upsertAll rest ;;
      ret (row :: rows)
  end.

Record PredefinedWallet : Type := {
  pw_address : string;
  pw_network : string;
  pw_walletType : string;
  pw_description : string
}.

Definition predefinedWallets : list PredefinedWallet :=
  [ {| pw_address := "0xB36EDa1ffC696FFba07D4Be5cd249FE5E0118130";
       pw_network := "ethereum"; pw_walletType := "manual";
       pw_description := "ETH Wallet" |};
    {| pw_address := "bc1qv4fffwt8ux3k33n2dms5cdvuh6suc0gtfevxzu";
       pw_network := "bitcoin"; pw_walletType := "manual";
       pw_description := "BTC Wallet" |};
    {| pw_address := "0xB36EDa1ffC696FFba07D4Be5cd249FE5E0118130";
       pw_network := "bsc"; pw_walletType := "manual";
       pw_description := "BNB Wallet" |};
    {| pw_address := "TSt7yoNwGYRbtMMfkSAHE6dPs1cd9rxcco";
       pw_network := "tron"; pw_walletType := "manual";
       pw_description := "USDT-TRON Wallet" |} ].

(** [['ethereum', 'bsc', 'polygon', 'tron'].includes(network)] *)
Definition fetchable (network : string) : bool :=
  existsb (String.eqb network) ["ethereum"; "bsc"; "polygon"; "tron"].

(** One turn of the seeding loop, with its own try/catch. *)
Definition seedWallet (userId : string) (wallet : PredefinedWallet) : M unit :=
  tryCatch
    (date <- now ;;
     connectedWallet <- createConnectedWallet
       {| icw_userId := userId;
          icw_walletType := pw_walletType wallet;
          icw_walletAddress := pw_address wallet;
          icw_chainId := "1";
          icw_network := pw_network wallet;
          icw_isActive := Given true;
          icw_lastConnected := Given date |} ;;
     if fetchable (pw_network wallet)
     then fetchAndUpdateWalletBalances (cw_id connectedWallet) userId ;;; ret tt
     else ret tt)
    (fun _ => ret tt).

Fixpoint seedWallets (userId : string) (wallets : list PredefinedWallet) : M unit :=
  match wallets with
  | [] => ret tt
  | wallet :: rest => seedWallet userId wallet ;;; seedWallets userId rest
  end.

Definition initializeWalletWithAddresses (userId : string) : M unit :=
  tryCatch
    (existingWallets <- getConnectedWallets userId ;;
     if (List.length existingWallets =? 0)%nat
     then seedWallets userId predefinedWallets
     else ret tt)
    (fun _ => ret tt).

End Service.

(** ** Properties of stores and traces used in the statements *)

Definition sameTriple (r1 r2 : WalletBalance) : Prop :=
  wb_userId r1 = wb_userId r2 /\ wb_walletId r1 = wb_walletId r2
  /\ wb_tokenSymbol r1 = wb_tokenSymbol r2.

(** At most one wallet_balances row per (userId, walletId, tokenSymbol)
    with a non-null walletId. *)
Definition oneRowPerTriple (rows : list WalletBalance) : Prop :=
  forall (i j : nat) (r1 r2 : WalletBalance),
    rows !! i = Some r1 -> rows !! j = Some r2 ->
    wb_walletId r1 <> None -> sameTriple r1 r2 -> i = j.

(** [id] is the primary key of wallet_balances. *)
Definition primaryKey (rows : list WalletBalance) : Prop :=
  NoDup (List.map wb_id rows).

(** The symbols of the price table. *)
Definition tableSymbols : list string :=
  ["BTC"; "ETH"; "BNB"; "USDT"; "USDC"; "MATIC"; "TRX"].

(** The networks the reconciler has a fetcher for. *)
Definition supported : list string := ["ethereum"; "bsc"; "polygon"; "tron"].

(** A computation that returns from every store: it cannot throw. *)
Definition total {A : Type} (m : M A) : Prop :=
  forall s, exists a s', m s = (inr a, s').

(** The store right after fetchAndUpdateWalletBalances was entered. *)
Definition entering (walletId userId : string) (s : Store) : Store :=
  snd (record (Entered "fetchAndUpdateWalletBalances" [walletId; userId]) s).

(** The connected wallets of a user. *)
Definition walletsOf (userId : string) (s : Store) : list ConnectedWallet :=
  List.filter (fun w => String.eqb (cw_userId w) userId) (connectedWallets s).

(** The argument lists of the calls of fetchAndUpdateWalletBalances that a
    trace records, in order. *)
Fixpoint reconcilerCalls (evs : list Event) : list (list string) :=
  match evs with
  | [] => []
  | Entered fn args :: rest =>
      if String.eqb fn "fetchAndUpdateWalletBalances"
      then args :: reconcilerCalls rest
      else reconcilerCalls rest
  | Requested _ :: rest => reconcilerCalls rest
  end.

(** The URLs a trace records, in order. *)
Fixpoint requests (evs : list Event) : list string :=
  match evs with
  | [] => []
  | Requested url :: rest => url :: requests rest
  | Entered _ _ :: rest => requests rest
  end.

(** A computation that leaves connected_wallets as it is and does not enter
    fetchAndUpdateWalletBalances. *)
Definition quiet {A : Type} (m : M A) : Prop :=
  forall s,
    connectedWallets (snd (m s)) = connectedWallets s
    /\ exists evs, trace (snd (m s)) = trace s ++ evs /\ reconcilerCalls evs = [].

(** ** Sample worlds for the examples *)

Module Sample.

Definition integerOf (x : float) : option Z :=
  match Prim2SF x with
  | S754_zero _ => Some 0
  | S754_finite neg m e =>
      let v := if 0 <=? e then Some (Zpos m * 2 ^ e)
               else if Zpos m mod 2 ^ (- e) =? 0 then Some (Zpos m / 2 ^ (- e))
               else None in
      if neg then None else v
  | _ => None
  end.

(** An engine's [Math.pow] where base and exponent are non-negative
    integers: the Number nearest to the power. (Elsewhere this sample
    answers NaN; the examples do not go there.) *)
Definition exactPow (b e : float) : float :=
  match integerOf b, integerOf e with
  | Some bz, Some ez => ofRatio false (bz ^ ez) 1
  | _, _ => nan
  end.

Definition world (replies : nat -> string -> Reply) : Env :=
  {| http := replies;
     clock := fun k => 1700000000000 + Z.of_nat k;
     gen_random_uuid := fun k => "row-" +:+ showZ (Z.of_nat k);
     Math_pow := exactPow |}.

Definition explorerReply (result : string) : Reply :=
  Answered 200 (Some (JObj [ ("status", JStr "1"); ("message", JStr "OK");
                             ("result", JStr result) ])).

(** Every explorer reports a zero balance; the price API knows nothing. *)
Definition zeroBalances : Env :=
  world (fun _ url => if String.prefix COINGECKO_API url
                      then Answered 200 (Some (JObj []))
                      else explorerReply "0").

Definition wallet1 : ConnectedWallet :=
  {| cw_id := "w1"; cw_userId := "u1"; cw_walletType := "manual";
     cw_walletAddress := "0xB36EDa1ffC696FFba07D4Be5cd249FE5E0118130";
     cw_chainId := "1"; cw_network := "ethereum"; cw_isActive := Some true;
     cw_lastConnected := Some 1690000000000; cw_createdAt := Some 1690000000000 |}.

Definition dogeWallet : ConnectedWallet :=
  {| cw_id := "w9"; cw_userId := "u1"; cw_walletType := "manual";
     cw_walletAddress := "DH5yaieqoZN36fDVciNyRueRGvGLR3mr7L";
     cw_chainId := "1"; cw_network := "dogecoin"; cw_isActive := Some true;
     cw_lastConnected := Some 1690000000000; cw_createdAt := Some 1690000000000 |}.

Definition emptyStore : Store :=
  {| tick := 0; trace := []; connectedWallets := []; walletBalances := [] |}.

Definition oneWallet : Store :=
  {| tick := 0; trace := []; connectedWallets := [wallet1]; walletBalances := [] |}.

Definition dogeOnly : Store :=
  {| tick := 0; trace := []; connectedWallets := [dogeWallet]; walletBalances := [] |}.

(** TronGrid answers the account request with 1 TRX; the token request
    fails on the network. *)
Definition tronHalf : Env :=
  world (fun k _ =>
           match k with
           | O => Answered 200
                    (Some (JObj [ ("data", JArr [ JObj [ ("balance", JNum 1000000) ] ]);
                                  ("success", JBool true) ]))
           | _ => Rejected
           end).

(** Etherscan answers the native request with 1 ETH; the first token
    request fails on the network. *)
Definition evmHalf : Env :=
  world (fun k _ =>
           match k with
           | O => explorerReply "1000000000000000000"
           | _ => Rejected
           end).

(** The price API quotes bitcoin at 0 and ethereum at 2500. *)
Definition quotes : JSON :=
  JObj [ ("bitcoin", JObj [ ("usd", JNum 0) ]);
         ("ethereum", JObj [ ("usd", JNum 2500) ]) ].

Definition priced : Env := world (fun _ _ => Answered 200 (Some quotes)).

(** Explorers report 1 native coin and 5 USDT (raw 5000000). *)
Definition funded : Env :=
  world (fun _ url =>
           if String.prefix "https://api.etherscan.io/api?module=account&action=balance" url
           then explorerReply "1000000000000000000"
           else explorerReply "5000000").

Definition ethRow : WalletBalance :=
  {| wb_id := "b1"; wb_userId := "u1"; wb_walletId := Some "w1";
     wb_tokenSymbol := "ETH"; wb_tokenAddress := None; wb_balance := "1";
     wb_balanceUSD := Some "2500"; wb_lastUpdated := Some 1690000000000 |}.

Definition oneBalance : Store :=
  {| tick := 0; trace := []; connectedWallets := [wallet1]; walletBalances := [ethRow] |}.


Definition usdtCall : InsertWalletBalance :=
  {| ib_userId := "u1"; ib_walletId := Given "w1"; ib_tokenSymbol := "USDT";
     ib_tokenAddress := Given "0xdAC17F958D2ee523a2206206994597C13D831ec7";
     ib_balance := "5"; ib_balanceUSD := Undefined |}.

End Sample.

(** ** More of storage.ts: wallet balances and connected wallets *)

(** [eq(walletBalances.walletId, walletId)]: false on a NULL wallet_id. *)
Definition walletIs (walletId : string) (r : WalletBalance) : bool :=
  match wb_walletId r with
  | Some w => String.eqb w walletId
  | None => false
  end.

(** The optional [walletId] narrows the query only when it is a non-empty
    string ([if (walletId)]). *)
Definition getWalletBalances (userId : string) (walletId : option string)
  : M (list WalletBalance) :=
  fun s =>
    let mine := fun r => String.eqb (wb_userId r) userId in
    let narrowed := match walletId with
                    | Some w => negb (String.eqb w "")
                    | None => false
                    end in
    let rows := if narrowed
                then List.filter (fun r => mine r && walletIs (default "" walletId) r)
                                 (walletBalances s)
                else List.filter mine (walletBalances s) in
    (inr (orderByDesc wb_lastUpdated rows), s).

Definition deleteWalletBalances (walletId : string) : M unit :=
  fun s => setWalletBalances
             (List.filter (fun r => negb (walletIs walletId r)) (walletBalances s)) s.

Section MoreStorage.

Variable env : Env.

(** createConnectedWallet when the caller supplies the [id] column, as the
    connect route does. *)
Definition createConnectedWalletWithId (id : string) (wallet : InsertConnectedWallet)
  : M ConnectedWallet :=
  t <- now env ;;
  let row := {| cw_id := id;
                cw_userId := icw_userId wallet;
                cw_walletType := icw_walletType wallet;
                cw_walletAddress := icw_walletAddress wallet;
                cw_chainId := icw_chainId wallet;
                cw_network := icw_network wallet;
                cw_isActive := inserted (Some true) (icw_isActive wallet);
                cw_lastConnected := inserted (Some t) (icw_lastConnected wallet);
                cw_createdAt := Some t |} in
  fun s => (inr row, {| tick := tick s; trace := trace s;
                        connectedWallets := connectedWallets s ++ [row];
                        walletBalances := walletBalances s |}).

End MoreStorage.

(** ** The other tables of storage.ts *)

(** users *)
Record User : Type := {
  u_id : string;
  u_email : option string;
  u_firstName : option string;
  u_lastName : option string;
  u_profileImageUrl : option string;
  u_isAdmin : option bool;
  u_createdAt : option Z;
  u_updatedAt : option Z
}.

(** What upsertUser is given; an absent [id] takes the column default. *)
Record UpsertUser : Type := {
  uu_id : option string;
  uu_email : Column string;
  uu_firstName : Column string;
  uu_lastName : Column string;
  uu_profileImageUrl : Column string;
  uu_isAdmin : Column bool;
  uu_createdAt : Column Z;
  uu_updatedAt : Column Z
}.

(** trading_history *)
Record TradingHistory : Type := {
  th_id : string;
  th_userId : string;
  th_walletId : option string;
  th_pair : string;
  th_type : string;
  th_amount : string;
  th_price : string;
  th_total : string;
  th_fee : option string;
  th_txHash : option string;
  th_status : option string;
  th_createdAt : option Z
}.

(** market_data *)
Record MarketData : Type := {
  md_id : string;
  md_symbol : string;
  md_price : string;
  md_volume24h : string;
  md_change24h : string;
  md_lastUpdated : option Z
}.

(** The columns upsertMarketData is given; [id] and [lastUpdated] are left
    to their defaults. *)
Record InsertMarketData : Type := {
  imd_symbol : string;
  imd_price : string;
  imd_volume24h : string;
  imd_change24h : string
}.

(** The wallet tables of [Store] together with the other tables. *)
Record Database : Type := {
  core : Store;
  users : list User;
  tradingHistory : list TradingHistory;
  marketData : list MarketData
}.

Definition D (A : Type) : Type := Database -> Except A * Database.

Definition dret {A : Type} (a : A) : D A := fun db => (inr a, db).

Definition dbind {A B : Type} (m : D A) (k : A -> D B) : D B :=
  fun db => match m db with
            | (inl e, db') => (inl e, db')
            | (inr a, db') => k a db'
            end.

(** try { m } catch (e) { handler e } *)
Definition dtryCatch {A : Type} (m : D A) (handler : Exn -> D A) : D A :=
  fun db => match m db with
            | (inl e, db') => handler e db'
            | (inr a, db') => (inr a, db')
            end.

(** A computation on the wallet tables, run inside the database. *)
Definition inCore {A : Type} (m : M A) : D A :=
  fun db => let '(r, c) := m (core db) in
            (r, {| core := c; users := users db;
                   tradingHistory := tradingHistory db; marketData := marketData db |}).

Declare Scope database_scope.
Delimit Scope database_scope with database.
Notation "x <~ m ;; k" := (dbind m (fun x => k))
  (at level 100, m at next level, right associativity) : database_scope.
Local Open Scope database_scope.

Definition ADMIN_EMAIL : string := "binancewebonline@outlook.com".

(** schema.ts: [user.email === 'binancewebonline@outlook.com'] *)
Definition isAdminUser (user : User) : bool :=
  match u_email user with
  | Some e => String.eqb e ADMIN_EMAIL
  | None => false
  end.

Section OtherTables.

Variable env : Env.

Definition getUser (id : string) : D (option User) :=
  fun db => (inr (List.find (fun u => String.eqb (u_id u) id) (users db)), db).

(** [userData.email === 'binancewebonline@outlook.com'] *)
Definition emailIsAdmin (userData : UpsertUser) : bool :=
  match uu_email userData with
  | Given e => String.eqb e ADMIN_EMAIL
  | _ => false
  end.

(** The DO UPDATE SET of upsertUser: [{...userData, isAdmin, updatedAt}]. *)
Definition updatedUser (userData : UpsertUser) (date : Z) (u : User) : User :=
  {| u_id := u_id u;
     u_email := assigned (uu_email userData) (u_email u);
     u_firstName := assigned (uu_firstName userData) (u_firstName u);
     u_lastName := assigned (uu_lastName userData) (u_lastName u);
     u_profileImageUrl := assigned (uu_profileImageUrl userData) (u_profileImageUrl u);
     u_isAdmin := Some (emailIsAdmin userData);
     u_createdAt := assigned (uu_createdAt userData) (u_createdAt u);
     u_updatedAt := Some date |}.

(** The VALUES of upsertUser: [{...userData, isAdmin}]. *)
Definition insertedUser (userData : UpsertUser) (id : string) (t : Z) : User :=
  {| u_id := id;
     u_email := inserted None (uu_email userData);
     u_firstName := inserted None (uu_firstName userData);
     u_lastName := inserted None (uu_lastName userData);
     u_profileImageUrl := inserted None (uu_profileImageUrl userData);
     u_isAdmin := Some (emailIsAdmin userData);
     u_createdAt := inserted (Some t) (uu_createdAt userData);
     u_updatedAt := inserted (Some t) (uu_updatedAt userData) |}.

Definition setUsers (rows : list User) : D unit :=
  fun db => (inr tt, {| core := core db; users := rows;
                        tradingHistory := tradingHistory db; marketData := marketData db |}).

(** INSERT ... ON CONFLICT (id) DO UPDATE. [new Date()] is read while the
    statement is built; the id default is read when [userData] has no id.
    The statement is taken to succeed: a payload whose e-mail another row
    holds runs into the unique index on email and is not covered. *)
Definition upsertUser (userData : UpsertUser) : D User :=
  date <~ inCore (now env) ;;
  id <~ match uu_id userData with
        | Some id => dret id
        | None => inCore (newId env)
        end ;;
  t <~ inCore (now env) ;;
  fun db =>
    let hit := fun u => String.eqb (u_id u) id in
    if existsb hit (users db) then
      let rows := List.map (fun u => if hit u then updatedUser userData date u else u)
                           (users db) in
      (_ <~ setUsers rows ;;
       dret (List.hd (insertedUser userData id t) (List.filter hit rows))) db
    else
      let row := insertedUser userData id t in
      (_ <~ setUsers (users db ++ [row]) ;; dret row) db.

(** ORDER BY created_at DESC LIMIT 50 *)
Definition getTradingHistory (userId : string) : D (list TradingHistory) :=
  fun db =>
    (inr (firstn 50 (orderByDesc th_createdAt
                       (List.filter (fun t => String.eqb (th_userId t) userId)
                                    (tradingHistory db)))),
     db).

(** [eq(marketData.symbol, symbols[0])]: only the first symbol is looked up;
    with no symbol the comparison is against NULL and matches nothing. *)
Definition getMarketData (symbols : list string) : D (list MarketData) :=
  fun db =>
    (inr match symbols with
         | first :: _ => List.filter (fun r => String.eqb (md_symbol r) first) (marketData db)
         | [] => []
         end,
     db).

Definition setMarketData (rows : list MarketData) : D unit :=
  fun db => (inr tt, {| core := core db; users := users db;
                        tradingHistory := tradingHistory db; marketData := rows |}).

(** INSERT ... ON CONFLICT (symbol) DO UPDATE SET price, volume24h,
    change24h, lastUpdated. *)
Definition upsertMarketData (data : InsertMarketData) : D MarketData :=
  date <~ inCore (now env) ;;
  id <~ inCore (newId env) ;;
  t <~ inCore (now env) ;;
  fun db =>
    let hit := fun r => String.eqb (md_symbol r) (imd_symbol data) in
    let update := fun r => {| md_id := md_id r; md_symbol := md_symbol r;
                              md_price := imd_price data;
                              md_volume24h := imd_volume24h data;
                              md_change24h := imd_change24h data;
                              md_lastUpdated := Some date |} in
    let row := {| md_id := id; md_symbol := imd_symbol data;
                  md_price := imd_price data;
                  md_volume24h := imd_volume24h data;
                  md_change24h := imd_change24h data;
                  md_lastUpdated := Some t |} in
    if existsb hit (marketData db) then
      let rows := List.map (fun r => if hit r then update r else r) (marketData db) in
      (_ <~ setMarketData rows ;; dret (List.hd row (List.filter hit rows))) db
    else (_ <~ setMarketData (marketData db ++ [row]) ;; dret row) db.

End OtherTables.

(** ** walletService.ts (client side) *)

Definition lowerChar (c : ascii) : ascii :=
  let n := nat_of_ascii c in
  if ((65 <=? n) && (n <=? 90))%nat then ascii_of_nat (n + 32) else c.

(** [toLowerCase()] on ASCII strings: the names the service handles. *)
Fixpoint toLowerCase (s : string) : string :=
  match s with
  | EmptyString => EmptyString
  | String c s' => String (lowerChar c) (toLowerCase s')
  end.

(** The strings on which [toLowerCase] above is JavaScript's. *)
Fixpoint asciiOnly (s : string) : bool :=
  match s with
  | EmptyString => true
  | String c s' => (nat_of_ascii c <? 128)%nat && asciiOnly s'
  end.

(** [parseInt(string, 16)] *)
Definition parseInt16 (input : string) : float :=
  let '(neg, s) := readSign (trimStart input) in
  let s := match s with
           | String "0" (String "x" s') | String "0" (String "X" s') => s'
           | _ => s
           end in
  let '(v, n, _) := readDigits 16 s 0 0 in
  match n with
  | O => nan
  | S _ => ofRatio neg v 1
  end.

Record NetworkConfig : Type := {
  nc_chainId : string;
  nc_name : string;
  nc_rpcUrl : string;
  nc_explorerUrl : string;
  nc_currencyName : string;
  nc_currencySymbol : string;
  nc_currencyDecimals : Z
}.

Definition ethereumNetwork : NetworkConfig :=
  {| nc_chainId := "1"; nc_name := "Ethereum";
     nc_rpcUrl := "https://mainnet.infura.io/v3/";
     nc_explorerUrl := "https://etherscan.io";
     nc_currencyName := "Ether"; nc_currencySymbol := "ETH"; nc_currencyDecimals := 18 |}.

Definition bscNetwork : NetworkConfig :=
  {| nc_chainId := "56"; nc_name := "BNB Smart Chain";
     nc_rpcUrl := "https://bsc-dataseed.binance.org/";
     nc_explorerUrl := "https://bscscan.com";
     nc_currencyName := "BNB"; nc_currencySymbol := "BNB"; nc_currencyDecimals := 18 |}.

Definition polygonNetwork : NetworkConfig :=
  {| nc_chainId := "137"; nc_name := "Polygon";
     nc_rpcUrl := "https://polygon-rpc.com";
     nc_explorerUrl := "https://polygonscan.com";
     nc_currencyName := "MATIC"; nc_currencySymbol := "MATIC"; nc_currencyDecimals := 18 |}.

Definition SUPPORTED_NETWORKS : list (string * NetworkConfig) :=
  [ ("ethereum", ethereumNetwork); ("bsc", bscNetwork); ("polygon", polygonNetwork) ].

Definition getNetworkByChainId (chainId : string) : NetworkConfig :=
  let chainIdNum := parseInt16 chainId in
  if PrimFloat.eqb chainIdNum 1 then ethereumNetwork
  else if PrimFloat.eqb chainIdNum 56 then bscNetwork
  else if PrimFloat.eqb chainIdNum 137 then polygonNetwork
  else ethereumNetwork.

(** The [connectionData] posted to /api/wallets/connect. *)
Record ConnectionData : Type := {
  cd_walletType : string;
  cd_walletAddress : string;
  cd_chainId : string;
  cd_network : string
}.

(** The [connectionData] of connectMetaMask and connectCoinbaseWallet, from
    the account and chain id the wallet reports. *)
Definition providerConnectionData (walletType account chainId : string) : ConnectionData :=
  {| cd_walletType := walletType;
     cd_walletAddress := account;
     cd_chainId := chainId;
     cd_network := toLowerCase (nc_name (getNetworkByChainId chainId)) |}.

(** connectManualWallet up to its request: the network must be the name of
    a supported network, whatever the case. *)
Definition manualConnectionData (address network : string) : Except ConnectionData :=
  match List.find (fun n => String.eqb (toLowerCase (nc_name n)) (toLowerCase network))
                  (List.map snd SUPPORTED_NETWORKS) with
  | None => inl (Error "Unsupported network")
  | Some networkConfig =>
      inr {| cd_walletType := "manual";
             cd_walletAddress := address;
             cd_chainId := nc_chainId networkConfig;
             cd_network := toLowerCase network |}
  end.

(** ** The wallet routes *)

(** What a route answers: a status with a JSON payload, or a status with
    [{message}]. *)
Inductive Outcome (A : Type) : Type :=
| Json (code : N) (payload : A)
| Message (code : N) (message : string).
Arguments Json {A} code payload.
Arguments Message {A} code message.

(** The body of POST /api/wallets/connect; the fields are the strings the
    client sends, [None] for an absent field. *)
Record ConnectBody : Type := {
  cb_walletType : option string;
  cb_walletAddress : option string;
  cb_chainId : option string;
  cb_network : option string
}.

Definition bodyOf (data : ConnectionData) : ConnectBody :=
  {| cb_walletType := Some (cd_walletType data);
     cb_walletAddress := Some (cd_walletAddress data);
     cb_chainId := Some (cd_chainId data);
     cb_network := Some (cd_network data) |}.

(** Truth of an optional string field. *)
Definition present (field : option string) : bool :=
  match field with
  | Some s => negb (String.eqb s "")
  | None => false
  end.

Section Routes.

Variable env : Env.

(** POST /api/wallets/connect. [nanoid()] is read from the id oracle of the
    world. *)
Definition connectRoute (userId : string) (body : ConnectBody)
  : M (Outcome ConnectedWallet) :=
  tryCatch
    (if (negb (present (cb_walletType body)) || negb (present (cb_walletAddress body))
         || negb (present (cb_network body)))%bool
     then ret (Message 400 "Missing required fields")
     else
       id <- newId env ;;
       date <- now env ;;
       connectedWallet <- createConnectedWalletWithId env id
         {| icw_userId := userId;
            icw_walletType := default "" (cb_walletType body);
            icw_walletAddress := default "" (cb_walletAddress body);
            icw_chainId := if present (cb_chainId body)
                           then default "" (cb_chainId body) else "1";
            icw_network := toLowerCase (default "" (cb_network body));
            icw_isActive := Given true;
            icw_lastConnected := Given date |} ;;
       ret (Json 200 connectedWallet))
    (fun _ => ret (Message 500 "Failed to connect wallet")).

(** GET /api/wallets/connected *)
Definition connectedRoute (userId : string) : M (Outcome (list ConnectedWallet)) :=
  tryCatch
    (initializeWalletWithAddresses env userId ;;;
     wallets <- getConnectedWallets userId ;;
     ret (Json 200 wallets))
    (fun _ => ret (Message 500 "Failed to fetch wallets")).

(** POST /api/wallets/:walletId/balances/refresh *)
Definition refreshRoute (userId walletId : string) : M (Outcome (list WalletBalance)) :=
  tryCatch
    (updatedBalances <- fetchAndUpdateWalletBalances env walletId userId ;;
     ret (Json 200 updatedBalances))
    (fun _ => ret (Message 500 "Failed to refresh balances")).

End Routes.

Section AdminRoutes.

Variable env : Env.

(** GET /api/auth/user: the stored user with [isAdmin] recomputed from the
    email. *)
Definition authUserRoute (userId : string) : D (Outcome User) :=
  dtryCatch
    (user <~ getUser userId ;;
     match user with
     | Some u =>
         dret (Json 200 {| u_id := u_id u; u_email := u_email u;
                           u_firstName := u_firstName u; u_lastName := u_lastName u;
                           u_profileImageUrl := u_profileImageUrl u;
                           u_isAdmin := Some (isAdminUser u);
                           u_createdAt := u_createdAt u; u_updatedAt := u_updatedAt u |})
     | None => dret (Message 404 "User not found")
     end)
    (fun _ => dret (Message 500 "Failed to fetch user")).

(** GET /api/admin/users: [!user?.isAdmin] refuses. *)
Definition adminUsersRoute (userId : string) : D (Outcome unit) :=
  dtryCatch
    (user <~ getUser userId ;;
     match user with
     | Some u =>
         if default false (u_isAdmin u)
         then dret (Message 200 "Admin access granted")
         else dret (Message 403 "Admin access required")
     | None => dret (Message 403 "Admin access required")
     end)
    (fun _ => dret (Message 500 "Admin operation failed")).

End AdminRoutes.

(** ** Notions used in the further properties *)

(** The native symbol of an EVM network (the switch of fetchNativeBalance). *)
Definition nativeSymbolOf (network : string) : option string :=
  option_map snd (nativeRequest [] "" network).

(** What fetchEVMBalance can return for a network, in order: the native
    coin, then the tokens of TOKEN_CONTRACTS with their contracts. *)
Definition catalogue (network : string) : list (string * option string) :=
  match nativeSymbolOf network with
  | Some sym => [(sym, None)]
  | None => []
  end
  ++ List.map (fun token => (fst token, Some (snd token)))
              (default [] (assoc network TOKEN_CONTRACTS)).

Definition entryKey (b : RawBalance) : string * option string :=
  (tokenSymbol b, tokenAddress b).

(** A relation between the store before and after that every step of a
    computation keeps. *)
Definition keeps (R : Store -> Store -> Prop) {A : Type} (m : M A) : Prop :=
  forall s, R s (snd (m s)).

(** Ids: those of wallet_balances are pairwise distinct, and the ids the
    world generates from now on are new and pairwise distinct. *)
Definition freshIds (env : Env) (s : Store) : Prop :=
  primaryKey (walletBalances s)
  /\ (forall k, (tick s <= k)%nat ->
                ~ In (gen_random_uuid env k) (List.map wb_id (walletBalances s)))
  /\ (forall j k, (tick s <= j)%nat -> (tick s <= k)%nat ->
                  gen_random_uuid env j = gen_random_uuid env k -> j = k).

(** [l] is in ORDER BY key DESC order. *)
Definition descSorted {A : Type} (key : A -> option Z) (l : list A) : Prop :=
  forall i j a b, (i < j)%nat -> l !! i = Some a -> l !! j = Some b ->
                  descBefore (key a) (key b) = true.

(** symbol is a unique column of market_data. *)
Definition oneRowPerSymbol (rows : list MarketData) : Prop :=
  NoDup (List.map md_symbol rows).

(** [id] is the primary key of users. *)
Definition usersKey (rows : list User) : Prop := NoDup (List.map u_id rows).

(** email is a unique column of users: the e-mail of the payload, when it
    has one, is held by no row other than the one the payload names. *)
Definition emailAvailable (userData : UpsertUser) (rows : list User) : Prop :=
  forall e r, uu_email userData = Given e -> In r rows -> u_email r = Some e ->
              uu_id userData = Some (u_id r).

(** The same payload carrying another [isAdmin]. *)
Definition withIsAdmin (flag : Column bool) (userData : UpsertUser) : UpsertUser :=
  {| uu_id := uu_id userData; uu_email := uu_email userData;
     uu_firstName := uu_firstName userData; uu_lastName := uu_lastName userData;
     uu_profileImageUrl := uu_profileImageUrl userData; uu_isAdmin := flag;
     uu_createdAt := uu_createdAt userData; uu_updatedAt := uu_updatedAt userData |}.

(** The price API is down: every price request is rejected or answered
    with a status outside 200-299. *)
Definition pricesDown (env : Env) : Prop :=
  forall k symbols,
    match http env k (priceUrl symbols) with
    | Rejected => True
    | Answered st b => ok {| status := st; body := b |} = false
    end.

(** [r] has no USD value, or the USD value that the row of its id had in
    [before]. *)
Definition usdKept (before : list WalletBalance) (r : WalletBalance) : Prop :=
  wb_balanceUSD r = None
  \/ exists old, In old before /\ wb_id old = wb_id r /\ wb_balanceUSD old = wb_balanceUSD r.

(** ** Further sample data *)

Module More.

(** Explorers report 1 native coin; every price request is rejected. *)
Definition withoutPrices : Env :=
  Sample.world (fun _ url => if String.prefix COINGECKO_API url
                             then Rejected
                             else Sample.explorerReply "1000000000000000000").

Definition trade (id : string) (at_ : Z) : TradingHistory :=
  {| th_id := id; th_userId := "u1"; th_walletId := None; th_pair := "BTC/USDT";
     th_type := "buy"; th_amount := "1"; th_price := "65000"; th_total := "65000";
     th_fee := Some "0"; th_txHash := None; th_status := Some "completed";
     th_createdAt := Some at_ |}.

Definition database : Database :=
  {| core := Sample.oneBalance;
     users := [ {| u_id := "u1"; u_email := Some ADMIN_EMAIL; u_firstName := Some "Ada";
                   u_lastName := None; u_profileImageUrl := None; u_isAdmin := Some true;
                   u_createdAt := Some 1690000000000; u_updatedAt := Some 1690000000000 |} ];
     tradingHistory := [ trade "t1" 1690000000001; trade "t2" 1690000000002 ];
     marketData := [ {| md_id := "m1"; md_symbol := "bitcoin"; md_price := "65000";
                        md_volume24h := "1000"; md_change24h := "0.5";
                        md_lastUpdated := Some 1690000000000 |} ] |}.

Definition adminLogin : UpsertUser :=
  {| uu_id := Some "u1"; uu_email := Given ADMIN_EMAIL; uu_firstName := Given "Ada";
     uu_lastName := Undefined; uu_profileImageUrl := Undefined; uu_isAdmin := Undefined;
     uu_createdAt := Undefined; uu_updatedAt := Undefined |}.

Definition loginWithoutEmail : UpsertUser :=
  {| uu_id := Some "u1"; uu_email := Undefined; uu_firstName := Given "Ada";
     uu_lastName := Undefined; uu_profileImageUrl := Undefined; uu_isAdmin := Given true;
     uu_createdAt := Undefined; uu_updatedAt := Undefined |}.

Definition ethereumQuote : InsertMarketData :=
  {| imd_symbol := "ethereum"; imd_price := "2500"; imd_volume24h := "900";
     imd_change24h := "-1.2" |}.

Definition detachedCall : InsertWalletBalance :=
  {| ib_userId := "u1"; ib_walletId := Null; ib_tokenSymbol := "BTC";
     ib_tokenAddress := Null; ib_balance := "0.5"; ib_balanceUSD := Undefined |}.




(** Another user's balance next to the one of [Sample.oneBalance]. *)
Definition otherRow : WalletBalance :=
  {| wb_id := "b2"; wb_userId := "u2"; wb_walletId := Some "w2";
     wb_tokenSymbol := "ETH"; wb_tokenAddress := None; wb_balance := "3";
     wb_balanceUSD := None; wb_lastUpdated := Some 1690000000000 |}.

Definition twoUsers : Store :=
  {| tick := 0; trace := []; connectedWallets := [Sample.wallet1];
     walletBalances := [Sample.ethRow; otherRow] |}.

(** The native balance request is rejected; the token requests report a
    raw balance of 5000000. *)
Definition nativeDown : Env :=
  Sample.world (fun _ url =>
                  if String.prefix "https://api.etherscan.io/api?module=account&action=balance"
                                   url
                  then Rejected
                  else Sample.explorerReply "5000000").

End More.

(** * Properties *)

(** ** The price oracle *)

Lemma collectPrices_keys (entries : list (string * string)) (data : Value) :
  forall (prices prices' : gmap string JSON),
    collectPrices entries data prices = inr prices' ->
    forall k, is_Some (prices' !! k) ->
              is_Some (prices !! k) \/ In k (List.map fst entries).
Proof.
  induction entries as [|[symbol id] rest IH]; intros prices prices' H k Hk; cbn [collectPrices] in H.
  - injection H as <-. now left.
  - destruct (get data id) as [e|quote]; [discriminate|].
    destruct (truthy quote).
    + destruct (get quote "usd") as [e|[usd|]]; [discriminate| |].
      * destruct (truthy (Some usd)).
        -- destruct (IH _ _ H k Hk) as [Hin|Hin]; [|simpl; auto].
           destruct (decide (symbol = k)) as [->|Hne]; [simpl; auto|].
           rewrite lookup_insert_ne in Hin by done. now left.
        -- destruct (IH _ _ H k Hk); simpl; auto.
      * destruct (IH _ _ H k Hk); simpl; auto.
    + destruct (IH _ _ H k Hk); simpl; auto.
Qed.

(** C7. Whatever symbols are asked for and whatever the price API answers,
    getTokenPrices returns (it never throws) a mapping whose keys all lie in
    the fixed table BTC, ETH, BNB, USDT, USDC, MATIC, TRX; a requested
    symbol outside the table is simply absent. *)
Theorem getTokenPrices_only_table_symbols (env : Env) (symbols : list string) (s : Store) :
  exists (prices : gmap string JSON) (s' : Store),
    getTokenPrices env symbols s = (inr prices, s')
    /\ (forall k, is_Some (prices !! k) -> In k tableSymbols)
    /\ (forall symbol, In symbol symbols -> ~ In symbol tableSymbols ->
                       prices !! symbol = None).
Proof.
  assert (Hempty : forall k, is_Some ((∅ : gmap string JSON) !! k) -> In k tableSymbols).
  { intros k [v Hv]. rewrite lookup_empty in Hv. discriminate. }
  assert (Hout : forall prices : gmap string JSON,
             (forall k, is_Some (prices !! k) -> In k tableSymbols) ->
             forall symbol, In symbol symbols -> ~ In symbol tableSymbols ->
                            prices !! symbol = None).
  { intros prices Hkeys symbol _ Hnot.
    destruct (prices !! symbol) eqn:E; [|reflexivity].
    exfalso. apply Hnot, Hkeys. rewrite E. eauto. }
  pose proof (Hout _ Hempty) as Hout0.
  unfold getTokenPrices, tryCatch, bind, fetch, json, lift, throw, ret.
  destruct (http env (tick s) (priceUrl symbols)) as [|st b]; [eauto 6|].
  destruct (negb (ok {| status := st; body := b |})); [eauto 6|].
  cbn [body]. destruct b as [j|]; [|eauto 6].
  destruct (collectPrices symbolMapping (Some j) ∅) as [e|prices] eqn:E; [eauto 6|].
  assert (Hkeys : forall k, is_Some (prices !! k) -> In k tableSymbols).
  { intros k Hk. destruct (collectPrices_keys _ _ _ _ E k Hk) as [H|H]; [now apply Hempty | exact H]. }
  eauto 6.
Qed.

(** C8. The ids sent to the quote API are the requested symbols themselves,
    joined by commas: the symbol table is only consulted after the reply has
    arrived. Asked for BTC, the service requests [ids=BTC], not
    [ids=bitcoin]. *)
Theorem getTokenPrices_requests_raw_symbols :
  (forall (env : Env) (symbols : list string) (s : Store),
      trace (snd (getTokenPrices env symbols s))
      = trace s ++ [Requested ("https://api.coingecko.com/api/v3/simple/price?ids="
                               +:+ joinWith "," symbols +:+ "&vs_currencies=usd")])
  /\ requests (trace (snd (getTokenPrices Sample.priced ["BTC"] Sample.emptyStore)))
     = ["https://api.coingecko.com/api/v3/simple/price?ids=BTC&vs_currencies=usd"]
  /\ assoc "BTC" symbolMapping = Some "bitcoin".
Proof.
  split; [|split; reflexivity].
  intros env symbols s.
  unfold getTokenPrices, tryCatch, bind, fetch, json, lift, throw, ret.
  change (priceUrl symbols)
    with ("https://api.coingecko.com/api/v3/simple/price?ids="
          +:+ joinWith "," symbols +:+ "&vs_currencies=usd").
  destruct (http env (tick s) _) as [|st b]; [reflexivity|].
  destruct (negb (ok {| status := st; body := b |})); [reflexivity|].
  cbn [body]. destruct b as [j|]; [|reflexivity].
  destruct (collectPrices symbolMapping (Some j) ∅); reflexivity.
Qed.

Lemma get_usd_truthy (quote usd : JSON) :
  get (Some quote) "usd" = inr (Some usd) -> truthy (Some quote) = true.
Proof. destruct quote; simpl; intros H; try discriminate; reflexivity. Qed.

Lemma get_truthy_inr (v : Value) (key : string) :
  truthy v = true -> exists r, get v key = inr r.
Proof.
  destruct v as [[| | | | |]|]; simpl; intros H; try discriminate; eauto.
  - destruct (String.eqb key "length"); eauto.
  - destruct (String.eqb key "length"); eauto.
Qed.

Lemma get_some_inr (j : JSON) (key key' : string) (r : Value) :
  get (Some j) key = inr r -> exists r', get (Some j) key' = inr r'.
Proof.
  destruct j; simpl; intros H; try discriminate; eauto.
  - destruct (String.eqb key' "length"); eauto.
  - destruct (String.eqb key' "length"); eauto.
Qed.

Lemma collectPrices_total (entries : list (string * string)) (j : JSON) (key : string) (r : Value) :
  get (Some j) key = inr r ->
  forall prices, exists prices', collectPrices entries (Some j) prices = inr prices'.
Proof.
  intros Hj. induction entries as [|[symbol id] rest IH]; intros prices; cbn [collectPrices].
  - eauto.
  - destruct (get_some_inr j key id r Hj) as [quote ->].
    destruct (truthy quote) eqn:Hq; [|apply IH].
    destruct (get_truthy_inr quote "usd" Hq) as [[usd|] ->]; [|apply IH].
    destruct (truthy (Some usd)); apply IH.
Qed.

Lemma collectPrices_other (entries : list (string * string)) (data : Value) (symbol : string) :
  ~ In symbol (List.map fst entries) ->
  forall prices prices',
    collectPrices entries data prices = inr prices' -> prices' !! symbol = prices !! symbol.
Proof.
  induction entries as [|[symbol' id] rest IH]; intros Hnot prices prices' H;
    cbn [collectPrices] in H.
  - now injection H as <-.
  - assert (Hne : symbol' <> symbol) by (intros ->; apply Hnot; now left).
    assert (Hrest : ~ In symbol (List.map fst rest)) by (intros ?; apply Hnot; now right).
    destruct (get data id) as [e|quote]; [discriminate|].
    destruct (truthy quote); [|now apply IH].
    destruct (get quote "usd") as [e|[usd|]]; [discriminate| |now apply IH].
    destruct (truthy (Some usd)); [|now apply IH].
    rewrite (IH Hrest _ _ H). now apply lookup_insert_ne.
Qed.

Lemma collectPrices_finds (entries : list (string * string)) (j : JSON)
    (symbol id : string) (quote usd : JSON) :
  NoDup (List.map fst entries) ->
  In (symbol, id) entries ->
  get (Some j) id = inr (Some quote) ->
  get (Some quote) "usd" = inr (Some usd) ->
  truthy (Some usd) = true ->
  forall prices, exists prices',
    collectPrices entries (Some j) prices = inr prices' /\ prices' !! symbol = Some usd.
Proof.
  intros Hnd Hin Hq Hu Ht.
  induction entries as [|[symbol' id'] rest IH]; intros prices; [destruct Hin|].
  apply NoDup_cons in Hnd as [Hfresh Hnd]. cbn [collectPrices].
  destruct Hin as [Heq|Hin].
  - injection Heq as -> ->. rewrite Hq, (get_usd_truthy _ _ Hu), Hu, Ht.
    destruct (collectPrices_total rest j id _ Hq (<[symbol := usd]> prices)) as [prices' E].
    exists prices'. split; [exact E|].
    rewrite (collectPrices_other rest (Some j) symbol) with (prices := <[symbol := usd]> prices)
      by (try exact E; rewrite <- list_elem_of_In; exact Hfresh).
    apply lookup_insert_eq.
  - destruct (get_some_inr j id id' _ Hq) as [quote' ->].
    destruct (truthy quote') eqn:Hq'; [|now apply IH].
    destruct (get_truthy_inr quote' "usd" Hq') as [[usd'|] ->]; [|now apply IH].
    destruct (truthy (Some usd')); now apply IH.
Qed.

(** C10 fails as stated: a quote of 0 is a usd field, yet it is left out
    (the loop tests [data[id].usd] for truth). *)
Lemma zero_quote_is_left_out :
  get (Some Sample.quotes) "bitcoin" = inr (Some (JObj [("usd", JNum 0)]))
  /\ get (Some (JObj [("usd", JNum 0)])) "usd" = inr (Some (JNum 0))
  /\ In ("BTC", "bitcoin") symbolMapping
  /\ exists prices s',
       getTokenPrices Sample.priced ["BTC"] Sample.emptyStore = (inr prices, s')
       /\ prices !! "BTC" = None.
Proof.
  repeat split; [now left|].
  eexists _, _. split; [vm_compute; reflexivity|]. vm_compute. reflexivity.
Qed.

Lemma collectPrices_sound (entries : list (string * string)) (data : Value) :
  forall (prices prices' : gmap string JSON),
    collectPrices entries data prices = inr prices' ->
    forall symbol usd,
      prices' !! symbol = Some usd ->
      prices !! symbol = Some usd
      \/ exists id quote,
           In (symbol, id) entries /\ get data id = inr (Some quote)
           /\ get (Some quote) "usd" = inr (Some usd) /\ truthy (Some usd) = true.
Proof.
  induction entries as [|[symbol' id'] rest IH]; intros prices prices' H symbol usd Hl;
    cbn [collectPrices] in H.
  - injection H as <-. now left.
  - assert (Hrest : forall p, collectPrices rest data p = inr prices' ->
                              p !! symbol = prices !! symbol ->
                              prices !! symbol = Some usd
                              \/ exists id quote,
                                   In (symbol, id) ((symbol', id') :: rest)
                                   /\ get data id = inr (Some quote)
                                   /\ get (Some quote) "usd" = inr (Some usd)
                                   /\ truthy (Some usd) = true).
    { intros p Hp Hsame. destruct (IH p prices' Hp symbol usd Hl) as [Hold|(id & q & Hin & R)].
      - left. now rewrite <- Hsame.
      - right. exists id, q. split; [now right | exact R]. }
    destruct (get data id') as [e|quote] eqn:Hq; [discriminate|].
    destruct (truthy quote) eqn:Ht; [|now apply (Hrest prices)].
    destruct (get quote "usd") as [e|[usd'|]] eqn:Hu; [discriminate| |now apply (Hrest prices)].
    destruct (truthy (Some usd')) eqn:Htu; [|now apply (Hrest prices)].
    destruct (decide (symbol' = symbol)) as [->|Hne].
    + destruct (IH _ prices' H symbol usd Hl) as [Hold|(id & q & Hin & R)].
      * rewrite lookup_insert_eq in Hold. injection Hold as ->.
        right. destruct quote as [q|]; [|discriminate Ht].
        exists id', q. split; [now left|]. auto.
      * right. exists id, q. split; [now right | exact R].
    + apply (Hrest (<[symbol' := usd']> prices) H). now apply lookup_insert_ne.
Qed.

Lemma assoc_functional {A : Type} (l : list (string * A)) (k : string) (a b : A) :
  NoDup (List.map fst l) -> In (k, a) l -> In (k, b) l -> a = b.
Proof.
  induction l as [|[k' v] l IH]; intros Hnd Ha Hb; [destruct Ha|].
  cbn [List.map fst] in Hnd. apply NoDup_cons in Hnd as [Hfresh Hnd].
  rewrite list_elem_of_In in Hfresh.
  destruct Ha as [Ha|Ha], Hb as [Hb|Hb].
  - congruence.
  - injection Ha as -> _. exfalso. apply Hfresh.
    change k with (fst (k, b)). now apply in_map.
  - injection Hb as -> _. exfalso. apply Hfresh.
    change k with (fst (k, a)). now apply in_map.
  - now apply IH.
Qed.

Lemma symbolMapping_NoDup : NoDup (List.map fst symbolMapping).
Proof. repeat constructor; rewrite list_elem_of_In; simpl; intuition discriminate. Qed.

(** C10, amended. The filtering of getTokenPrices does not consult the
    requested list. Whenever the price API answers with success and a JSON
    body, the returned mapping holds exactly the symbols of the table whose
    external id carries, in the response, a usd value that JavaScript counts
    as true (a non-zero number, a non-empty string, ...), each with that
    value, requested or not. A usd value that counts as false (0, null,
    false, the empty string) or that is missing is left out. The requested
    list only decides which URL is asked. *)
Theorem getTokenPrices_filter_ignores_request (env : Env) (symbols : list string)
    (s : Store) (st : N) (data : JSON) :
  http env (tick s) (priceUrl symbols) = Answered st (Some data) ->
  ok {| status := st; body := Some data |} = true ->
  exists prices s',
    getTokenPrices env symbols s = (inr prices, s')
    /\ (forall symbol usd,
           prices !! symbol = Some usd <->
           exists id quote,
             In (symbol, id) symbolMapping /\ get (Some data) id = inr (Some quote)
             /\ get (Some quote) "usd" = inr (Some usd) /\ truthy (Some usd) = true)
    /\ (forall symbol id quote usd,
           In (symbol, id) symbolMapping ->
           get (Some data) id = inr (Some quote) ->
           get (Some quote) "usd" = inr usd ->
           truthy usd = false ->
           prices !! symbol = None)
    /\ (forall symbols',
           http env (tick s) (priceUrl symbols') = http env (tick s) (priceUrl symbols) ->
           fst (getTokenPrices env symbols' s) = inr prices).
Proof.
  intros Hreply Hok.
  assert (Hrun : forall symbols0,
             http env (tick s) (priceUrl symbols0) = Answered st (Some data) ->
             getTokenPrices env symbols0 s
             = (inr match collectPrices symbolMapping (Some data) ∅ with
                    | inr prices => prices
                    | inl _ => ∅
                    end,
                {| tick := S (tick s); trace := trace s ++ [Requested (priceUrl symbols0)];
                   connectedWallets := connectedWallets s;
                   walletBalances := walletBalances s |})).
  { intros symbols0 H0.
    unfold getTokenPrices, tryCatch, bind, fetch, json, lift, throw, ret.
    rewrite H0, Hok. cbn [negb body].
    destruct (collectPrices symbolMapping (Some data) ∅); reflexivity. }
  eexists _, _. split; [exact (Hrun symbols Hreply)|].
  assert (Hto : forall symbol usd,
             match collectPrices symbolMapping (Some data) ∅ with
             | inr prices => prices
             | inl _ => ∅
             end !! symbol = Some usd ->
             exists id quote,
               In (symbol, id) symbolMapping /\ get (Some data) id = inr (Some quote)
               /\ get (Some quote) "usd" = inr (Some usd) /\ truthy (Some usd) = true).
  { intros symbol usd Hl.
    destruct (collectPrices symbolMapping (Some data) ∅) as [e|prices] eqn:E;
      [now rewrite lookup_empty in Hl|].
    destruct (collectPrices_sound symbolMapping (Some data) ∅ prices E symbol usd Hl)
      as [Hold|Hnew]; [now rewrite lookup_empty in Hold | exact Hnew]. }
  split; [|split].
  - intros symbol usd. split; [apply Hto|].
    intros (id & quote & Hin & Hq & Hu & Ht).
    destruct (collectPrices_finds symbolMapping data symbol id quote usd
                symbolMapping_NoDup Hin Hq Hu Ht ∅) as (prices & -> & Hl).
    exact Hl.
  - intros symbol id quote usd Hin Hq Hu Hf.
    match goal with |- ?m !! symbol = None => destruct (m !! symbol) as [usd'|] eqn:Hl end;
      [exfalso | reflexivity].
    destruct (Hto symbol usd' Hl) as (id' & quote' & Hin' & Hq' & Hu' & Ht').
    assert (id' = id) by (exact (assoc_functional symbolMapping symbol id' id
                                   symbolMapping_NoDup Hin' Hin)).
    subst id'. rewrite Hq in Hq'. injection Hq' as <-.
    rewrite Hu in Hu'. injection Hu' as ->. congruence.
  - intros symbols' Hsame. rewrite Hreply in Hsame. now rewrite (Hrun symbols' Hsame).
Qed.

Lemma getTokenPrices_filter_ignores_request_witness :
  exists prices s',
    getTokenPrices Sample.priced ["DOGE"] Sample.emptyStore = (inr prices, s')
    /\ prices !! "ETH" = Some (JNum 2500)
    /\ prices !! "BTC" = None.
Proof.
  destruct (getTokenPrices_filter_ignores_request Sample.priced ["DOGE"]
              Sample.emptyStore 200 Sample.quotes)
    as (prices & s' & E & Hin & Hout & _); [reflexivity | reflexivity |].
  exists prices, s'. split; [exact E|]. split.
  - apply Hin. exists "ethereum", (JObj [("usd", JNum 2500)]).
    split; [right; now left|]. repeat split.
  - apply (Hout "BTC" "bitcoin" (JObj [("usd", JNum 0)]) (Some (JNum 0)));
      [now left | reflexivity | reflexivity | reflexivity].
Defined.

(** ** Computations that cannot throw *)

Lemma total_ret {A : Type} (a : A) : total (ret a).
Proof. intros s. now exists a, s. Qed.

Lemma total_bind {A B : Type} (m : M A) (k : A -> M B) :
  total m -> (forall a, total (k a)) -> total (bind m k).
Proof.
  intros Hm Hk s. unfold bind. destruct (Hm s) as (a & s' & ->). apply Hk.
Qed.

Lemma total_tryCatch {A : Type} (m : M A) (handler : Exn -> M A) :
  (forall e, total (handler e)) -> total (tryCatch m handler).
Proof.
  intros Hh s. unfold tryCatch. destruct (m s) as [[e|a] s']; [apply Hh | eauto].
Qed.

Lemma total_caught {A B : Type} (m : M A) (handler : M B) (k : A -> M B) :
  total handler -> (forall a, total (k a)) -> total (caught m handler k).
Proof.
  intros Hh Hk s. unfold caught. destruct (m s) as [[e|a] s']; [apply Hh | apply Hk].
Qed.

Lemma total_record (ev : Event) : total (record ev).
Proof. intros s. unfold record. eauto. Qed.

Lemma total_now (env : Env) : total (now env).
Proof. intros s. unfold now. eauto. Qed.

Lemma total_newId (env : Env) : total (newId env).
Proof. intros s. unfold newId. eauto. Qed.

Lemma total_setWalletBalances (rows : list WalletBalance) : total (setWalletBalances rows).
Proof. intros s. unfold setWalletBalances. eauto. Qed.

Create HintDb total discriminated.
#[local] Hint Resolve total_ret total_bind total_tryCatch total_caught total_record
  total_now total_newId total_setWalletBalances : total.

Lemma total_getTokenPrices (env : Env) (symbols : list string) :
  total (getTokenPrices env symbols).
Proof. unfold getTokenPrices. auto with total. Qed.

Lemma total_fetchNativeBalance (env : Env) (address network : string) :
  total (fetchNativeBalance env address network).
Proof. unfold fetchNativeBalance. destruct (assoc network API_ENDPOINTS); auto with total. Qed.

Lemma total_tokenLoop (env : Env) (endpoints : list (string * string))
    (address network : string) (tokens : list (string * string)) :
  forall balances, total (tokenLoop env endpoints address network tokens balances).
Proof. induction tokens as [|token rest IH]; intros balances; cbn [tokenLoop]; auto with total. Qed.

Lemma total_fetchTokenBalances (env : Env) (address network : string) :
  total (fetchTokenBalances env address network).
Proof.
  unfold fetchTokenBalances.
  destruct (assoc network TOKEN_CONTRACTS); [|auto with total].
  destruct (assoc network API_ENDPOINTS); [apply total_tokenLoop | auto with total].
Qed.

Lemma total_fetchEVMBalance (env : Env) (address network : string) :
  total (fetchEVMBalance env address network).
Proof. unfold fetchEVMBalance. auto with total. Qed.

Lemma total_fetchTronBalance (env : Env) (address : string) :
  total (fetchTronBalance env address).
Proof.
  unfold fetchTronBalance.
  apply total_bind; [auto with total|]. intros _.
  apply total_caught; [auto with total|]. intros balances.
  apply total_caught; [auto with total|]. intros tokenResponse.
  destruct (ok tokenResponse); auto with total.
Qed.

Lemma total_upsertWalletBalance (env : Env) (b : InsertWalletBalance) :
  total (upsertWalletBalance env b).
Proof.
  intros s. unfold upsertWalletBalance.
  destruct (List.filter (matchesTriple b) (walletBalances s)); cbv beta zeta.
  - apply total_bind; [auto with total|]. intros id. auto with total.
  - apply total_bind; [auto with total|]. intros t. auto with total.
Qed.

Lemma total_saveBalances (env : Env) (walletId userId : string) (prices : gmap string JSON)
    (balances : list RawBalance) :
  forall saved, total (saveBalances env walletId userId prices balances saved).
Proof.
  induction balances as [|b rest IH]; intros saved; cbn [saveBalances].
  - auto with total.
  - apply total_bind; [apply total_upsertWalletBalance | intros row; apply IH].
Qed.

Lemma total_priceAndSave (env : Env) (walletId userId : string) (balances : list RawBalance) :
  total (priceAndSave env walletId userId balances).
Proof.
  unfold priceAndSave. apply total_bind; [apply total_getTokenPrices|].
  intros prices. apply total_saveBalances.
Qed.

(** ** The chain balance fetchers *)

(** C2 fails as stated: an exception raised after an entry was pushed leaves
    that entry in the returned list. On TRON the token request is rejected
    after the TRX balance was read; on Ethereum the first token request is
    rejected after the native balance was read. *)
Lemma fetchers_return_what_was_pushed :
  http Sample.tronHalf 1
       "https://api.trongrid.io/v1/accounts/TSt7yoNwGYRbtMMfkSAHE6dPs1cd9rxcco/tokens?type=trc20"
  = Rejected
  /\ fst (fetchTronBalance Sample.tronHalf "TSt7yoNwGYRbtMMfkSAHE6dPs1cd9rxcco"
            Sample.emptyStore)
     = inr [ {| tokenSymbol := "TRX"; balance := "1"; tokenAddress := None |} ]
  /\ http Sample.evmHalf 1
          "https://api.etherscan.io/api?module=account&action=tokenbalance&contractaddress=0xdAC17F958D2ee523a2206206994597C13D831ec7&address=0xB36EDa1ffC696FFba07D4Be5cd249FE5E0118130&tag=latest"
     = Rejected
  /\ fst (fetchEVMBalance Sample.evmHalf "0xB36EDa1ffC696FFba07D4Be5cd249FE5E0118130"
            "ethereum" Sample.emptyStore)
     = inr [ {| tokenSymbol := "ETH"; balance := "1"; tokenAddress := None |} ].
Proof. repeat split; vm_compute; reflexivity. Qed.

(** C3 fails on the EVM networks: with every explorer reporting a balance
    of "0", refreshing an Ethereum wallet returns (and stores) an ETH row
    with balance "0" instead of the empty list. fetchNativeBalance has no
    non-zero test, where fetchTokenBalances ([!== '0']) and fetchTronBalance
    ([> 0]) have one. *)
Theorem refresh_of_empty_evm_wallet_returns_a_row :
  fst (fetchAndUpdateWalletBalances Sample.zeroBalances "w1" "u1" Sample.oneWallet)
  = inr [ {| wb_id := "row-5"; wb_userId := "u1"; wb_walletId := Some "w1";
             wb_tokenSymbol := "ETH"; wb_tokenAddress := None; wb_balance := "0";
             wb_balanceUSD := None; wb_lastUpdated := Some 1700000000006 |} ]
  /\ fst (fetchNativeBalance Sample.zeroBalances
            "0xB36EDa1ffC696FFba07D4Be5cd249FE5E0118130" "ethereum" Sample.oneWallet)
     = inr (Some {| tokenSymbol := "ETH"; balance := "0"; tokenAddress := None |})
  /\ fst (fetchTokenBalances Sample.zeroBalances
            "0xB36EDa1ffC696FFba07D4Be5cd249FE5E0118130" "ethereum" Sample.oneWallet)
     = inr [].
Proof. repeat split; vm_compute; reflexivity. Qed.

(** ** The reconciler *)

Lemma insertDesc_In {A : Type} (key : A -> option Z) (a x : A) (l : list A) :
  In x (insertDesc key a l) <-> x = a \/ In x l.
Proof.
  induction l as [|b l IH]; simpl.
  - intuition.
  - destruct (descBefore (key a) (key b)); simpl; [intuition|].
    rewrite IH. intuition.
Qed.

Lemma orderByDesc_In {A : Type} (key : A -> option Z) (x : A) (l : list A) :
  In x (orderByDesc key l) <-> In x l.
Proof.
  unfold orderByDesc. induction l as [|a l IH]; simpl; [tauto|].
  rewrite insertDesc_In, IH. intuition.
Qed.

Lemma insertDesc_length {A : Type} (key : A -> option Z) (a : A) (l : list A) :
  List.length (insertDesc key a l) = S (List.length l).
Proof.
  induction l as [|b l IH]; simpl; [reflexivity|].
  destruct (descBefore (key a) (key b)); simpl; [reflexivity | now rewrite IH].
Qed.

Lemma orderByDesc_length {A : Type} (key : A -> option Z) (l : list A) :
  List.length (orderByDesc key l) = List.length l.
Proof.
  unfold orderByDesc. induction l as [|a l IH]; simpl; [reflexivity|].
  now rewrite insertDesc_length, IH.
Qed.

Lemma walletsOf_In (userId : string) (s : Store) (w : ConnectedWallet) :
  In w (walletsOf userId s) <-> In w (connectedWallets s) /\ cw_userId w = userId.
Proof. unfold walletsOf. rewrite filter_In, String.eqb_eq. tauto. Qed.

Lemma In_supported (network : string) :
  In network supported <->
  (String.eqb network "ethereum" || String.eqb network "bsc"
   || String.eqb network "polygon")%bool = true
  \/ String.eqb network "tron" = true.
Proof.
  unfold supported; simpl. rewrite !orb_true_iff, !String.eqb_eq. intuition.
Qed.

(** The switch either runs a fetcher, which returns, or throws
    "Unsupported network". *)
Lemma balancesOf_outcome (env : Env) (wallet : ConnectedWallet) (s : Store) :
  (In (cw_network wallet) supported
   /\ exists balances s', balancesOf env wallet s = (inr balances, s'))
  \/ (~ In (cw_network wallet) supported
      /\ balancesOf env wallet s
         = (inl (Error ("Unsupported network: " +:+ cw_network wallet)), s)).
Proof.
  unfold balancesOf. rewrite In_supported.
  destruct (String.eqb (cw_network wallet) "ethereum" || String.eqb (cw_network wallet) "bsc"
            || String.eqb (cw_network wallet) "polygon")%bool.
  - left. split; [now left | apply total_fetchEVMBalance].
  - destruct (String.eqb (cw_network wallet) "tron").
    + left. split; [now right | apply total_fetchTronBalance].
    + right. split; [intros [?|?]; discriminate | reflexivity].
Qed.

Lemma fetchAndUpdate_unfold (env : Env) (walletId userId : string) (s : Store) :
  fetchAndUpdateWalletBalances env walletId userId s
  = match List.find (fun w => String.eqb (cw_id w) walletId)
                    (orderByDesc cw_lastConnected (walletsOf userId s)) with
    | None => (inl (Error "Wallet not found"), entering walletId userId s)
    | Some wallet =>
        (balances <- balancesOf env wallet ;;
         priceAndSave env walletId userId balances) (entering walletId userId s)
    end.
Proof.
  unfold fetchAndUpdateWalletBalances, bind at 1 2, record, getConnectedWallets, entering, walletsOf.
  cbn [snd connectedWallets].
  destruct (List.find _ _); reflexivity.
Qed.

Lemma found_outcome (env : Env) (walletId userId : string) (wallet : ConnectedWallet)
    (s : Store) :
  (In (cw_network wallet) supported
   /\ exists rows s',
        (balances <- balancesOf env wallet ;; priceAndSave env walletId userId balances) s
        = (inr rows, s'))
  \/ (~ In (cw_network wallet) supported
      /\ (balances <- balancesOf env wallet ;; priceAndSave env walletId userId balances) s
         = (inl (Error ("Unsupported network: " +:+ cw_network wallet)), s)).
Proof.
  unfold bind.
  destruct (balancesOf_outcome env wallet s) as [[Hin (balances & s' & ->)]|[Hout ->]].
  - left. split; [exact Hin | apply total_priceAndSave].
  - right. split; [exact Hout | reflexivity].
Qed.

(** C4. fetchAndUpdateWalletBalances fails with "Wallet not found" exactly
    when no connected wallet of the requesting user has the given id; so a
    wallet id held only by other users always gives this error. *)
Theorem wallet_not_found_iff (env : Env) (walletId userId : string) (s : Store) :
  (fst (fetchAndUpdateWalletBalances env walletId userId s) = inl (Error "Wallet not found")
   <-> ~ exists w, In w (connectedWallets s) /\ cw_userId w = userId /\ cw_id w = walletId)
  /\ ((forall w, In w (connectedWallets s) -> cw_id w = walletId -> cw_userId w <> userId) ->
      fst (fetchAndUpdateWalletBalances env walletId userId s)
      = inl (Error "Wallet not found")).
Proof.
  assert (Hiff :
    fst (fetchAndUpdateWalletBalances env walletId userId s) = inl (Error "Wallet not found")
    <-> ~ exists w, In w (connectedWallets s) /\ cw_userId w = userId /\ cw_id w = walletId).
  { rewrite fetchAndUpdate_unfold.
    destruct (List.find _ _) as [wallet|] eqn:Hfind.
    - apply find_some in Hfind as [Hin Hid].
      apply orderByDesc_In, walletsOf_In in Hin as [Hin Huser].
      apply String.eqb_eq in Hid.
      split.
      + intros Hfail. exfalso.
        destruct (found_outcome env walletId userId wallet (entering walletId userId s))
          as [[_ (rows & s' & E)]|[_ E]]; rewrite E in Hfail; simpl in Hfail; discriminate.
      + intros Hnone. exfalso. apply Hnone. now exists wallet.
    - split; [|reflexivity].
      intros _ (w & Hin & Huser & Hid).
      assert (Hw : In w (orderByDesc cw_lastConnected (walletsOf userId s)))
        by (apply orderByDesc_In, walletsOf_In; now split).
      pose proof (find_none _ _ Hfind w Hw) as Hf. cbv beta in Hf.
      rewrite Hid, String.eqb_refl in Hf. discriminate. }
  split; [exact Hiff|].
  intros Hother. apply Hiff. intros (w & Hin & Huser & Hid).
  now apply (Hother w).
Qed.

Lemma wallet_not_found_iff_witness :
  fst (fetchAndUpdateWalletBalances Sample.zeroBalances "w1" "u2" Sample.oneWallet)
  = inl (Error "Wallet not found").
Proof.
  apply (wallet_not_found_iff Sample.zeroBalances "w1" "u2" Sample.oneWallet).
  intros w [<-|[]] _. simpl. discriminate.
Defined.

(** C5. Once the wallet is found, the network field decides: ethereum, bsc
    and polygon run fetchEVMBalance on the wallet's address and network,
    tron runs fetchTronBalance on the address, and every other network makes
    the call fail with "Unsupported network: <network>" before anything is
    fetched or stored. *)
Theorem dispatch_on_network (env : Env) (walletId userId : string) (s : Store)
    (wallets : list ConnectedWallet) (wallet : ConnectedWallet) :
  fst (getConnectedWallets userId s) = inr wallets ->
  List.find (fun w => String.eqb (cw_id w) walletId) wallets = Some wallet ->
  let network := cw_network wallet in
  let address := cw_walletAddress wallet in
  let s1 := entering walletId userId s in
  (In network ["ethereum"; "bsc"; "polygon"] ->
   fetchAndUpdateWalletBalances env walletId userId s
   = (balances <- fetchEVMBalance env address network ;;
      priceAndSave env walletId userId balances) s1)
  /\ (network = "tron" ->
      fetchAndUpdateWalletBalances env walletId userId s
      = (balances <- fetchTronBalance env address ;;
         priceAndSave env walletId userId balances) s1)
  /\ (~ In network ["ethereum"; "bsc"; "polygon"; "tron"] ->
      fetchAndUpdateWalletBalances env walletId userId s
      = (inl (Error ("Unsupported network: " +:+ network)), s1)).
Proof.
  intros Hwallets Hfind network address s1.
  unfold getConnectedWallets in Hwallets. cbn [fst] in Hwallets.
  injection Hwallets as <-.
  rewrite fetchAndUpdate_unfold. unfold walletsOf. rewrite Hfind. fold s1.
  change ["ethereum"; "bsc"; "polygon"; "tron"] with supported.
  repeat split.
  - intros Hin. unfold bind, balancesOf. fold network address.
    replace (String.eqb network "ethereum" || String.eqb network "bsc"
             || String.eqb network "polygon")%bool with true; [reflexivity|].
    symmetry. rewrite !orb_true_iff, !String.eqb_eq. simpl in Hin. intuition.
  - intros Htron. unfold bind, balancesOf. fold network address. rewrite Htron. reflexivity.
  - intros Hout. unfold bind.
    destruct (balancesOf_outcome env wallet s1) as [[Hin _]|[_ E]];
      [contradiction | now rewrite E].
Qed.

Lemma dispatch_on_network_witness :
  fetchAndUpdateWalletBalances Sample.zeroBalances "w9" "u1" Sample.dogeOnly
  = (inl (Error "Unsupported network: dogecoin"), entering "w9" "u1" Sample.dogeOnly).
Proof.
  refine (proj2 (proj2
            (dispatch_on_network Sample.zeroBalances "w9" "u1" Sample.dogeOnly
               [Sample.dogeWallet] Sample.dogeWallet _ _)) _).
  - reflexivity.
  - reflexivity.
  - simpl. intuition discriminate.
Defined.

(** ** Decimal conversion *)








(** ** The balance upsert *)

Lemma matchesTriple_spec (b : InsertWalletBalance) (r : WalletBalance) :
  matchesTriple b r = true <->
  wb_userId r = ib_userId b /\ wb_walletId r = Some (orEmpty (ib_walletId b))
  /\ wb_tokenSymbol r = ib_tokenSymbol b.
Proof.
  unfold matchesTriple. rewrite !andb_true_iff, !String.eqb_eq.
  destruct (wb_walletId r) as [w|].
  - rewrite String.eqb_eq. split.
    + intros [[? ->] ?]. auto.
    + intros (? & [= ->] & ?). auto.
  - split; [intros [[_ ?] _]; discriminate | intros (_ & ? & _); discriminate].
Qed.

Lemma upsert_update (env : Env) (b : InsertWalletBalance) (s : Store)
    (first : WalletBalance) (others : list WalletBalance) :
  List.filter (matchesTriple b) (walletBalances s) = first :: others ->
  let t := clock env (tick s) in
  let hit := fun r => String.eqb (wb_id r) (wb_id first) in
  let rows := List.map (fun r => if hit r then updatedRow b t r else r) (walletBalances s) in
  upsertWalletBalance env b s
  = (inr (List.hd (updatedRow b t first) (List.filter hit rows)),
     {| tick := S (tick s); trace := trace s;
        connectedWallets := connectedWallets s; walletBalances := rows |}).
Proof. intros H. unfold upsertWalletBalance. rewrite H. reflexivity. Qed.

Lemma upsert_insert (env : Env) (b : InsertWalletBalance) (s : Store) :
  List.filter (matchesTriple b) (walletBalances s) = [] ->
  let row := insertedRow b (gen_random_uuid env (tick s)) (clock env (S (tick s))) in
  upsertWalletBalance env b s
  = (inr row,
     {| tick := S (S (tick s)); trace := trace s;
        connectedWallets := connectedWallets s;
        walletBalances := walletBalances s ++ [row] |}).
Proof. intros H. unfold upsertWalletBalance. rewrite H. reflexivity. Qed.

Lemma lookup_map {A B : Type} (f : A -> B) (l : list A) (i : nat) :
  List.map f l !! i = option_map f (l !! i).
Proof.
  revert i. induction l as [|a l IH]; intros [|i]; simpl; try reflexivity. apply IH.
Qed.

Lemma oneRowPerTriple_map (f : WalletBalance -> WalletBalance) (rows : list WalletBalance) :
  (forall r, wb_userId (f r) = wb_userId r /\ wb_walletId (f r) = wb_walletId r
             /\ wb_tokenSymbol (f r) = wb_tokenSymbol r) ->
  oneRowPerTriple rows -> oneRowPerTriple (List.map f rows).
Proof.
  intros Hf Hinv i j r1 r2 H1 H2 Hw Hsame.
  rewrite lookup_map in H1, H2.
  destruct (rows !! i) as [x1|] eqn:E1; [|discriminate].
  destruct (rows !! j) as [x2|] eqn:E2; [|discriminate].
  injection H1 as <-. injection H2 as <-.
  destruct (Hf x1) as (U1 & W1 & T1), (Hf x2) as (U2 & W2 & T2).
  apply (Hinv i j x1 x2 E1 E2).
  - now rewrite <- W1.
  - unfold sameTriple in *. rewrite U1, W1, T1, U2, W2, T2 in Hsame. exact Hsame.
Qed.

Lemma filter_nil_none {A : Type} (f : A -> bool) (l : list A) :
  List.filter f l = [] -> forall x, In x l -> f x = false.
Proof.
  induction l as [|a l IH]; intros H x Hin; [destruct Hin|].
  simpl in H. destruct (f a) eqn:E; [discriminate|].
  destruct Hin as [<-|Hin]; [exact E | now apply IH].
Qed.

Lemma inserted_some (c : Column string) (w : string) :
  inserted None c = Some w -> c = Given w.
Proof. destruct c; simpl; intros H; try discriminate. now injection H as ->. Qed.

Lemma oneRowPerTriple_insert (b : InsertWalletBalance) (id : string) (t : Z)
    (rows : list WalletBalance) :
  List.filter (matchesTriple b) rows = [] ->
  oneRowPerTriple rows -> oneRowPerTriple (rows ++ [insertedRow b id t]).
Proof.
  intros Hnone Hinv.
  assert (Hfresh : forall r w, In r rows -> ib_walletId b = Given w ->
                               wb_userId r = ib_userId b -> wb_walletId r = Some w ->
                               wb_tokenSymbol r = ib_tokenSymbol b -> False).
  { intros r w Hin Hw Hu Hrw Ht.
    pose proof (filter_nil_none _ _ Hnone r Hin) as Hf.
    assert (Hm : matchesTriple b r = true).
    { apply matchesTriple_spec. rewrite Hw. auto. }
    rewrite Hm in Hf. discriminate. }
  intros i j r1 r2 H1 H2 Hw (Hu & Hw12 & Ht).
  destruct (Nat.lt_ge_cases i (List.length rows)) as [Hi|Hi];
    destruct (Nat.lt_ge_cases j (List.length rows)) as [Hj|Hj].
  - rewrite lookup_app_l in H1, H2 by assumption.
    apply (Hinv i j r1 r2 H1 H2 Hw). now repeat split.
  - exfalso. rewrite lookup_app_l in H1 by assumption.
    rewrite lookup_app_r in H2 by assumption.
    destruct (j - List.length rows)%nat; [|discriminate]. injection H2 as <-.
    destruct (wb_walletId r1) as [w|] eqn:E1; [|now apply Hw].
    simpl in Hu, Hw12, Ht. symmetry in Hw12. apply inserted_some in Hw12.
    apply (Hfresh r1 w); auto.
    apply list_elem_of_In, list_elem_of_lookup. eauto.
  - exfalso. rewrite lookup_app_r in H1 by assumption.
    rewrite lookup_app_l in H2 by assumption.
    destruct (i - List.length rows)%nat; [|discriminate]. injection H1 as <-.
    simpl in Hu, Hw12, Ht, Hw.
    destruct (inserted None (ib_walletId b)) as [w|] eqn:E1; [|now apply Hw].
    apply inserted_some in E1.
    apply (Hfresh r2 w); auto.
    apply list_elem_of_In, list_elem_of_lookup. eauto.
  - rewrite lookup_app_r in H1, H2 by assumption.
    assert (i - List.length rows = 0)%nat
      by (destruct (i - List.length rows)%nat; [reflexivity | discriminate]).
    assert (j - List.length rows = 0)%nat
      by (destruct (j - List.length rows)%nat; [reflexivity | discriminate]).
    lia.
Qed.

Lemma upsert_preserves (env : Env) (b : InsertWalletBalance) (s : Store) :
  oneRowPerTriple (walletBalances s) ->
  oneRowPerTriple (walletBalances (snd (upsertWalletBalance env b s))).
Proof.
  intros Hinv.
  destruct (List.filter (matchesTriple b) (walletBalances s)) as [|first others] eqn:E.
  - rewrite (upsert_insert env b s E). cbn [snd walletBalances].
    now apply oneRowPerTriple_insert.
  - rewrite (upsert_update env b s first others E). cbn [snd walletBalances].
    apply oneRowPerTriple_map; [|exact Hinv].
    intros r. destruct (String.eqb (wb_id r) (wb_id first)); auto.
Qed.


(** Under the primary key, updating by id touches the one row. *)
Lemma update_by_id (f : WalletBalance -> WalletBalance) (rows : list WalletBalance) :
  forall (i : nat) (r : WalletBalance),
    NoDup (List.map wb_id rows) -> rows !! i = Some r ->
    let hit := fun x => String.eqb (wb_id x) (wb_id r) in
    (forall x, wb_id (f x) = wb_id x) ->
    List.map (fun x => if hit x then f x else x) rows = <[i := f r]> rows
    /\ List.filter hit (List.map (fun x => if hit x then f x else x) rows) = [f r].
Proof.
  intros i r Hnd Hi hit Hid.
  assert (Hfar : forall l, ~ In (wb_id r) (List.map wb_id l) ->
             List.map (fun x => if hit x then f x else x) l = l
             /\ List.filter hit (List.map (fun x => if hit x then f x else x) l) = []).
  { induction l as [|a l IHl]; intros Hnot; [now split|].
    assert (Ha : hit a = false).
    { unfold hit. apply String.eqb_neq. intros E. apply Hnot. left. exact E. }
    destruct IHl as [IH1 IH2]; [intros ?; apply Hnot; now right|].
    cbn [List.map List.filter]. rewrite Ha, IH1. cbn [List.filter]. rewrite Ha.
    rewrite IH1 in IH2. now split. }
  revert i Hi. induction rows as [|a rows IH]; intros i Hi; [discriminate|].
  cbn [List.map] in Hnd. apply NoDup_cons in Hnd as [Hfresh Hnd].
  rewrite list_elem_of_In in Hfresh.
  destruct i as [|i]; cbn [List.map].
  - injection Hi as ->.
    assert (Hr : hit r = true) by apply String.eqb_refl.
    destruct (Hfar rows Hfresh) as [F1 F2].
    rewrite F1 in F2. rewrite Hr, F1. cbn [List.filter].
    replace (hit (f r)) with true by (unfold hit; rewrite Hid; symmetry; apply String.eqb_refl).
    rewrite F2. now split.
  - assert (Hin : In (wb_id r) (List.map wb_id rows)).
    { apply in_map, list_elem_of_In, list_elem_of_lookup. eauto. }
    assert (Ha : hit a = false).
    { unfold hit. apply String.eqb_neq. intros E. apply Hfresh. now rewrite E. }
    destruct (IH Hnd i Hi) as [IH1 IH2].
    rewrite IH1 in IH2. rewrite Ha. cbn [List.filter]. rewrite Ha. cbn. rewrite IH1. now split.
Qed.




(** ** The bootstrapper *)

Lemma reconcilerCalls_app (l1 l2 : list Event) :
  reconcilerCalls (l1 ++ l2) = reconcilerCalls l1 ++ reconcilerCalls l2.
Proof.
  induction l1 as [|[url|fn args] l1 IH]; simpl; [reflexivity | exact IH |].
  destruct (String.eqb fn "fetchAndUpdateWalletBalances"); simpl; now rewrite IH.
Qed.

Lemma quiet_here {A : Type} (m : M A) :
  (forall s, connectedWallets (snd (m s)) = connectedWallets s
             /\ trace (snd (m s)) = trace s) ->
  quiet m.
Proof.
  intros H s. destruct (H s) as [Hc Ht]. split; [exact Hc|].
  exists []. now rewrite app_nil_r.
Qed.

Lemma quiet_ret {A : Type} (a : A) : quiet (ret a).
Proof. now apply quiet_here. Qed.

Lemma quiet_throw {A : Type} (e : Exn) : quiet (@throw A e).
Proof. now apply quiet_here. Qed.

Lemma quiet_lift {A : Type} (r : Except A) : quiet (lift r).
Proof. now apply quiet_here. Qed.

Lemma quiet_now (env : Env) : quiet (now env).
Proof. now apply quiet_here. Qed.

Lemma quiet_newId (env : Env) : quiet (newId env).
Proof. now apply quiet_here. Qed.

Lemma quiet_json (r : Response) : quiet (json r).
Proof. unfold json. destruct (body r); [apply quiet_ret | apply quiet_throw]. Qed.

Lemma quiet_setWalletBalances (rows : list WalletBalance) : quiet (setWalletBalances rows).
Proof. now apply quiet_here. Qed.

Lemma quiet_fetch (env : Env) (url : string) : quiet (fetch env url).
Proof.
  intros s. unfold fetch. destruct (http env (tick s) url); cbn [snd connectedWallets trace];
    (split; [reflexivity | exists [Requested url]; now split]).
Qed.

Lemma quiet_record (fn : string) (args : list string) :
  String.eqb fn "fetchAndUpdateWalletBalances" = false -> quiet (record (Entered fn args)).
Proof.
  intros Hfn s. unfold record. cbn [snd connectedWallets trace].
  split; [reflexivity|]. exists [Entered fn args]. split; [reflexivity|].
  simpl. now rewrite Hfn.
Qed.

Lemma quiet_steps {A B : Type} (m : M A) (next : Except A -> M B) :
  quiet m -> (forall r, quiet (next r)) ->
  quiet (fun s => next (fst (m s)) (snd (m s))).
Proof.
  intros Hm Hnext s. cbv beta.
  destruct (Hm s) as [Hc1 (evs1 & Ht1 & Hr1)].
  destruct (Hnext (fst (m s)) (snd (m s))) as [Hc2 (evs2 & Ht2 & Hr2)].
  split; [now rewrite Hc2|].
  exists (evs1 ++ evs2). split.
  - now rewrite Ht2, Ht1, app_assoc.
  - now rewrite reconcilerCalls_app, Hr1, Hr2.
Qed.

Lemma quiet_ext {A : Type} (m m' : M A) : (forall s, m s = m' s) -> quiet m' -> quiet m.
Proof. intros E H s. rewrite E. apply H. Qed.

Lemma quiet_bind {A B : Type} (m : M A) (k : A -> M B) :
  quiet m -> (forall a, quiet (k a)) -> quiet (bind m k).
Proof.
  intros Hm Hk.
  apply quiet_ext with
    (m' := fun s => (fun r => match r with inl e => throw e | inr a => k a end)
                      (fst (m s)) (snd (m s))).
  - intros s. unfold bind, throw. now destruct (m s) as [[e|a] s'].
  - apply (quiet_steps m (fun r => match r with inl e => throw e | inr a => k a end));
      [exact Hm|]. intros [e|a]; [apply quiet_throw | apply Hk].
Qed.

Lemma quiet_tryCatch {A : Type} (m : M A) (handler : Exn -> M A) :
  quiet m -> (forall e, quiet (handler e)) -> quiet (tryCatch m handler).
Proof.
  intros Hm Hh.
  apply quiet_ext with
    (m' := fun s => (fun r => match r with inl e => handler e | inr a => ret a end)
                      (fst (m s)) (snd (m s))).
  - intros s. unfold tryCatch, ret. now destruct (m s) as [[e|a] s'].
  - apply (quiet_steps m (fun r => match r with inl e => handler e | inr a => ret a end));
      [exact Hm|]. intros [e|a]; [apply Hh | apply quiet_ret].
Qed.

Lemma quiet_caught {A B : Type} (m : M A) (handler : M B) (k : A -> M B) :
  quiet m -> quiet handler -> (forall a, quiet (k a)) -> quiet (caught m handler k).
Proof.
  intros Hm Hh Hk.
  apply quiet_ext with
    (m' := fun s => (fun r => match r with inl _ => handler | inr a => k a end)
                      (fst (m s)) (snd (m s))).
  - intros s. unfold caught. now destruct (m s) as [[e|a] s'].
  - apply (quiet_steps m (fun r => match r with inl _ => handler | inr a => k a end));
      [exact Hm|]. intros [e|a]; [apply Hh | apply Hk].
Qed.

Create HintDb quiet discriminated.
#[local] Hint Resolve quiet_ret quiet_throw quiet_lift quiet_now quiet_newId quiet_json
  quiet_setWalletBalances quiet_fetch quiet_bind quiet_tryCatch quiet_caught : quiet.

Lemma quiet_getTokenPrices (env : Env) (symbols : list string) :
  quiet (getTokenPrices env symbols).
Proof.
  unfold getTokenPrices. apply quiet_tryCatch; [|auto with quiet].
  apply quiet_bind; [auto with quiet|]. intros response.
  destruct (negb (ok response)); auto with quiet.
Qed.

Lemma quiet_fetchNativeBalance (env : Env) (address network : string) :
  quiet (fetchNativeBalance env address network).
Proof.
  unfold fetchNativeBalance. destruct (assoc network API_ENDPOINTS); [|auto with quiet].
  apply quiet_tryCatch; [|auto with quiet].
  destruct (nativeRequest _ _ _) as [[apiUrl nativeSymbol]|]; [|auto with quiet].
  apply quiet_bind; [auto with quiet|]. intros response.
  destruct (negb (ok response)); auto with quiet.
Qed.

Lemma quiet_tokenTurn (env : Env) (endpoints : list (string * string))
    (address network : string) (token : string * string) :
  quiet (tokenTurn env endpoints address network token).
Proof.
  unfold tokenTurn. destruct token as [symbol contractAddress].
  destruct (tokenRequest _ _ _ _); [|auto with quiet].
  apply quiet_bind; [auto with quiet|]. intros response.
  destruct (negb (ok response)); auto with quiet.
Qed.

Lemma quiet_tokenLoop (env : Env) (endpoints : list (string * string))
    (address network : string) (tokens : list (string * string)) :
  forall balances, quiet (tokenLoop env endpoints address network tokens balances).
Proof.
  induction tokens as [|token rest IH]; intros balances; cbn [tokenLoop].
  - auto with quiet.
  - apply quiet_caught; [apply quiet_tokenTurn | auto with quiet | intros o; apply IH].
Qed.

Lemma quiet_fetchTokenBalances (env : Env) (address network : string) :
  quiet (fetchTokenBalances env address network).
Proof.
  unfold fetchTokenBalances.
  destruct (assoc network TOKEN_CONTRACTS); [|auto with quiet].
  destruct (assoc network API_ENDPOINTS); [apply quiet_tokenLoop | auto with quiet].
Qed.

Lemma quiet_fetchEVMBalance (env : Env) (address network : string) :
  quiet (fetchEVMBalance env address network).
Proof.
  unfold fetchEVMBalance. apply quiet_bind; [now apply quiet_record|]. intros _.
  apply quiet_tryCatch; [|auto with quiet].
  apply quiet_bind; [apply quiet_fetchNativeBalance|]. intros nativeBalance.
  apply quiet_bind; [apply quiet_fetchTokenBalances|]. auto with quiet.
Qed.

Lemma quiet_fetchTronBalance (env : Env) (address : string) :
  quiet (fetchTronBalance env address).
Proof.
  unfold fetchTronBalance. apply quiet_bind; [now apply quiet_record|]. intros _.
  apply quiet_caught; [|auto with quiet|].
  - unfold tronAccount. apply quiet_bind; [auto with quiet|]. intros response.
    destruct (ok response); auto with quiet.
  - intros balances. apply quiet_caught; [auto with quiet | auto with quiet |].
    intros tokenResponse. destruct (ok tokenResponse); auto with quiet.
Qed.

Lemma quiet_balancesOf (env : Env) (wallet : ConnectedWallet) : quiet (balancesOf env wallet).
Proof.
  unfold balancesOf.
  destruct (_ || _ || _)%bool; [apply quiet_fetchEVMBalance|].
  destruct (String.eqb _ _); [apply quiet_fetchTronBalance | auto with quiet].
Qed.

Lemma quiet_upsertWalletBalance (env : Env) (b : InsertWalletBalance) :
  quiet (upsertWalletBalance env b).
Proof.
  intros s.
  destruct (List.filter (matchesTriple b) (walletBalances s)) as [|first others] eqn:E.
  - rewrite (upsert_insert env b s E). cbn [snd connectedWallets trace].
    split; [reflexivity|]. exists []. now rewrite app_nil_r.
  - rewrite (upsert_update env b s first others E). cbn [snd connectedWallets trace].
    split; [reflexivity|]. exists []. now rewrite app_nil_r.
Qed.

Lemma quiet_saveBalances (env : Env) (walletId userId : string) (prices : gmap string JSON)
    (balances : list RawBalance) :
  forall saved, quiet (saveBalances env walletId userId prices balances saved).
Proof.
  induction balances as [|b rest IH]; intros saved; cbn [saveBalances].
  - auto with quiet.
  - apply quiet_bind; [apply quiet_upsertWalletBalance | intros row; apply IH].
Qed.

Lemma quiet_priceAndSave (env : Env) (walletId userId : string) (balances : list RawBalance) :
  quiet (priceAndSave env walletId userId balances).
Proof.
  unfold priceAndSave. apply quiet_bind; [apply quiet_getTokenPrices|].
  intros prices. apply quiet_saveBalances.
Qed.

(** A run of the reconciler leaves connected_wallets alone and is recorded
    once, with its arguments. *)
Lemma fetchAndUpdate_frame (env : Env) (walletId userId : string) (s : Store) :
  connectedWallets (snd (fetchAndUpdateWalletBalances env walletId userId s))
  = connectedWallets s
  /\ reconcilerCalls (trace (snd (fetchAndUpdateWalletBalances env walletId userId s)))
     = reconcilerCalls (trace s) ++ [[walletId; userId]].
Proof.
  rewrite fetchAndUpdate_unfold.
  assert (He : connectedWallets (entering walletId userId s) = connectedWallets s
               /\ reconcilerCalls (trace (entering walletId userId s))
                  = reconcilerCalls (trace s) ++ [[walletId; userId]]).
  { unfold entering, record. cbn [snd connectedWallets trace].
    now rewrite reconcilerCalls_app. }
  destruct He as [Hc Ht].
  destruct (List.find _ _) as [wallet|]; [|now split].
  assert (Hq : quiet (balances <- balancesOf env wallet ;;
                      priceAndSave env walletId userId balances)).
  { apply quiet_bind; [apply quiet_balancesOf | intros l; apply quiet_priceAndSave]. }
  destruct (Hq (entering walletId userId s)) as [Hc' (evs & Ht' & Hr)].
  split; [now rewrite Hc'|].
  now rewrite Ht', reconcilerCalls_app, Hr, app_nil_r.
Qed.

(** One turn of the seeding loop: one new row, and a reconciler call for it
    when its network is fetchable. *)
Lemma seedWallet_spec (env : Env) (userId : string) (wallet : PredefinedWallet) (s : Store) :
  exists s' w,
    seedWallet env userId wallet s = (inr tt, s')
    /\ connectedWallets s' = connectedWallets s ++ [w]
    /\ cw_userId w = userId /\ cw_network w = pw_network wallet
    /\ cw_walletAddress w = pw_address wallet /\ cw_walletType w = pw_walletType wallet
    /\ cw_chainId w = "1" /\ cw_isActive w = Some true
    /\ reconcilerCalls (trace s')
       = reconcilerCalls (trace s)
         ++ (if fetchable (pw_network wallet) then [[cw_id w; userId]] else []).
Proof.
  unfold seedWallet, tryCatch, bind at 1 2, now, createConnectedWallet, bind at 1 2, newId, now.
  cbn [advance tick trace connectedWallets walletBalances inserted].
  destruct (fetchable (pw_network wallet)).
  - unfold bind, ret.
    match goal with |- context [fetchAndUpdateWalletBalances env ?i ?u ?st] =>
      destruct (fetchAndUpdate_frame env i u st) as [Hc Ht];
      destruct (fetchAndUpdateWalletBalances env i u st) as [[e|rows] s'] end;
      cbn [snd connectedWallets trace cw_id] in Hc, Ht;
      eexists _, _; (split; [reflexivity|]); (split; [exact Hc|]);
      cbn [cw_userId cw_network cw_walletAddress cw_walletType cw_chainId cw_isActive cw_id];
      repeat (split; [reflexivity|]); exact Ht.
  - unfold ret. eexists _, _. split; [reflexivity|].
    cbn [connectedWallets trace cw_userId cw_network cw_walletAddress cw_walletType
         cw_chainId cw_isActive].
    repeat (split; [reflexivity|]). now rewrite app_nil_r.
Qed.

Lemma walletsOf_empty_length (userId : string) (s : Store) :
  (List.length (orderByDesc cw_lastConnected (walletsOf userId s)) =? 0)%nat = true
  <-> walletsOf userId s = [].
Proof.
  rewrite orderByDesc_length, Nat.eqb_eq. destruct (walletsOf userId s); simpl; split;
    intros H; try reflexivity; discriminate.
Qed.

(** C6. initializeWalletWithAddresses creates wallet connections exactly
    when the user has none. With at least one connected wallet, whatever its
    network, the call changes nothing. With none, it appends the four
    predefined wallets - ethereum, bitcoin, bsc, tron, in this order - and
    calls the reconciler once for each new wallet whose network is among
    ethereum, bsc, polygon, tron: the ethereum, bsc and tron ones. *)
Theorem bootstrap_seeds_only_empty_users (env : Env) (userId : string) (s : Store) :
  (walletsOf userId s <> [] -> initializeWalletWithAddresses env userId s = (inr tt, s))
  /\ (walletsOf userId s = [] ->
      exists s' w1 w2 w3 w4,
        initializeWalletWithAddresses env userId s = (inr tt, s')
        /\ connectedWallets s' = connectedWallets s ++ [w1; w2; w3; w4]
        /\ List.map (fun w => (cw_userId w, cw_network w, cw_walletAddress w)) [w1; w2; w3; w4]
           = [ (userId, "ethereum", "0xB36EDa1ffC696FFba07D4Be5cd249FE5E0118130");
               (userId, "bitcoin", "bc1qv4fffwt8ux3k33n2dms5cdvuh6suc0gtfevxzu");
               (userId, "bsc", "0xB36EDa1ffC696FFba07D4Be5cd249FE5E0118130");
               (userId, "tron", "TSt7yoNwGYRbtMMfkSAHE6dPs1cd9rxcco") ]
        /\ reconcilerCalls (trace s')
           = reconcilerCalls (trace s)
             ++ [ [cw_id w1; userId]; [cw_id w3; userId]; [cw_id w4; userId] ])
  /\ (forall network,
         fetchable network = true <-> In network ["ethereum"; "bsc"; "polygon"; "tron"]).
Proof.
  split; [|split].
  - intros Hsome.
    unfold initializeWalletWithAddresses, tryCatch, bind, getConnectedWallets.
    fold (walletsOf userId s).
    destruct (List.length _ =? 0)%nat eqn:E; [|reflexivity].
    apply walletsOf_empty_length in E. contradiction.
  - intros Hnone.
    unfold initializeWalletWithAddresses, tryCatch, bind at 1, getConnectedWallets.
    fold (walletsOf userId s).
    rewrite (proj2 (walletsOf_empty_length userId s) Hnone).
    unfold predefinedWallets. cbn [seedWallets]. unfold bind.
    destruct (seedWallet_spec env userId
                {| pw_address := "0xB36EDa1ffC696FFba07D4Be5cd249FE5E0118130";
                   pw_network := "ethereum"; pw_walletType := "manual";
                   pw_description := "ETH Wallet" |} s)
      as (s1 & w1 & -> & R1 & U1 & N1 & A1 & _ & _ & _ & T1).
    destruct (seedWallet_spec env userId
                {| pw_address := "bc1qv4fffwt8ux3k33n2dms5cdvuh6suc0gtfevxzu";
                   pw_network := "bitcoin"; pw_walletType := "manual";
                   pw_description := "BTC Wallet" |} s1)
      as (s2 & w2 & -> & R2 & U2 & N2 & A2 & _ & _ & _ & T2).
    destruct (seedWallet_spec env userId
                {| pw_address := "0xB36EDa1ffC696FFba07D4Be5cd249FE5E0118130";
                   pw_network := "bsc"; pw_walletType := "manual";
                   pw_description := "BNB Wallet" |} s2)
      as (s3 & w3 & -> & R3 & U3 & N3 & A3 & _ & _ & _ & T3).
    destruct (seedWallet_spec env userId
                {| pw_address := "TSt7yoNwGYRbtMMfkSAHE6dPs1cd9rxcco";
                   pw_network := "tron"; pw_walletType := "manual";
                   pw_description := "USDT-TRON Wallet" |} s3)
      as (s4 & w4 & -> & R4 & U4 & N4 & A4 & _ & _ & _ & T4).
    cbn [pw_network pw_address] in *.
    exists s4, w1, w2, w3, w4. split; [reflexivity|]. split; [|split].
    + rewrite R4, R3, R2, R1, <- !app_assoc. reflexivity.
    + cbn [List.map]. now rewrite U1, U2, U3, U4, N1, N2, N3, N4, A1, A2, A3, A4.
    + rewrite T4, T3, T2, T1.
      change (fetchable "ethereum") with true. change (fetchable "bitcoin") with false.
      change (fetchable "bsc") with true. change (fetchable "tron") with true.
      rewrite app_nil_r, <- !app_assoc. reflexivity.
  - intros network. unfold fetchable. cbn [existsb In].
    rewrite !orb_true_iff, !String.eqb_eq. intuition (try discriminate; auto).
Qed.

Lemma bootstrap_seeds_only_empty_users_witness :
  initializeWalletWithAddresses Sample.zeroBalances "u1" Sample.dogeOnly
  = (inr tt, Sample.dogeOnly)
  /\ exists s' w1 w2 w3 w4,
       initializeWalletWithAddresses Sample.zeroBalances "u1" Sample.emptyStore = (inr tt, s')
       /\ connectedWallets s' = [w1; w2; w3; w4]
       /\ reconcilerCalls (trace s') = [ [cw_id w1; "u1"]; [cw_id w3; "u1"]; [cw_id w4; "u1"] ].
Proof.
  destruct (bootstrap_seeds_only_empty_users Sample.zeroBalances "u1" Sample.dogeOnly)
    as (Hkeep & _ & _).
  destruct (bootstrap_seeds_only_empty_users Sample.zeroBalances "u1" Sample.emptyStore)
    as (_ & Hseed & _).
  split.
  - apply Hkeep. discriminate.
  - destruct (Hseed eq_refl) as (s' & w1 & w2 & w3 & w4 & E & C & _ & T).
    exists s', w1, w2, w3, w4. repeat split; assumption.
Defined.

(** * Further properties *)

(** ** Price oracle and fetchers *)

(** X1. getTokenPrices answers the empty mapping whenever the price request
    fails: the request is rejected, the status is outside 200-299, the body
    is not JSON, or the body is the JSON value null. *)
Theorem getTokenPrices_empty_on_failure (env : Env) (symbols : list string) (s : Store) :
  (http env (tick s) (priceUrl symbols) = Rejected
   \/ exists st b,
        http env (tick s) (priceUrl symbols) = Answered st b
        /\ (ok {| status := st; body := b |} = false \/ b = None \/ b = Some JNull)) ->
  fst (getTokenPrices env symbols s) = inr ∅.
Proof.
  intros H.
  unfold getTokenPrices, tryCatch, bind, fetch, json, lift, throw, ret.
  destruct H as [->|(st & b & -> & H)]; [reflexivity|].
  destruct (ok {| status := st; body := b |}) eqn:Hok; cbn [negb]; [|reflexivity].
  destruct H as [H|[->| ->]]; [discriminate | reflexivity | reflexivity].
Qed.

Lemma getTokenPrices_empty_on_failure_witness :
  fst (getTokenPrices (Sample.world (fun _ _ => Answered 503 (Some Sample.quotes)))
         ["BTC"; "ETH"] Sample.emptyStore) = inr ∅.
Proof.
  apply getTokenPrices_empty_on_failure.
  right. exists 503%N, (Some Sample.quotes). split; [reflexivity|]. left. reflexivity.
Defined.

Lemma assoc_other {A : Type} (key : string) (l : list (string * A)) :
  ~ In key (List.map fst l) -> assoc key l = None.
Proof.
  induction l as [|[k v] l IH]; intros Hnot; [reflexivity|]. cbn [assoc].
  destruct (String.eqb_spec k key) as [->|Hne].
  - exfalso. apply Hnot. now left.
  - apply IH. intros Hin. apply Hnot. now right.
Qed.

(** X2. Asked for a network other than ethereum, bsc or polygon,
    fetchEVMBalance returns the empty list without sending any request. *)
Theorem fetchEVMBalance_other_network (env : Env) (address network : string) (s : Store) :
  ~ In network ["ethereum"; "bsc"; "polygon"] ->
  fst (fetchEVMBalance env address network s) = inr []
  /\ requests (trace (snd (fetchEVMBalance env address network s))) = requests (trace s)
  /\ tick (snd (fetchEVMBalance env address network s)) = tick s
  /\ walletBalances (snd (fetchEVMBalance env address network s)) = walletBalances s.
Proof.
  intros Hnot.
  assert (He : String.eqb network "ethereum" = false)
    by (apply String.eqb_neq; intros ->; apply Hnot; simpl; auto).
  assert (Hb : String.eqb network "bsc" = false)
    by (apply String.eqb_neq; intros ->; apply Hnot; simpl; auto).
  assert (Hp : String.eqb network "polygon" = false)
    by (apply String.eqb_neq; intros ->; apply Hnot; simpl; auto).
  assert (Htokens : fetchTokenBalances env address network = ret []).
  { unfold fetchTokenBalances. rewrite assoc_other; [reflexivity|].
    simpl. intros [<-|[<-|[<-|[]]]]; apply Hnot; simpl; auto. }
  assert (Hnative : fetchNativeBalance env address network = ret None).
  { unfold fetchNativeBalance. destruct (assoc network API_ENDPOINTS); [|reflexivity].
    unfold nativeRequest. rewrite He, Hb, Hp. reflexivity. }
  unfold fetchEVMBalance. rewrite Hnative, Htokens.
  unfold bind, record, tryCatch, ret. cbn [fst snd trace tick walletBalances pushed app].
  repeat split.
  induction (trace s) as [|[url|fn args] evs IH]; simpl; [reflexivity | now rewrite IH | exact IH].
Qed.

Lemma fetchEVMBalance_other_network_witness :
  fst (fetchEVMBalance Sample.funded "TSt7yoNwGYRbtMMfkSAHE6dPs1cd9rxcco" "tron"
         Sample.emptyStore) = inr [].
Proof.
  apply fetchEVMBalance_other_network. simpl. intuition discriminate.
Defined.

Lemma nativeEntry_key (env : Env) (nativeSymbol : string) (data : Value) (b : RawBalance) :
  nativeEntry env nativeSymbol data = inr (Some b) -> entryKey b = (nativeSymbol, None).
Proof.
  unfold nativeEntry. destruct (get data "status") as [e|st]; [discriminate|].
  destruct (strictEqualsString st "1"); [|discriminate].
  destruct (get data "result") as [e|result]; [discriminate|].
  destruct (truthy result); [|discriminate]. now intros [= <-].
Qed.

Lemma fetchNativeBalance_key (env : Env) (address network : string) (s : Store)
    (b : RawBalance) :
  fst (fetchNativeBalance env address network s) = inr (Some b) ->
  exists sym, nativeSymbolOf network = Some sym /\ entryKey b = (sym, None).
Proof.
  unfold fetchNativeBalance, nativeSymbolOf.
  destruct (assoc network API_ENDPOINTS) as [endpoints|]; [|discriminate].
  unfold tryCatch, nativeRequest.
  destruct (String.eqb network "ethereum"); [|destruct (String.eqb network "bsc");
    [|destruct (String.eqb network "polygon"); [|discriminate]]];
    unfold bind, fetch; destruct (http env (tick s) _) as [|st bd]; try discriminate;
    (destruct (negb (ok _)); [discriminate|]);
    unfold json; cbn [body]; (destruct bd as [j|]; [|discriminate]);
    unfold ret, lift; cbn [fst];
    (destruct (nativeEntry env _ (Some j)) as [e|[b'|]] eqn:E; try discriminate);
    intros [= <-]; eexists; (split; [reflexivity|]); exact (nativeEntry_key _ _ _ _ E).
Qed.

Lemma tokenTurn_key (env : Env) (endpoints : list (string * string))
    (address network : string) (token : string * string) (s : Store) (b : RawBalance) :
  fst (tokenTurn env endpoints address network token s) = inr (Some b) ->
  entryKey b = (fst token, Some (snd token)).
Proof.
  unfold tokenTurn. destruct token as [symbol contractAddress].
  destruct (tokenRequest _ _ _ _) as [apiUrl|]; [|discriminate].
  unfold bind, fetch. destruct (http env (tick s) apiUrl) as [|st bd]; [discriminate|].
  destruct (negb (ok _)); [discriminate|].
  unfold json; cbn [body]. destruct bd as [j|]; [|discriminate].
  unfold ret, lift, tokenEntry; cbn [fst].
  destruct (get (Some j) "status") as [e|stv]; [discriminate|].
  destruct (strictEqualsString stv "1"); [|discriminate].
  destruct (get (Some j) "result") as [e|result]; [discriminate|].
  destruct (truthy result && negb (strictEqualsString result "0")); [|discriminate].
  now intros [= <-].
Qed.

Lemma tokenLoop_keys (env : Env) (endpoints : list (string * string))
    (address network : string) (tokens : list (string * string)) :
  forall balances s, exists more,
    fst (tokenLoop env endpoints address network tokens balances s) = inr (balances ++ more)
    /\ sublist (List.map entryKey more)
               (List.map (fun token => (fst token, Some (snd token))) tokens).
Proof.
  induction tokens as [|token rest IH]; intros balances s; cbn [tokenLoop List.map].
  - exists []. unfold ret. cbn [fst]. rewrite app_nil_r. split; [reflexivity | constructor].
  - unfold caught.
    pose proof (tokenTurn_key env endpoints address network token s) as Hkey.
    destruct (tokenTurn env endpoints address network token s) as [[e|[b|]] s'].
    + exists []. unfold ret. cbn [fst]. rewrite app_nil_r.
      split; [reflexivity | apply sublist_nil_l].
    + destruct (IH (pushed balances (Some b)) s') as (more & E & Hsub).
      exists (b :: more). split.
      * rewrite E. cbn [pushed]. now rewrite <- app_assoc.
      * cbn [List.map]. rewrite (Hkey b eq_refl). now apply sublist_skip.
    + destruct (IH (pushed balances None) s') as (more & E & Hsub).
      exists more. split; [exact E | now apply sublist_cons].
Qed.

Lemma catalogue_NoDup (network : string) :
  NoDup (List.map fst (catalogue network)) /\ (List.length (catalogue network) <= 4)%nat.
Proof.
  unfold catalogue, nativeSymbolOf, nativeRequest.
  destruct (String.eqb_spec network "ethereum") as [->|He].
  { cbn. split; [|lia]. repeat (constructor; [rewrite list_elem_of_In; simpl; intuition discriminate|]).
    constructor. }
  destruct (String.eqb_spec network "bsc") as [->|Hb].
  { cbn. split; [|lia]. repeat (constructor; [rewrite list_elem_of_In; simpl; intuition discriminate|]).
    constructor. }
  destruct (String.eqb_spec network "polygon") as [->|Hp].
  { cbn. split; [|lia]. repeat (constructor; [rewrite list_elem_of_In; simpl; intuition discriminate|]).
    constructor. }
  rewrite assoc_other.
  - cbn. split; [constructor | lia].
  - simpl. intros [E|[E|[E|[]]]]; congruence.
Qed.

(** X3. Whatever the explorers answer, fetchEVMBalance returns a
    sub-sequence of the network's catalogue - the native coin (without
    contract address), then the tokens of TOKEN_CONTRACTS with their
    contract addresses, in table order. So it returns at most four entries
    and no token symbol twice. *)
Theorem fetchEVMBalance_within_catalogue (env : Env) (address network : string) (s : Store) :
  exists balances s',
    fetchEVMBalance env address network s = (inr balances, s')
    /\ sublist (List.map entryKey balances) (catalogue network)
    /\ NoDup (List.map tokenSymbol balances)
    /\ (List.length balances <= 4)%nat.
Proof.
  assert (Hmain : exists balances s',
             fetchEVMBalance env address network s = (inr balances, s')
             /\ sublist (List.map entryKey balances) (catalogue network)).
  { unfold fetchEVMBalance, bind at 1, record, tryCatch, bind at 1.
    match goal with |- context [fetchNativeBalance env address network ?st] =>
      pose proof (fetchNativeBalance_key env address network st) as Hn;
      destruct (total_fetchNativeBalance env address network st) as (native & s1 & E1) end.
    rewrite E1 in Hn |- *. cbn [fst] in Hn. unfold bind, fetchTokenBalances, catalogue.
    assert (Hnat : sublist (List.map entryKey (pushed [] native))
                     match nativeSymbolOf network with
                     | Some sym => [(sym, None)]
                     | None => []
                     end).
    { destruct native as [b|]; cbn [pushed app List.map]; [|apply sublist_nil_l].
      destruct (Hn b eq_refl) as (sym & -> & ->). reflexivity. }
    destruct (assoc network TOKEN_CONTRACTS) as [tokens|]; cbn [default].
    - destruct (assoc network API_ENDPOINTS) as [endpoints|].
      + destruct (tokenLoop_keys env endpoints address network tokens [] s1)
          as (more & E & Hsub).
        destruct (tokenLoop env endpoints address network tokens [] s1) as [r s2].
        cbn [fst] in E. subst r. unfold ret. eexists _, _. split; [reflexivity|].
        cbn [app]. rewrite List.map_app. now apply sublist_app.
      + unfold ret. eexists _, _. split; [reflexivity|].
        rewrite app_nil_r. apply sublist_inserts_r. exact Hnat.
    - unfold ret. eexists _, _. split; [reflexivity|].
      rewrite app_nil_r. cbn [List.map]. rewrite app_nil_r. exact Hnat. }
  destruct Hmain as (balances & s' & E & Hsub).
  destruct (catalogue_NoDup network) as [Hnd Hlen].
  exists balances, s'. split; [exact E|]. split; [exact Hsub|]. split.
  - assert (Hs : sublist (List.map tokenSymbol balances) (List.map fst (catalogue network))).
    { replace (List.map tokenSymbol balances) with (List.map fst (List.map entryKey balances))
        by (rewrite List.map_map; reflexivity).
      clear -Hsub. induction Hsub; cbn [List.map]; constructor; assumption. }
    eapply sublist_NoDup; eassumption.
  - apply sublist_length in Hsub. rewrite List.length_map in Hsub. lia.
Qed.

(** X4. A refresh that fails with "Wallet not found" or with "Unsupported
    network: <network>" has had no effect: the two tables are as before, no
    request was sent and no tick of the world was used. The first error
    means that the user has no wallet with that id, the second names the
    network of the user's wallet with that id, which is none of ethereum,
    bsc, polygon, tron. *)
Theorem failed_refresh_changes_nothing (env : Env) (walletId userId : string) (s : Store)
    (e : Exn) :
  fst (fetchAndUpdateWalletBalances env walletId userId s) = inl e ->
  (e = Error "Wallet not found"
   \/ exists network, e = Error ("Unsupported network: " +:+ network)) ->
  let s' := snd (fetchAndUpdateWalletBalances env walletId userId s) in
  walletBalances s' = walletBalances s
  /\ connectedWallets s' = connectedWallets s
  /\ tick s' = tick s
  /\ requests (trace s') = requests (trace s)
  /\ (e = Error "Wallet not found" ->
      forall wallet, In wallet (connectedWallets s) -> cw_userId wallet = userId ->
                     cw_id wallet <> walletId)
  /\ (forall network,
         e = Error ("Unsupported network: " +:+ network) ->
         ~ In network ["ethereum"; "bsc"; "polygon"; "tron"]
         /\ exists wallet, In wallet (connectedWallets s) /\ cw_userId wallet = userId
                           /\ cw_id wallet = walletId /\ cw_network wallet = network).
Proof.
  intros Hfail _.
  assert (Hreq : requests (trace (entering walletId userId s)) = requests (trace s)).
  { unfold entering, record. cbn [snd trace].
    induction (trace s) as [|[url|fn args] evs IH]; simpl;
      [reflexivity | now rewrite IH | exact IH]. }
  rewrite fetchAndUpdate_unfold in Hfail |- *.
  destruct (List.find _ _) as [wallet|] eqn:Hfind.
  - unfold bind in Hfail |- *.
    destruct (balancesOf_outcome env wallet (entering walletId userId s))
      as [[_ (balances & s1 & E)]|[Hout E]]; rewrite E in Hfail |- *.
    + exfalso. revert Hfail. cbv zeta.
      destruct (total_priceAndSave env walletId userId balances s1) as (rows & s2 & ->).
      discriminate.
    + cbn [fst snd] in Hfail |- *. injection Hfail as <-.
      split; [reflexivity|]. split; [reflexivity|]. split; [reflexivity|].
      split; [exact Hreq|]. split; [discriminate|].
      intros network Heq. injection Heq as Hn.
      change (cw_network wallet = network) in Hn. subst network.
      split; [exact Hout|]. exists wallet.
      apply find_some in Hfind as [Hin Hid]. apply String.eqb_eq in Hid.
      apply orderByDesc_In, walletsOf_In in Hin as [Hin Hu]. auto.
  - cbn [fst snd] in Hfail |- *. injection Hfail as <-.
    split; [reflexivity|]. split; [reflexivity|]. split; [reflexivity|].
    split; [exact Hreq|]. split; [|discriminate].
    intros _ wallet Hin Hu Hid.
    assert (Hw : In wallet (orderByDesc cw_lastConnected (walletsOf userId s))).
    { apply orderByDesc_In, walletsOf_In. auto. }
    apply (find_none _ _ Hfind) in Hw. apply String.eqb_neq in Hw. contradiction.
Qed.

Lemma failed_refresh_changes_nothing_witness :
  walletBalances (snd (fetchAndUpdateWalletBalances Sample.funded "w9" "u1" Sample.dogeOnly))
  = walletBalances Sample.dogeOnly.
Proof.
  apply (failed_refresh_changes_nothing Sample.funded "w9" "u1" Sample.dogeOnly
           (Error "Unsupported network: dogecoin")).
  - reflexivity.
  - right. now exists "dogecoin".
Defined.

(** ** What a refresh keeps *)

Section Keeps.

Variable R : Store -> Store -> Prop.
Hypothesis R_refl : forall s, R s s.
Hypothesis R_trans : forall a b c, R a b -> R b c -> R a c.

Lemma keeps_ret {A : Type} (a : A) : keeps R (ret a).
Proof. intros s. apply R_refl. Qed.

Lemma keeps_throw {A : Type} (e : Exn) : keeps R (@throw A e).
Proof. intros s. apply R_refl. Qed.

Lemma keeps_lift {A : Type} (r : Except A) : keeps R (lift r).
Proof. intros s. apply R_refl. Qed.

Lemma keeps_json (r : Response) : keeps R (json r).
Proof. unfold json. destruct (body r); [apply keeps_ret | apply keeps_throw]. Qed.

Lemma keeps_bind {A B : Type} (m : M A) (k : A -> M B) :
  keeps R m -> (forall a, keeps R (k a)) -> keeps R (bind m k).
Proof.
  intros Hm Hk s. unfold bind. specialize (Hm s).
  destruct (m s) as [[e|a] s']; cbn [snd] in *; [exact Hm|].
  exact (R_trans _ _ _ Hm (Hk a s')).
Qed.

Lemma keeps_tryCatch {A : Type} (m : M A) (handler : Exn -> M A) :
  keeps R m -> (forall e, keeps R (handler e)) -> keeps R (tryCatch m handler).
Proof.
  intros Hm Hh s. unfold tryCatch. specialize (Hm s).
  destruct (m s) as [[e|a] s']; cbn [snd] in *; [|exact Hm].
  exact (R_trans _ _ _ Hm (Hh e s')).
Qed.

Lemma keeps_caught {A B : Type} (m : M A) (handler : M B) (k : A -> M B) :
  keeps R m -> keeps R handler -> (forall a, keeps R (k a)) -> keeps R (caught m handler k).
Proof.
  intros Hm Hh Hk s. unfold caught. specialize (Hm s).
  destruct (m s) as [[e|a] s']; cbn [snd] in *.
  - exact (R_trans _ _ _ Hm (Hh s')).
  - exact (R_trans _ _ _ Hm (Hk a s')).
Qed.

Variable env : Env.

(** Steps that only use the world: the tick grows, the trace grows, the
    tables stay. *)
Hypothesis R_world : forall s k evs,
  (tick s <= k)%nat ->
  R s {| tick := k; trace := trace s ++ evs;
         connectedWallets := connectedWallets s; walletBalances := walletBalances s |}.

Lemma keeps_fetch (url : string) : keeps R (fetch env url).
Proof.
  intros s. unfold fetch.
  destruct (http env (tick s) url); cbn [snd]; apply R_world; lia.
Qed.

Lemma keeps_now : keeps R (now env).
Proof.
  intros s. unfold now, advance. cbn [snd].
  pose proof (R_world s (S (tick s)) [] (Nat.le_succ_diag_r _)) as H.
  now rewrite app_nil_r in H.
Qed.

Lemma keeps_newId : keeps R (newId env).
Proof.
  intros s. unfold newId, advance. cbn [snd].
  pose proof (R_world s (S (tick s)) [] (Nat.le_succ_diag_r _)) as H.
  now rewrite app_nil_r in H.
Qed.

Lemma keeps_record (ev : Event) : keeps R (record ev).
Proof. intros s. unfold record. cbn [snd]. apply R_world. lia. Qed.

Lemma keeps_getConnectedWallets (userId : string) : keeps R (getConnectedWallets userId).
Proof. intros s. apply R_refl. Qed.

Lemma keeps_getTokenPrices (symbols : list string) : keeps R (getTokenPrices env symbols).
Proof.
  unfold getTokenPrices. apply keeps_tryCatch; [|intros; apply keeps_ret].
  apply keeps_bind; [apply keeps_fetch|]. intros response.
  destruct (negb (ok response)); [apply keeps_throw|].
  apply keeps_bind; [apply keeps_json | intros; apply keeps_lift].
Qed.

Lemma keeps_fetchNativeBalance (address network : string) :
  keeps R (fetchNativeBalance env address network).
Proof.
  unfold fetchNativeBalance. destruct (assoc network API_ENDPOINTS); [|apply keeps_ret].
  apply keeps_tryCatch; [|intros; apply keeps_ret].
  destruct (nativeRequest _ _ _) as [[apiUrl nativeSymbol]|]; [|apply keeps_ret].
  apply keeps_bind; [apply keeps_fetch|]. intros response.
  destruct (negb (ok response)); [apply keeps_ret|].
  apply keeps_bind; [apply keeps_json | intros; apply keeps_lift].
Qed.

Lemma keeps_tokenTurn (endpoints : list (string * string)) (address network : string)
    (token : string * string) :
  keeps R (tokenTurn env endpoints address network token).
Proof.
  unfold tokenTurn. destruct token as [symbol contractAddress].
  destruct (tokenRequest _ _ _ _); [|apply keeps_ret].
  apply keeps_bind; [apply keeps_fetch|]. intros response.
  destruct (negb (ok response)); [apply keeps_ret|].
  apply keeps_bind; [apply keeps_json | intros; apply keeps_lift].
Qed.

Lemma keeps_tokenLoop (endpoints : list (string * string)) (address network : string)
    (tokens : list (string * string)) :
  forall balances, keeps R (tokenLoop env endpoints address network tokens balances).
Proof.
  induction tokens as [|token rest IH]; intros balances; cbn [tokenLoop].
  - apply keeps_ret.
  - apply keeps_caught; [apply keeps_tokenTurn | apply keeps_ret | intros o; apply IH].
Qed.

Lemma keeps_fetchEVMBalance (address network : string) :
  keeps R (fetchEVMBalance env address network).
Proof.
  unfold fetchEVMBalance. apply keeps_bind; [apply keeps_record|]. intros _.
  apply keeps_tryCatch; [|intros; apply keeps_ret].
  apply keeps_bind; [apply keeps_fetchNativeBalance|]. intros nativeBalance.
  apply keeps_bind; [|intros; apply keeps_ret].
  unfold fetchTokenBalances.
  destruct (assoc network TOKEN_CONTRACTS); [|apply keeps_ret].
  destruct (assoc network API_ENDPOINTS); [apply keeps_tokenLoop | apply keeps_ret].
Qed.

Lemma keeps_fetchTronBalance (address : string) : keeps R (fetchTronBalance env address).
Proof.
  unfold fetchTronBalance. apply keeps_bind; [apply keeps_record|]. intros _.
  apply keeps_caught; [|apply keeps_ret|].
  - unfold tronAccount. apply keeps_bind; [apply keeps_fetch|]. intros response.
    destruct (ok response); [|apply keeps_ret].
    apply keeps_bind; [apply keeps_json | intros; apply keeps_lift].
  - intros balances. apply keeps_caught; [apply keeps_fetch | apply keeps_ret |].
    intros tokenResponse. destruct (ok tokenResponse); [|apply keeps_ret].
    apply keeps_caught; [apply keeps_json | apply keeps_ret | intros; apply keeps_ret].
Qed.

Lemma keeps_balancesOf (wallet : ConnectedWallet) : keeps R (balancesOf env wallet).
Proof.
  unfold balancesOf.
  destruct (_ || _ || _)%bool; [apply keeps_fetchEVMBalance|].
  destruct (String.eqb _ _); [apply keeps_fetchTronBalance | apply keeps_throw].
Qed.

Lemma keeps_saveBalances (walletId userId : string) (prices : gmap string JSON)
    (balances : list RawBalance) :
  (forall b, keeps R (upsertWalletBalance env (balanceData walletId userId prices b))) ->
  forall saved, keeps R (saveBalances env walletId userId prices balances saved).
Proof.
  intros Hup. induction balances as [|b rest IH]; intros saved; cbn [saveBalances].
  - apply keeps_ret.
  - apply keeps_bind; [apply Hup | intros row; apply IH].
Qed.

Lemma keeps_fetchAndUpdate (walletId userId : string) :
  (forall prices b,
      keeps R (upsertWalletBalance env (balanceData walletId userId prices b))) ->
  keeps R (fetchAndUpdateWalletBalances env walletId userId).
Proof.
  intros Hup. unfold fetchAndUpdateWalletBalances.
  apply keeps_bind; [apply keeps_record|]. intros _.
  apply keeps_bind; [apply keeps_getConnectedWallets|]. intros wallets.
  destruct (List.find _ wallets) as [wallet|]; [|apply keeps_throw].
  apply keeps_bind; [apply keeps_balancesOf|]. intros balances.
  unfold priceAndSave. apply keeps_bind; [apply keeps_getTokenPrices|].
  intros prices. apply keeps_saveBalances. apply Hup.
Qed.

Lemma keeps_initialize (userId : string) :
  (forall b, keeps R (upsertWalletBalance env b)) ->
  (forall wallet, keeps R (createConnectedWallet env wallet)) ->
  keeps R (initializeWalletWithAddresses env userId).
Proof.
  intros Hup Hcreate. unfold initializeWalletWithAddresses.
  apply keeps_tryCatch; [|intros; apply keeps_ret].
  apply keeps_bind; [apply keeps_getConnectedWallets|]. intros existing.
  destruct (_ =? _)%nat; [|apply keeps_ret].
  induction predefinedWallets as [|wallet rest IH]; cbn [seedWallets]; [apply keeps_ret|].
  apply keeps_bind; [|intros; exact IH].
  unfold seedWallet. apply keeps_tryCatch; [|intros; apply keeps_ret].
  apply keeps_bind; [apply keeps_now|]. intros date.
  apply keeps_bind; [apply Hcreate|]. intros connectedWallet.
  destruct (fetchable _); [|apply keeps_ret].
  apply keeps_bind; [|intros; apply keeps_ret].
  apply keeps_fetchAndUpdate. intros prices b. apply Hup.
Qed.

End Keeps.

Lemma createConnectedWallet_balances (env : Env) (wallet : InsertConnectedWallet) (s : Store) :
  walletBalances (snd (createConnectedWallet env wallet s)) = walletBalances s.
Proof. reflexivity. Qed.

(** X5. Run with nothing interleaved (no other call writes between its
    steps), a refresh, and the seeding of the default wallets with its
    refreshes, keep the invariant of the upsert: at most one wallet_balances
    row per (userId, walletId, tokenSymbol) with a non-null walletId. *)
Theorem refresh_keeps_one_row_per_triple (env : Env) (walletId userId : string) (s : Store) :
  oneRowPerTriple (walletBalances s) ->
  oneRowPerTriple (walletBalances (snd (fetchAndUpdateWalletBalances env walletId userId s)))
  /\ oneRowPerTriple (walletBalances (snd (initializeWalletWithAddresses env userId s))).
Proof.
  set (R := fun a b : Store =>
              oneRowPerTriple (walletBalances a) -> oneRowPerTriple (walletBalances b)).
  assert (Hrefl : forall a, R a a) by (intros a H; exact H).
  assert (Htrans : forall a b c, R a b -> R b c -> R a c) by (intros a b c H1 H2 H; auto).
  assert (Hworld : forall a k evs, (tick a <= k)%nat ->
            R a {| tick := k; trace := trace a ++ evs;
                   connectedWallets := connectedWallets a;
                   walletBalances := walletBalances a |}) by (intros a k evs _ H; exact H).
  assert (Hup : forall b, keeps R (upsertWalletBalance env b))
    by (intros b a H; now apply upsert_preserves).
  intros Hinv. split.
  - apply (keeps_fetchAndUpdate R Hrefl Htrans env Hworld walletId userId); [|exact Hinv].
    intros prices b. apply Hup.
  - apply (keeps_initialize R Hrefl Htrans env Hworld userId); [exact Hup| |exact Hinv].
    intros wallet a H. exact H.
Qed.

Lemma refresh_keeps_one_row_per_triple_witness :
  oneRowPerTriple
    (walletBalances (snd (fetchAndUpdateWalletBalances Sample.funded "w1" "u1"
                            Sample.oneBalance))).
Proof.
  apply (refresh_keeps_one_row_per_triple Sample.funded "w1" "u1" Sample.oneBalance).
  intros [|[|i]] [|[|j]] r1 r2 H1 H2; try discriminate. reflexivity.
Defined.

Lemma NoDup_map_eq {A B : Type} (f : A -> B) (l : list A) (a b : A) :
  NoDup (List.map f l) -> In a l -> In b l -> f a = f b -> a = b.
Proof.
  induction l as [|x l IH]; intros Hnd Ha Hb E; [destruct Ha|].
  cbn [List.map] in Hnd. apply NoDup_cons in Hnd as [Hx Hnd].
  rewrite list_elem_of_In in Hx.
  destruct Ha as [<-|Ha], Hb as [<-|Hb].
  - reflexivity.
  - exfalso. apply Hx. rewrite E. now apply in_map.
  - exfalso. apply Hx. rewrite <- E. now apply in_map.
  - now apply IH.
Qed.

Lemma freshIds_later (env : Env) (s s' : Store) :
  walletBalances s' = walletBalances s -> (tick s <= tick s')%nat ->
  freshIds env s -> freshIds env s'.
Proof.
  intros Hrows Htick (Hkey & Hnew & Hinj). unfold freshIds. rewrite Hrows.
  split; [exact Hkey|]. split.
  - intros k Hk. apply Hnew. lia.
  - intros j k Hj Hk. apply Hinj; lia.
Qed.

(** One upsert for (userId, walletId) under distinct ids. *)
Lemma upsert_isolated (env : Env) (b : InsertWalletBalance) (w : string) (s : Store) :
  ib_walletId b = Given w ->
  freshIds env s ->
  let mine := fun r => wb_userId r = ib_userId b /\ wb_walletId r = Some w in
  exists row s',
    upsertWalletBalance env b s = (inr row, s')
    /\ freshIds env s'
    /\ connectedWallets s' = connectedWallets s
    /\ (forall r, In r (walletBalances s) -> ~ mine r -> In r (walletBalances s'))
    /\ (forall r, In r (walletBalances s') -> In r (walletBalances s) \/ mine r)
    /\ In row (walletBalances s')
    /\ mine row /\ wb_tokenSymbol row = ib_tokenSymbol b /\ wb_balance row = ib_balance b
    /\ wb_balanceUSD row = assigned (ib_balanceUSD b) (wb_balanceUSD row).
Proof.
  intros Hw (Hkey & Hnew & Hinj) mine.
  destruct (List.filter (matchesTriple b) (walletBalances s)) as [|first others] eqn:E.
  - rewrite (upsert_insert env b s E). cbv zeta.
    eexists _, _. split; [reflexivity|]. cbn [walletBalances connectedWallets tick].
    split; [|split; [reflexivity|]].
    + unfold freshIds. cbn [walletBalances tick]. split; [|split].
      * unfold primaryKey. rewrite List.map_app. cbn [List.map insertedRow wb_id].
        apply NoDup_app. split; [exact Hkey|]. split.
        -- intros x Hx [<-|[]]%list_elem_of_In.
           apply (Hnew (tick s)); [lia | now apply list_elem_of_In].
        -- repeat constructor. rewrite list_elem_of_In. intros [].
      * intros k Hk. rewrite List.map_app, in_app_iff. cbn [List.map insertedRow wb_id In].
        intros [Hin|[Heq|[]]].
        -- apply (Hnew k); [lia | exact Hin].
        -- apply Hinj in Heq; lia.
      * intros j k Hj Hk. apply Hinj; lia.
    + split; [intros r Hr _; apply in_app_iff; now left|].
      split; [intros r [Hr|[<-|[]]]%in_app_iff; [now left | right; unfold mine; cbn; rewrite Hw; now split]|].
      split; [apply in_app_iff; right; now left|].
      unfold mine. cbn. rewrite Hw. repeat split. now destruct (ib_balanceUSD b).
  - assert (Hf : In first (walletBalances s) /\ matchesTriple b first = true).
    { apply filter_In. rewrite E. now left. }
    destruct Hf as [Hin Hm]. apply matchesTriple_spec in Hm as (Hu & Hwal & Ht).
    rewrite Hw in Hwal. cbn [orEmpty] in Hwal.
    pose proof Hin as Hi. apply list_elem_of_In, list_elem_of_lookup in Hi as [i Hi].
    rewrite (upsert_update env b s first others E). cbv zeta.
    destruct (update_by_id (updatedRow b (clock env (tick s))) (walletBalances s) i first
                Hkey Hi) as [Hrows Hhit]; [reflexivity|].
    rewrite Hhit. cbn [List.hd].
    set (g := fun r => if String.eqb (wb_id r) (wb_id first)
                       then updatedRow b (clock env (tick s)) r else r) in *.
    assert (Hg : forall r, In r (walletBalances s) ->
                           String.eqb (wb_id r) (wb_id first) = true -> r = first).
    { intros r Hr Heq. apply String.eqb_eq in Heq.
      exact (NoDup_map_eq wb_id _ r first Hkey Hr Hin Heq). }
    assert (Hids : List.map wb_id (List.map g (walletBalances s))
                   = List.map wb_id (walletBalances s)).
    { rewrite List.map_map. apply map_ext. intros r. unfold g.
      now destruct (String.eqb (wb_id r) (wb_id first)). }
    eexists _, _. split; [reflexivity|]. cbn [walletBalances connectedWallets tick].
    split; [|split; [reflexivity|]].
    + unfold freshIds. cbn [walletBalances tick]. unfold primaryKey. rewrite Hids.
      split; [exact Hkey|]. split.
      * intros k Hk. apply Hnew. lia.
      * intros j k Hj Hk. apply Hinj; lia.
    + split.
      { intros r Hr Hother. apply in_map_iff. exists r. split; [|exact Hr].
        unfold g. destruct (String.eqb (wb_id r) (wb_id first)) eqn:Heq; [|reflexivity].
        exfalso. apply Hother. rewrite (Hg r Hr Heq). now split. }
      split.
      { intros r' [r [<- Hr]]%in_map_iff. unfold g.
        destruct (String.eqb (wb_id r) (wb_id first)) eqn:Heq; [|now left].
        right. rewrite (Hg r Hr Heq). now split. }
      split.
      { apply in_map_iff. exists first. split; [|exact Hin].
        unfold g. now rewrite String.eqb_refl. }
      unfold mine. cbn. repeat split; try assumption. now destruct (ib_balanceUSD b).
Qed.

(** The rows a refresh saves, seen from one call of the saving loop to the
    next. *)
Lemma saveBalances_isolated (env : Env) (walletId userId : string)
    (prices : gmap string JSON) (balances : list RawBalance) :
  forall saved s,
    freshIds env s ->
    let mine := fun r => wb_userId r = userId /\ wb_walletId r = Some walletId in
    exists rows s',
      saveBalances env walletId userId prices balances saved s = (inr (saved ++ rows), s')
      /\ freshIds env s'
      /\ (forall r, In r (walletBalances s) -> ~ mine r -> In r (walletBalances s'))
      /\ (forall r, In r (walletBalances s') -> In r (walletBalances s) \/ mine r)
      /\ List.map (fun r => (wb_userId r, wb_walletId r, wb_tokenSymbol r, wb_balance r)) rows
         = List.map (fun b => (userId, Some walletId, tokenSymbol b, balance b)) balances.
Proof.
  induction balances as [|b rest IH]; intros saved s Hfresh mine; cbn [saveBalances].
  - exists [], s. unfold ret. rewrite app_nil_r.
    split; [reflexivity|]. split; [exact Hfresh|]. auto.
  - destruct (upsert_isolated env (balanceData walletId userId prices b) walletId s eq_refl
                Hfresh)
      as (row & s1 & E & Hf1 & _ & Hkeep1 & Hnew1 & _ & [Hu Hwl] & Ht & Hb & _).
    cbn [balanceData ib_userId ib_tokenSymbol ib_balance] in Hkeep1, Hnew1, Hu, Ht, Hb.
    unfold bind at 1. rewrite E.
    destruct (IH (saved ++ [row]) s1 Hf1) as (rows & s2 & E2 & Hf2 & Hkeep2 & Hnew2 & Hrows).
    exists (row :: rows), s2. rewrite E2, <- app_assoc. split; [reflexivity|].
    split; [exact Hf2|]. split; [|split].
    + intros r Hr Hother. apply Hkeep2; [|exact Hother]. now apply Hkeep1.
    + intros r Hr. destruct (Hnew2 r Hr) as [Hr1|Hm]; [|now right]. now apply Hnew1.
    + cbn [List.map]. now rewrite Hrows, Hu, Hwl, Ht, Hb.
Qed.

(** X6. With distinct row ids (those in the table and those the database
    generates later), a refresh for (userId, walletId) touches only that
    wallet's balance rows: every row of another user or wallet is still
    there unchanged, every row that is new or changed belongs to
    (userId, walletId), the ids stay distinct, and connected_wallets is
    not changed. *)
Theorem refresh_touches_only_its_wallet (env : Env) (walletId userId : string) (s : Store) :
  freshIds env s ->
  let s' := snd (fetchAndUpdateWalletBalances env walletId userId s) in
  let mine := fun r => wb_userId r = userId /\ wb_walletId r = Some walletId in
  freshIds env s'
  /\ (forall r, In r (walletBalances s) -> ~ mine r -> In r (walletBalances s'))
  /\ (forall r, In r (walletBalances s') -> In r (walletBalances s) \/ mine r)
  /\ connectedWallets s' = connectedWallets s.
Proof.
  intros Hfresh s' mine.
  set (R := fun a b : Store =>
              freshIds env a ->
              freshIds env b
              /\ (forall r, In r (walletBalances a) -> ~ mine r -> In r (walletBalances b))
              /\ (forall r, In r (walletBalances b) -> In r (walletBalances a) \/ mine r)).
  assert (Hrefl : forall a, R a a) by (intros a H; auto).
  assert (Htrans : forall a b c, R a b -> R b c -> R a c).
  { intros a b c H1 H2 Ha. destruct (H1 Ha) as (Hb & K1 & N1).
    destruct (H2 Hb) as (Hc & K2 & N2). split; [exact Hc|]. split.
    - intros r Hr Ho. apply K2; auto.
    - intros r Hr. destruct (N2 r Hr) as [Hr'|]; auto. }
  assert (Hworld : forall a k evs, (tick a <= k)%nat ->
            R a {| tick := k; trace := trace a ++ evs;
                   connectedWallets := connectedWallets a;
                   walletBalances := walletBalances a |}).
  { intros a k evs Hk Ha. split; [|split; auto].
    apply (freshIds_later env a); [reflexivity | exact Hk | exact Ha]. }
  assert (Hup : forall prices b,
             keeps R (upsertWalletBalance env (balanceData walletId userId prices b))).
  { intros prices b a Ha.
    destruct (upsert_isolated env (balanceData walletId userId prices b) walletId a eq_refl Ha)
      as (row & a' & E & Hf & _ & Hkeep & Hnew & _).
    rewrite E. cbn [snd]. auto. }
  split; [|split; [|split]].
  - apply (keeps_fetchAndUpdate R Hrefl Htrans env Hworld walletId userId Hup s Hfresh).
  - apply (keeps_fetchAndUpdate R Hrefl Htrans env Hworld walletId userId Hup s Hfresh).
  - apply (keeps_fetchAndUpdate R Hrefl Htrans env Hworld walletId userId Hup s Hfresh).
  - apply fetchAndUpdate_frame.
Qed.

Lemma showZ_inj (j k : nat) : showZ (Z.of_nat j) = showZ (Z.of_nat k) -> j = k.
Proof.
  unfold showZ. intros H.
  assert (Hnn : forall n : N, N.to_uint n <> Decimal.Nil).
  { intros [|p]; [discriminate | apply DecimalPos.Unsigned.to_uint_nonnil]. }
  apply (f_equal NilZero.uint_of_string) in H.
  rewrite !NilZero.usu in H by apply Hnn.
  injection H as H. apply DecimalN.Unsigned.to_uint_inj in H. lia.
Qed.

Lemma sample_freshIds (replies : nat -> string -> Reply) :
  freshIds (Sample.world replies) Sample.oneBalance.
Proof.
  split; [|split].
  - repeat constructor. rewrite list_elem_of_In. intros [].
  - intros k _ [H|[]]. discriminate.
  - intros j k _ _ H. cbn in H. injection H as H. now apply showZ_inj.
Qed.

Lemma twoUsers_freshIds (replies : nat -> string -> Reply) :
  freshIds (Sample.world replies) More.twoUsers.
Proof.
  split; [|split].
  - repeat constructor; rewrite list_elem_of_In; simpl; intuition discriminate.
  - intros k _ [H|[H|[]]]; discriminate.
  - intros j k _ _ H. cbn in H. injection H as H. now apply showZ_inj.
Qed.

Lemma refresh_touches_only_its_wallet_witness :
  In More.otherRow
     (walletBalances (snd (fetchAndUpdateWalletBalances Sample.funded "w1" "u1"
                             More.twoUsers)))
  /\ List.map wb_tokenSymbol
       (walletBalances (snd (fetchAndUpdateWalletBalances Sample.funded "w1" "u1"
                               More.twoUsers)))
     = ["ETH"; "ETH"; "USDT"; "USDC"; "BNB"]
  /\ List.map wb_lastUpdated
       (walletBalances (snd (fetchAndUpdateWalletBalances Sample.funded "w1" "u1"
                               More.twoUsers)))
     <> List.map wb_lastUpdated [Sample.ethRow; More.otherRow].
Proof.
  split; [|split].
  - apply (refresh_touches_only_its_wallet Sample.funded "w1" "u1" More.twoUsers
             (twoUsers_freshIds _)).
    + right. now left.
    + intros [H _]. discriminate.
  - vm_compute. reflexivity.
  - vm_compute. discriminate.
Defined.

(** X7. With distinct row ids, a refresh that succeeds returns one row per
    balance the fetcher returned, in the same order, each for the requesting
    user and wallet and with that balance's token symbol. *)
Theorem refresh_returns_one_row_per_balance (env : Env) (walletId userId : string)
    (s s' : Store) (rows : list WalletBalance) :
  freshIds env s ->
  fetchAndUpdateWalletBalances env walletId userId s = (inr rows, s') ->
  exists wallet balances,
    In wallet (connectedWallets s) /\ cw_id wallet = walletId /\ cw_userId wallet = userId
    /\ fst (balancesOf env wallet (entering walletId userId s)) = inr balances
    /\ List.map (fun r => (wb_userId r, wb_walletId r, wb_tokenSymbol r)) rows
       = List.map (fun b => (userId, Some walletId, tokenSymbol b)) balances.
Proof.
  intros Hfresh Hrun.
  set (R := fun a b : Store => freshIds env a -> freshIds env b).
  assert (Hrefl : forall a, R a a) by (intros a H; exact H).
  assert (Htrans : forall a b c, R a b -> R b c -> R a c) by (intros a b c H1 H2 H; auto).
  assert (Hworld : forall a k evs, (tick a <= k)%nat ->
            R a {| tick := k; trace := trace a ++ evs;
                   connectedWallets := connectedWallets a;
                   walletBalances := walletBalances a |}).
  { intros a k evs Hk Ha. apply (freshIds_later env a); [reflexivity | exact Hk | exact Ha]. }
  rewrite fetchAndUpdate_unfold in Hrun.
  destruct (List.find _ _) as [wallet|] eqn:Hfind; [|discriminate].
  apply find_some in Hfind as [Hin Hid]. apply String.eqb_eq in Hid.
  apply orderByDesc_In, walletsOf_In in Hin as [Hin Huser].
  exists wallet.
  assert (H0 : freshIds env (entering walletId userId s)).
  { apply (keeps_record R Hworld _ s Hfresh). }
  pose proof (keeps_balancesOf R Hrefl Htrans env Hworld wallet _ H0) as H1.
  unfold bind in Hrun.
  destruct (balancesOf env wallet (entering walletId userId s)) as [[e|balances] s1];
    [discriminate|].
  cbn [snd] in H1. exists balances. repeat split; try assumption.
  unfold priceAndSave, bind in Hrun.
  match type of Hrun with context [getTokenPrices env ?syms s1] =>
    pose proof (keeps_getTokenPrices R Hrefl Htrans env Hworld syms s1 H1) as H2;
    destruct (getTokenPrices env syms s1) as [[e|prices] s2]; [discriminate|] end.
  cbn [snd] in H2.
  destruct (saveBalances_isolated env walletId userId prices balances [] s2 H2)
    as (saved & s3 & E & _ & _ & _ & Hrows).
  rewrite E in Hrun. injection Hrun as <- <-.
  apply (f_equal (List.map (fun q : string * option string * string * string => fst q)))
    in Hrows.
  rewrite !List.map_map in Hrows. exact Hrows.
Qed.

Lemma refresh_returns_one_row_per_balance_witness :
  exists wallet balances,
    In wallet (connectedWallets Sample.oneBalance)
    /\ cw_id wallet = "w1" /\ cw_userId wallet = "u1"
    /\ fst (balancesOf Sample.funded wallet (entering "w1" "u1" Sample.oneBalance))
       = inr balances
    /\ List.map (fun r => (wb_userId r, wb_walletId r, wb_tokenSymbol r))
         (match fst (fetchAndUpdateWalletBalances Sample.funded "w1" "u1" Sample.oneBalance)
          with inr rows => rows | inl _ => [] end)
       = List.map (fun b => ("u1", Some "w1", tokenSymbol b)) balances.
Proof.
  apply (refresh_returns_one_row_per_balance Sample.funded "w1" "u1" Sample.oneBalance
           (snd (fetchAndUpdateWalletBalances Sample.funded "w1" "u1" Sample.oneBalance))).
  - apply sample_freshIds.
  - vm_compute. reflexivity.
Defined.

(** ** Storage: ordering, lookups and the other upserts *)

Lemma descBefore_total (a b : option Z) :
  descBefore a b = false -> descBefore b a = true.
Proof.
  destruct a as [x|], b as [y|]; simpl; try discriminate; try reflexivity.
  rewrite Z.leb_gt, Z.leb_le. lia.
Qed.

Lemma descBefore_trans (a b c : option Z) :
  descBefore a b = true -> descBefore b c = true -> descBefore a c = true.
Proof.
  destruct a as [x|], b as [y|], c as [z|]; simpl; try discriminate; try reflexivity.
  rewrite !Z.leb_le. lia.
Qed.

Section Ordering.

Context {A : Type} (key : A -> option Z).

Let before (a b : A) : Prop := descBefore (key a) (key b) = true.

Lemma insertDesc_sorted (a : A) (l : list A) :
  StronglySorted before l -> StronglySorted before (insertDesc key a l).
Proof.
  induction 1 as [|b l Hs IH Hall]; cbn [insertDesc].
  - repeat constructor.
  - destruct (descBefore (key a) (key b)) eqn:E.
    + constructor; [now constructor|]. constructor; [exact E|].
      rewrite List.Forall_forall in *. intros x Hx.
      exact (descBefore_trans _ _ _ E (Hall x Hx)).
    + constructor; [exact IH|]. rewrite List.Forall_forall in *. intros x Hx.
      apply insertDesc_In in Hx as [->|Hx]; [|now apply Hall].
      now apply descBefore_total.
Qed.

Lemma orderByDesc_strongly (l : list A) : StronglySorted before (orderByDesc key l).
Proof.
  unfold orderByDesc. induction l as [|a l IH]; cbn [fold_right]; [constructor|].
  now apply insertDesc_sorted.
Qed.

Lemma strongly_descSorted (l : list A) : StronglySorted before l -> descSorted key l.
Proof.
  induction 1 as [|x l Hs IH Hall]; intros i j a b Hij Ha Hb; [discriminate|].
  destruct j as [|j]; [lia|]. cbn in Hb.
  destruct i as [|i]; cbn in Ha.
  - injection Ha as <-. rewrite List.Forall_forall in Hall. apply Hall.
    apply list_elem_of_In, list_elem_of_lookup. eauto.
  - apply (IH i j a b); [lia | exact Ha | exact Hb].
Qed.

Lemma orderByDesc_sorted (l : list A) : descSorted key (orderByDesc key l).
Proof. apply strongly_descSorted, orderByDesc_strongly. Qed.

Lemma insertDesc_Permutation (a : A) (l : list A) : Permutation (insertDesc key a l) (a :: l).
Proof.
  induction l as [|b l IH]; cbn [insertDesc]; [reflexivity|].
  destruct (descBefore (key a) (key b)); [reflexivity|].
  rewrite IH. apply perm_swap.
Qed.

Lemma orderByDesc_Permutation (l : list A) : Permutation (orderByDesc key l) l.
Proof.
  unfold orderByDesc. induction l as [|a l IH]; cbn [fold_right]; [reflexivity|].
  rewrite insertDesc_Permutation. now constructor.
Qed.

End Ordering.

(** X8. getConnectedWallets returns exactly the connected wallets of the
    user - each as often as it is in the table - ordered by lastConnected,
    latest first and rows without a timestamp before all others; it changes
    nothing. *)
Theorem getConnectedWallets_sorted (userId : string) (s : Store) :
  exists wallets,
    getConnectedWallets userId s = (inr wallets, s)
    /\ Permutation wallets
         (List.filter (fun w => String.eqb (cw_userId w) userId) (connectedWallets s))
    /\ (forall w, In w wallets <-> In w (connectedWallets s) /\ cw_userId w = userId)
    /\ descSorted cw_lastConnected wallets.
Proof.
  eexists. split; [reflexivity|]. split; [apply orderByDesc_Permutation|]. split.
  - intros w. rewrite orderByDesc_In. apply (walletsOf_In userId s w).
  - apply orderByDesc_sorted.
Qed.

Lemma getWalletBalances_In (userId w : string) (s : Store) (r : WalletBalance) :
  w <> "" ->
  forall rows, fst (getWalletBalances userId (Some w) s) = inr rows ->
  (In r rows <-> In r (walletBalances s) /\ wb_userId r = userId /\ wb_walletId r = Some w).
Proof.
  intros Hw rows. unfold getWalletBalances. cbn [fst default].
  apply String.eqb_neq in Hw. rewrite Hw. cbn [negb]. intros [= <-].
  rewrite orderByDesc_In, filter_In, andb_true_iff, String.eqb_eq. unfold walletIs.
  destruct (wb_walletId r) as [w'|].
  - rewrite String.eqb_eq. split.
    + intros (? & ? & ->). auto.
    + intros (? & ? & [= ->]). auto.
  - split; [intros (_ & _ & ?); discriminate | intros (_ & _ & ?); discriminate].
Qed.

(** X9. Lookup and deletion of balances by wallet. For a non-empty wallet
    id, getWalletBalances returns exactly the user's rows of that wallet,
    and after deleteWalletBalances it returns the empty list for every
    user. deleteWalletBalances keeps every row of another wallet and every
    row without wallet. An empty wallet id does not narrow the lookup: it
    returns all rows of the user, as a call without wallet id does. *)
Theorem wallet_balances_lookup_and_delete (userId w : string) (s : Store) :
  (w <> "" ->
   (forall r rows, fst (getWalletBalances userId (Some w) s) = inr rows ->
                   (In r rows <->
                    In r (walletBalances s) /\ wb_userId r = userId /\ wb_walletId r = Some w))
   /\ fst (getWalletBalances userId (Some w) (snd (deleteWalletBalances w s))) = inr [])
  /\ (forall r, In r (walletBalances (snd (deleteWalletBalances w s)))
                <-> In r (walletBalances s) /\ wb_walletId r <> Some w)
  /\ getWalletBalances userId (Some "") s = getWalletBalances userId None s
  /\ (forall r rows, fst (getWalletBalances userId None s) = inr rows ->
                     (In r rows <-> In r (walletBalances s) /\ wb_userId r = userId)).
Proof.
  assert (Hdel : forall r, In r (walletBalances (snd (deleteWalletBalances w s)))
                           <-> In r (walletBalances s) /\ wb_walletId r <> Some w).
  { intros r. unfold deleteWalletBalances, setWalletBalances. cbn [snd walletBalances].
    rewrite filter_In, negb_true_iff. unfold walletIs.
    destruct (wb_walletId r) as [w'|].
    - rewrite String.eqb_neq. split; intros [? ?]; split; congruence.
    - split; intros [? ?]; split; congruence. }
  split; [|split; [exact Hdel | split; [reflexivity|]]].
  - intros Hw. split; [intros r rows; now apply getWalletBalances_In|].
    destruct (fst (getWalletBalances userId (Some w) (snd (deleteWalletBalances w s))))
      as [e|[|r rows]] eqn:E; [discriminate | reflexivity | exfalso].
    assert (Hin : In r (r :: rows)) by now left.
    apply (getWalletBalances_In userId w _ r Hw _ E) in Hin as (Hin & _ & Hwal).
    apply Hdel in Hin as [_ Hne]. contradiction.
  - intros r rows. unfold getWalletBalances. cbn [fst]. intros [= <-].
    rewrite orderByDesc_In, filter_In, String.eqb_eq. tauto.
Qed.

Lemma wallet_balances_lookup_and_delete_witness :
  fst (getWalletBalances "u1" (Some "w1") (snd (deleteWalletBalances "w1" Sample.oneBalance)))
  = inr [].
Proof.
  apply (wallet_balances_lookup_and_delete "u1" "w1" Sample.oneBalance). discriminate.
Defined.

(** X10. Round trip of the upsert: after upsertWalletBalance for a non-empty
    wallet id, getWalletBalances for that user and wallet contains a row
    with the call's token symbol, and so does the lookup of all rows of the
    user. *)
Theorem upsert_then_lookup (env : Env) (b : InsertWalletBalance) (w : string) (s : Store) :
  ib_walletId b = Given w -> w <> "" ->
  exists rows r,
    fst (getWalletBalances (ib_userId b) (Some w) (snd (upsertWalletBalance env b s)))
    = inr rows
    /\ In r rows
    /\ wb_tokenSymbol r = ib_tokenSymbol b
    /\ exists all,
         fst (getWalletBalances (ib_userId b) None (snd (upsertWalletBalance env b s)))
         = inr all
         /\ In r all.
Proof.
  intros Hw Hne.
  assert (Hrow : exists r, In r (walletBalances (snd (upsertWalletBalance env b s)))
                           /\ wb_userId r = ib_userId b /\ wb_walletId r = Some w
                           /\ wb_tokenSymbol r = ib_tokenSymbol b
                           /\ wb_balance r = ib_balance b).
  { destruct (List.filter (matchesTriple b) (walletBalances s)) as [|first others] eqn:E.
    - rewrite (upsert_insert env b s E). cbn [snd walletBalances]. eexists. split.
      + apply in_app_iff. right. now left.
      + cbn. rewrite Hw. auto.
    - assert (Hf : In first (walletBalances s) /\ matchesTriple b first = true).
      { apply filter_In. rewrite E. now left. }
      destruct Hf as [Hin Hm]. apply matchesTriple_spec in Hm as (Hu & Hwal & Ht).
      rewrite Hw in Hwal. cbn [orEmpty] in Hwal.
      rewrite (upsert_update env b s first others E). cbn [snd walletBalances].
      exists (updatedRow b (clock env (tick s)) first). split.
      + apply in_map_iff. exists first. split; [|exact Hin]. now rewrite String.eqb_refl.
      + cbn. auto. }
  destruct Hrow as (r & Hin & Hu & Hwal & Ht & Hb).
  eexists _, r. split; [reflexivity|]. split; [|split; [exact Ht|]].
  - eapply getWalletBalances_In; [exact Hne | reflexivity | auto].
  - eexists. split; [reflexivity|].
    unfold getWalletBalances. cbn [fst default].
    apply orderByDesc_In, filter_In. split; [exact Hin|].
    rewrite Hu. cbn. now rewrite String.eqb_refl.
Qed.

Lemma upsert_then_lookup_witness :
  exists rows r,
    fst (getWalletBalances "u1" (Some "w1")
           (snd (upsertWalletBalance Sample.funded Sample.usdtCall Sample.oneBalance)))
    = inr rows
    /\ In r rows /\ wb_tokenSymbol r = "USDT".
Proof.
  destruct (upsert_then_lookup Sample.funded Sample.usdtCall "w1" Sample.oneBalance)
    as (rows & r & E & Hin & Hsym & _); [reflexivity | discriminate |].
  exists rows, r. split; [exact E|]. split; [exact Hin | exact Hsym].
Defined.

(** X11. A call without wallet id is looked up under the empty wallet id
    and inserted with a NULL wallet id, so it never finds the row it
    inserted: when no row has the empty string as wallet id, two such calls
    in a row append two rows for the same user and token. *)
Theorem upsert_without_wallet_duplicates (env : Env) (b : InsertWalletBalance) (s : Store) :
  ib_walletId b = Null \/ ib_walletId b = Undefined ->
  (forall r, In r (walletBalances s) -> wb_walletId r <> Some "") ->
  exists r1 r2 s',
    upsertAll env [b; b] s = (inr [r1; r2], s')
    /\ walletBalances s' = walletBalances s ++ [r1; r2]
    /\ wb_walletId r1 = None /\ wb_walletId r2 = None
    /\ wb_userId r1 = ib_userId b /\ wb_userId r2 = ib_userId b
    /\ wb_tokenSymbol r1 = ib_tokenSymbol b /\ wb_tokenSymbol r2 = ib_tokenSymbol b.
Proof.
  intros Hw Hnone.
  assert (Hempty : forall rows, (forall r, In r rows -> wb_walletId r <> Some "") ->
                                List.filter (matchesTriple b) rows = []).
  { intros rows Hrows. destruct (List.filter (matchesTriple b) rows) as [|r l] eqn:E;
      [reflexivity | exfalso].
    assert (Hr : In r rows /\ matchesTriple b r = true) by (apply filter_In; rewrite E; now left).
    destruct Hr as [Hin Hm]. apply matchesTriple_spec in Hm as (_ & Hwal & _).
    apply (Hrows r Hin). rewrite Hwal. now destruct Hw as [-> | ->]. }
  assert (Hnull : inserted None (ib_walletId b) = None) by (now destruct Hw as [-> | ->]).
  cbn [upsertAll]. unfold bind, ret.
  rewrite (upsert_insert env b s (Hempty _ Hnone)). cbv zeta.
  match goal with |- context [upsertWalletBalance env b ?st] =>
    rewrite (upsert_insert env b st) end.
  - cbv zeta. cbn [walletBalances tick].
    eexists _, _, _. split; [reflexivity|]. cbn [walletBalances].
    split; [now rewrite <- app_assoc|]. cbn. rewrite Hnull. repeat split.
  - cbn [walletBalances]. apply Hempty. intros r [Hr|[<-|[]]]%in_app_iff; [now apply Hnone|].
    cbn. rewrite Hnull. discriminate.
Qed.

Lemma upsert_without_wallet_duplicates_witness :
  exists r1 r2 s',
    upsertAll Sample.funded [More.detachedCall; More.detachedCall] Sample.oneBalance
    = (inr [r1; r2], s')
    /\ walletBalances s' = [Sample.ethRow; r1; r2]
    /\ wb_walletId r1 = None /\ wb_walletId r2 = None.
Proof.
  destruct (upsert_without_wallet_duplicates Sample.funded More.detachedCall Sample.oneBalance)
    as (r1 & r2 & s' & E & Hrows & H1 & H2 & _).
  - now left.
  - intros r [<-|[]]. discriminate.
  - exists r1, r2, s'. repeat split; assumption.
Defined.

Lemma strongly_app {A : Type} (before : A -> A -> Prop) (l1 l2 : list A) :
  StronglySorted before (l1 ++ l2) ->
  StronglySorted before l1 /\ forall a b, In a l1 -> In b l2 -> before a b.
Proof.
  induction l1 as [|x l1 IH]; cbn [app]; intros Hs.
  - split; [constructor | intros a b []].
  - apply StronglySorted_inv in Hs as [Hs Hall]. destruct (IH Hs) as [H1 H2].
    rewrite List.Forall_forall in Hall. split.
    + constructor; [exact H1|]. rewrite List.Forall_forall. intros y Hy.
      apply Hall, in_app_iff. now left.
    + intros a b [<-|Ha] Hb; [|now apply H2]. apply Hall, in_app_iff. now right.
Qed.

(** X12. getTradingHistory returns at most 50 trades, all of the user,
    latest first; they are the most recent ones: every trade of the user
    that is left out is no later than every trade returned, and one is left
    out only when 50 are returned. *)
Theorem getTradingHistory_latest_fifty (userId : string) (db : Database) :
  exists history older,
    getTradingHistory userId db = (inr history, db)
    /\ (List.length history <= 50)%nat
    /\ Permutation (history ++ older)
         (List.filter (fun t => String.eqb (th_userId t) userId) (tradingHistory db))
    /\ (older <> [] -> List.length history = 50%nat)
    /\ descSorted th_createdAt history
    /\ (forall a b, In a history -> In b older ->
                    descBefore (th_createdAt a) (th_createdAt b) = true).
Proof.
  set (mine := List.filter (fun t => String.eqb (th_userId t) userId) (tradingHistory db)).
  set (sorted := orderByDesc th_createdAt mine).
  exists (firstn 50 sorted), (skipn 50 sorted).
  pose proof (orderByDesc_strongly th_createdAt mine) as Hs. fold sorted in Hs.
  rewrite <- (firstn_skipn 50 sorted) in Hs. apply strongly_app in Hs as [H1 H2].
  split; [reflexivity|]. split; [apply firstn_le_length|]. split.
  - rewrite firstn_skipn. apply orderByDesc_Permutation.
  - split; [|split; [now apply strongly_descSorted | exact H2]].
    intros Hne. rewrite List.length_firstn.
    destruct (Nat.le_gt_cases 50 (List.length sorted)) as [Hle|Hgt]; [lia|].
    exfalso. apply Hne. apply skipn_all2. lia.
Qed.

Lemma find_head_filter {A : Type} (p : A -> bool) (l : list A) :
  List.find p l = List.head (List.filter p l).
Proof.
  induction l as [|a l IH]; cbn; [reflexivity|]. destruct (p a); [reflexivity | exact IH].
Qed.

Lemma existsb_filter {A : Type} (p : A -> bool) (l : list A) :
  existsb p l = match List.filter p l with [] => false | _ => true end.
Proof.
  induction l as [|a l IH]; cbn; [reflexivity|]. destruct (p a); [reflexivity | exact IH].
Qed.

Lemma update_by_key {A : Type} (key : A -> string) (f : A -> A) (k : string) (l : list A) :
  (forall x, key (f x) = key x) ->
  let hit := fun x => String.eqb (key x) k in
  let g := fun x => if hit x then f x else x in
  List.map key (List.map g l) = List.map key l
  /\ List.filter hit (List.map g l) = List.map f (List.filter hit l)
  /\ (forall first, first <> k ->
        List.filter (fun x => String.eqb (key x) first) (List.map g l)
        = List.filter (fun x => String.eqb (key x) first) l).
Proof.
  intros Hkey hit g. split; [|split].
  - rewrite List.map_map. apply map_ext. intros x. unfold g. now destruct (hit x).
  - induction l as [|a l IH]; [reflexivity|]. cbn [List.map List.filter]. unfold g at 1.
    destruct (hit a) eqn:E.
    + replace (hit (f a)) with true by (unfold hit in *; now rewrite Hkey).
      cbn [List.map]. f_equal; [unfold g; now rewrite E | exact IH].
    + rewrite E. exact IH.
  - intros first Hne. induction l as [|a l IH]; [reflexivity|]. cbn [List.map List.filter].
    assert (Hg : key (g a) = key a)
      by (unfold g; destruct (hit a); [apply Hkey | reflexivity]).
    rewrite Hg, IH. destruct (String.eqb (key a) first) eqn:E1; [|reflexivity].
    f_equal. unfold g. replace (hit a) with false; [reflexivity|].
    symmetry. apply String.eqb_neq. apply String.eqb_eq in E1. congruence.
Qed.

Lemma NoDup_filter_key {A : Type} (key : A -> string) (k : string) (l : list A) :
  NoDup (List.map key l) ->
  forall a b rest, List.filter (fun x => String.eqb (key x) k) l = a :: b :: rest -> False.
Proof.
  induction l as [|x l IH]; intros Hnd a b rest E; [discriminate|].
  cbn [List.map] in Hnd. apply NoDup_cons in Hnd as [Hx Hnd]. rewrite list_elem_of_In in Hx.
  cbn [List.filter] in E. destruct (String.eqb (key x) k) eqn:Ex; [|now apply (IH Hnd a b rest)].
  injection E as <- E. apply String.eqb_eq in Ex.
  assert (Hb : In b (List.filter (fun x => String.eqb (key x) k) l)) by (rewrite E; now left).
  apply filter_In in Hb as [Hb Hk]. apply String.eqb_eq in Hk.
  apply Hx. rewrite Ex, <- Hk. now apply in_map.
Qed.

(** X13. upsertMarketData keeps one row per symbol. The row it returns is
    the row of the given symbol, and it is what getMarketData returns
    afterwards for a list that starts with that symbol. getMarketData looks
    at the first symbol only: for a list that starts with another symbol the
    upsert changes nothing, whatever the rest of the list. *)
Theorem upsertMarketData_keeps_symbols_unique (env : Env) (data : InsertMarketData)
    (db : Database) :
  oneRowPerSymbol (marketData db) ->
  exists row db',
    upsertMarketData env data db = (inr row, db')
    /\ oneRowPerSymbol (marketData db')
    /\ md_symbol row = imd_symbol data
    /\ (forall others, fst (getMarketData (imd_symbol data :: others) db') = inr [row])
    /\ (forall first others,
           first <> imd_symbol data ->
           fst (getMarketData (first :: others) db') = fst (getMarketData [first] db)).
Proof.
  intros Hone.
  unfold upsertMarketData, dbind at 1 2 3, inCore, now, newId.
  cbn [core users tradingHistory marketData advance tick].
  set (hit := fun r => String.eqb (md_symbol r) (imd_symbol data)).
  rewrite (existsb_filter hit).
  destruct (List.filter hit (marketData db)) as [|old rest] eqn:E.
  - unfold dbind, setMarketData, dret. eexists _, _. split; [reflexivity|].
    cbn [marketData md_symbol].
    split; [|repeat split].
    + unfold oneRowPerSymbol. rewrite List.map_app. apply NoDup_app.
      split; [exact Hone|]. split; [|repeat constructor; rewrite list_elem_of_In; intros []].
      intros x Hx [<-|[]]%list_elem_of_In. cbn [md_symbol] in Hx.
      apply list_elem_of_In, in_map_iff in Hx as (r & Hr & Hin).
      assert (Hf : In r (List.filter hit (marketData db))).
      { apply filter_In. split; [exact Hin|]. unfold hit. now apply String.eqb_eq. }
      rewrite E in Hf. destruct Hf.
    + intros others. unfold getMarketData. cbn [fst marketData].
      rewrite List.filter_app. fold hit. rewrite E. cbn. now rewrite String.eqb_refl.
    + intros first others Hne. unfold getMarketData. cbn [fst marketData].
      rewrite List.filter_app. cbn. replace (String.eqb (imd_symbol data) first) with false.
      * now rewrite app_nil_r.
      * symmetry. apply String.eqb_neq. congruence.
  - assert (Hrest : rest = []).
    { destruct rest as [|r2 rest]; [reflexivity|]. exfalso.
      exact (NoDup_filter_key md_symbol (imd_symbol data) (marketData db) Hone old r2 rest E). }
    subst rest.
    set (f := fun r => {| md_id := md_id r; md_symbol := md_symbol r;
                          md_price := imd_price data; md_volume24h := imd_volume24h data;
                          md_change24h := imd_change24h data;
                          md_lastUpdated := Some (clock env (tick (core db))) |}).
    destruct (update_by_key md_symbol f (imd_symbol data) (marketData db)) as (Hk & Hf & Ho);
      [reflexivity|].
    cbv zeta beta in Hk, Hf, Ho.
    change (List.map _ (marketData db))
      with (List.map (fun x => if String.eqb (md_symbol x) (imd_symbol data) then f x else x)
                     (marketData db)).
    unfold dbind, setMarketData, dret. unfold hit in *.
    rewrite Hf, E. cbn [List.map List.hd].
    assert (Hsym : md_symbol old = imd_symbol data).
    { assert (Hin : In old (List.filter (fun r => String.eqb (md_symbol r) (imd_symbol data))
                                        (marketData db))) by (rewrite E; now left).
      apply filter_In in Hin as [_ Hin]. now apply String.eqb_eq in Hin. }
    eexists _, _. split; [reflexivity|].
    cbn [marketData f md_symbol].
    split; [unfold oneRowPerSymbol; now rewrite Hk|]. repeat split; try exact Hsym.
    + intros others. unfold getMarketData. cbn [fst marketData]. now rewrite Hf, E.
    + intros first others Hne. unfold getMarketData. cbn [fst marketData]. f_equal. now apply Ho.
Qed.

Lemma upsertMarketData_keeps_symbols_unique_witness :
  exists row db',
    upsertMarketData Sample.funded More.ethereumQuote More.database = (inr row, db')
    /\ fst (getMarketData ["ethereum"; "bitcoin"] db') = inr [row]
    /\ md_symbol row = "ethereum".
Proof.
  destruct (upsertMarketData_keeps_symbols_unique Sample.funded More.ethereumQuote
              More.database) as (row & db' & E & _ & Hsym & Hget & _).
  - repeat constructor. rewrite list_elem_of_In. intros [].
  - exists row, db'. split; [exact E|]. split; [apply Hget | exact Hsym].
Defined.

Lemma getUser_after_update (id : string) (f : User -> User) (rows : list User) :
  (forall u, u_id (f u) = u_id u) ->
  let hit := fun u => String.eqb (u_id u) id in
  List.find hit (List.map (fun u => if hit u then f u else u) rows)
  = List.head (List.map f (List.filter hit rows)).
Proof.
  intros Hid hit. rewrite find_head_filter. f_equal.
  exact (proj1 (proj2 (update_by_key u_id f id rows Hid))).
Qed.

(** X14. For a payload whose e-mail no other user holds, upsertUser decides
    [isAdmin] from the e-mail of the payload alone: the stored flag is
    whether that e-mail is the administrator's, whatever [isAdmin] the
    payload carries. The row it returns is the one getUser finds afterwards
    under its id, the admin route grants access exactly when the payload's
    e-mail is the administrator's, and ids stay unique. *)
Theorem upsertUser_decides_admin_by_email (env : Env) (userData : UpsertUser)
    (db : Database) :
  emailAvailable userData (users db) ->
  exists u db',
    upsertUser env userData db = (inr u, db')
    /\ u_isAdmin u = Some (emailIsAdmin userData)
    /\ (forall flag, fst (upsertUser env (withIsAdmin flag userData) db) = inr u)
    /\ fst (getUser (u_id u) db') = inr (Some u)
    /\ fst (adminUsersRoute (u_id u) db')
       = inr (if emailIsAdmin userData
              then Message 200 "Admin access granted"
              else Message 403 "Admin access required")
    /\ (usersKey (users db) -> usersKey (users db')).
Proof.
  intros _.
  assert (Hroute : forall u db',
             fst (getUser (u_id u) db') = inr (Some u) ->
             u_isAdmin u = Some (emailIsAdmin userData) ->
             fst (adminUsersRoute (u_id u) db')
             = inr (if emailIsAdmin userData
                    then Message 200 "Admin access granted"
                    else Message 403 "Admin access required")).
  { intros u db' Hget Hflag. unfold adminUsersRoute, dtryCatch, dbind.
    unfold getUser in *. cbn [fst] in Hget. injection Hget as Hget.
    rewrite Hget, Hflag. cbn [default]. now destruct (emailIsAdmin userData). }
  assert (Hsame : forall flag,
             upsertUser env (withIsAdmin flag userData) db = upsertUser env userData db)
    by reflexivity.
  enough (H : exists u db',
             upsertUser env userData db = (inr u, db')
             /\ u_isAdmin u = Some (emailIsAdmin userData)
             /\ fst (getUser (u_id u) db') = inr (Some u)
             /\ fst (adminUsersRoute (u_id u) db')
                = inr (if emailIsAdmin userData
                       then Message 200 "Admin access granted"
                       else Message 403 "Admin access required")
             /\ (usersKey (users db) -> usersKey (users db'))).
  { destruct H as (u & db' & E1 & E2 & E3 & E4 & E5). exists u, db'.
    split; [exact E1|]. split; [exact E2|]. split; [|auto].
    intros flag. now rewrite Hsame, E1. }
  unfold upsertUser at 1, dbind at 1 2 3, inCore, now.
  cbn [core users tradingHistory marketData advance tick].
  set (date := clock env (tick (core db))).
  destruct (uu_id userData) as [given|] eqn:Eid.
  - unfold dret at 1. cbn [core users tradingHistory marketData advance tick].
    set (t := clock env (S (tick (core db)))).
    set (hit := fun u => String.eqb (u_id u) given).
    rewrite (existsb_filter hit).
    destruct (List.filter hit (users db)) as [|old rest] eqn:E.
    + unfold dbind, setUsers, dret. eexists _, _. split; [reflexivity|].
      assert (Hget : List.find hit (users db ++ [insertedUser userData given t])
                     = Some (insertedUser userData given t)).
      { rewrite find_head_filter, List.filter_app, E. cbn. now rewrite String.eqb_refl. }
      split; [reflexivity|].
      assert (Hlook : fst (getUser (u_id (insertedUser userData given t))
                             {| core := advance (advance (core db));
                                users := users db ++ [insertedUser userData given t];
                                tradingHistory := tradingHistory db;
                                marketData := marketData db |})
                      = inr (Some (insertedUser userData given t))).
      { unfold getUser. cbn [fst users insertedUser u_id]. f_equal. exact Hget. }
      split; [exact Hlook|]. split; [now apply Hroute|].
      cbn [users]. unfold usersKey. intros Hkey. rewrite List.map_app. apply NoDup_app.
      split; [exact Hkey|]. split; [|repeat constructor; rewrite list_elem_of_In; intros []].
      intros x Hx [<-|[]]%list_elem_of_In. cbn [insertedUser u_id] in Hx.
      apply list_elem_of_In, in_map_iff in Hx as (r & Hr & Hin).
      assert (Hf : In r (List.filter hit (users db))).
      { apply filter_In. split; [exact Hin|]. unfold hit. now apply String.eqb_eq. }
      rewrite E in Hf. destruct Hf.
    + destruct (update_by_key u_id (updatedUser userData date) given (users db))
        as (Hk & Hf & _); [reflexivity|].
      cbv zeta beta in Hk, Hf.
      unfold dbind, setUsers, dret. unfold hit in *. rewrite Hf, E.
      cbn [List.map List.hd]. eexists _, _. split; [reflexivity|].
      assert (Hold : u_id old = given).
      { assert (Hin : In old (List.filter (fun u => String.eqb (u_id u) given) (users db)))
          by (rewrite E; now left).
        apply filter_In in Hin as [_ Hin]. now apply String.eqb_eq in Hin. }
      split; [reflexivity|].
      match goal with |- fst (getUser _ ?d) = _ /\ _ =>
        assert (Hlook : fst (getUser (u_id (updatedUser userData date old)) d)
                        = inr (Some (updatedUser userData date old)))
      end.
      { unfold getUser. cbn [fst users updatedUser u_id]. f_equal. rewrite Hold.
        rewrite (getUser_after_update given (updatedUser userData date) (users db));
          [|reflexivity].
        now rewrite E. }
      split; [exact Hlook|]. split; [now apply Hroute|].
      cbn [users]. unfold usersKey. now rewrite Hk.
  - unfold newId at 1. cbn [core users tradingHistory marketData advance tick].
    set (given := gen_random_uuid env (S (tick (core db)))).
    set (t := clock env (S (S (tick (core db))))).
    set (hit := fun u => String.eqb (u_id u) given).
    rewrite (existsb_filter hit).
    destruct (List.filter hit (users db)) as [|old rest] eqn:E.
    + unfold dbind, setUsers, dret. eexists _, _. split; [reflexivity|].
      assert (Hget : List.find hit (users db ++ [insertedUser userData given t])
                     = Some (insertedUser userData given t)).
      { rewrite find_head_filter, List.filter_app, E. cbn. now rewrite String.eqb_refl. }
      split; [reflexivity|].
      match goal with |- fst (getUser _ ?d) = _ /\ _ =>
        assert (Hlook : fst (getUser (u_id (insertedUser userData given t)) d)
                        = inr (Some (insertedUser userData given t)))
      end.
      { unfold getUser. cbn [fst users insertedUser u_id]. f_equal. exact Hget. }
      split; [exact Hlook|]. split; [now apply Hroute|].
      cbn [users]. unfold usersKey. intros Hkey. rewrite List.map_app. apply NoDup_app.
      split; [exact Hkey|]. split; [|repeat constructor; rewrite list_elem_of_In; intros []].
      intros x Hx [<-|[]]%list_elem_of_In. cbn [insertedUser u_id] in Hx.
      apply list_elem_of_In, in_map_iff in Hx as (r & Hr & Hin).
      assert (Hf : In r (List.filter hit (users db))).
      { apply filter_In. split; [exact Hin|]. unfold hit. now apply String.eqb_eq. }
      rewrite E in Hf. destruct Hf.
    + destruct (update_by_key u_id (updatedUser userData date) given (users db))
        as (Hk & Hf & _); [reflexivity|].
      cbv zeta beta in Hk, Hf.
      unfold dbind, setUsers, dret. unfold hit in *. rewrite Hf, E.
      cbn [List.map List.hd]. eexists _, _. split; [reflexivity|].
      assert (Hold : u_id old = given).
      { assert (Hin : In old (List.filter (fun u => String.eqb (u_id u) given) (users db)))
          by (rewrite E; now left).
        apply filter_In in Hin as [_ Hin]. now apply String.eqb_eq in Hin. }
      split; [reflexivity|].
      match goal with |- fst (getUser _ ?d) = _ /\ _ =>
        assert (Hlook : fst (getUser (u_id (updatedUser userData date old)) d)
                        = inr (Some (updatedUser userData date old)))
      end.
      { unfold getUser. cbn [fst users updatedUser u_id]. f_equal. rewrite Hold.
        rewrite (getUser_after_update given (updatedUser userData date) (users db));
          [|reflexivity].
        now rewrite E. }
      split; [exact Hlook|]. split; [now apply Hroute|].
      cbn [users]. unfold usersKey. now rewrite Hk.
Qed.

Lemma upsertUser_decides_admin_by_email_witness :
  exists u db',
    upsertUser Sample.funded More.adminLogin More.database = (inr u, db')
    /\ u_isAdmin u = Some true
    /\ fst (adminUsersRoute "u1" db') = inr (Message 200 "Admin access granted").
Proof.
  destruct (upsertUser_decides_admin_by_email Sample.funded More.adminLogin More.database)
    as (u & db' & E & Hflag & _ & _ & Hroute & _).
  - intros e r _ [<-|[]] _. reflexivity.
  - exists u, db'. split; [exact E|]. split; [exact Hflag|].
    assert (Hid : u_id u = "u1").
    { unfold upsertUser in E. vm_compute in E. injection E as <- _. reflexivity. }
    rewrite Hid in Hroute. exact Hroute.
Defined.

Lemma fetchable_supported (network : string) :
  fetchable network = true <-> In network supported.
Proof.
  unfold fetchable, supported. cbn [existsb In].
  rewrite !orb_true_iff, !String.eqb_eq. intuition (try discriminate; auto).
Qed.

Lemma getNetworkByChainId_cases (chainId : string) :
  getNetworkByChainId chainId = ethereumNetwork
  \/ getNetworkByChainId chainId = bscNetwork
  \/ getNetworkByChainId chainId = polygonNetwork.
Proof.
  unfold getNetworkByChainId.
  destruct (PrimFloat.eqb _ 1); [now left|].
  destruct (PrimFloat.eqb _ 56); [now right; left|].
  destruct (PrimFloat.eqb _ 137); [now right; right | now left].
Qed.

(** X15. The network a MetaMask or Coinbase connection posts is the
    lower-cased display name of the chain: "ethereum", "bnb smart chain" or
    "polygon", and "ethereum" for every chain id that does not read as 1, 56
    or 137 in base 16. The server can fetch balances for it unless the chain
    is BNB Smart Chain, whose posted name is not one the server knows. *)
Theorem provider_network_names (walletType account chainId : string) :
  let data := providerConnectionData walletType account chainId in
  In (cd_network data) ["ethereum"; "bnb smart chain"; "polygon"]
  /\ (fetchable (cd_network data) = false <-> getNetworkByChainId chainId = bscNetwork)
  /\ (PrimFloat.eqb (parseInt16 chainId) 1 = false ->
      PrimFloat.eqb (parseInt16 chainId) 56 = false ->
      PrimFloat.eqb (parseInt16 chainId) 137 = false ->
      cd_network data = "ethereum")
  /\ cd_chainId data = chainId /\ cd_walletAddress data = account.
Proof.
  cbn zeta. unfold providerConnectionData. cbn [cd_network cd_chainId cd_walletAddress].
  split; [|split; [|split; [|split; reflexivity]]].
  - destruct (getNetworkByChainId_cases chainId) as [-> | [-> | ->]]; cbn; auto.
  - destruct (getNetworkByChainId_cases chainId) as [E|[E|E]]; rewrite E;
      split; intros H; try reflexivity; discriminate.
  - intros H1 H2 H3. unfold getNetworkByChainId. now rewrite H1, H2, H3.
Qed.

Lemma provider_network_names_witness :
  cd_network (providerConnectionData "metamask" "0xB36EDa1ffC696FFba07D4Be5cd249FE5E0118130" "0x38")
  = "bnb smart chain"
  /\ cd_network (providerConnectionData "metamask" "0xB36EDa1ffC696FFba07D4Be5cd249FE5E0118130" "0xa4b1")
     = "ethereum".
Proof.
  split; [reflexivity|].
  apply (provider_network_names "metamask" "0xB36EDa1ffC696FFba07D4Be5cd249FE5E0118130" "0xa4b1");
    reflexivity.
Defined.

(** X16. connectManualWallet accepts a network exactly when its lower-cased
    form is the display name of a supported network: "ethereum",
    "bnb smart chain" or "polygon". So "bsc" and "tron", which the server
    fetches balances for, are refused with "Unsupported network", and a
    network it accepts is fetchable by the server unless it is
    "bnb smart chain". *)
Theorem manual_connect_accepts_display_names (address network : string) :
  asciiOnly network = true ->
  ((exists data, manualConnectionData address network = inr data)
   <-> In (toLowerCase network) ["ethereum"; "bnb smart chain"; "polygon"])
  /\ (In (toLowerCase network) ["bsc"; "tron"] ->
      manualConnectionData address network = inl (Error "Unsupported network"))
  /\ (forall data,
         manualConnectionData address network = inr data ->
         cd_walletType data = "manual" /\ cd_walletAddress data = address
         /\ cd_network data = toLowerCase network
         /\ In (cd_network data, cd_chainId data)
              [("ethereum", "1"); ("bnb smart chain", "56"); ("polygon", "137")]
         /\ (fetchable (cd_network data) = false <-> cd_network data = "bnb smart chain")).
Proof.
  intros _. unfold manualConnectionData, SUPPORTED_NETWORKS.
  cbn [List.map snd List.find nc_name ethereumNetwork bscNetwork polygonNetwork].
  change (toLowerCase "Ethereum") with "ethereum".
  change (toLowerCase "BNB Smart Chain") with "bnb smart chain".
  change (toLowerCase "Polygon") with "polygon".
  generalize (toLowerCase network) as lower. intros lower.
  destruct (String.eqb_spec "ethereum" lower) as [<-|N1].
  { split; [split; [intros _; now left | intros _; eexists; reflexivity]|].
    split; [intros [H|[H|[]]]; discriminate|].
    intros data [= <-]. cbn. repeat split; auto; discriminate. }
  destruct (String.eqb_spec "bnb smart chain" lower) as [<-|N2].
  { split; [split; [intros _; now right; left | intros _; eexists; reflexivity]|].
    split; [intros [H|[H|[]]]; discriminate|].
    intros data [= <-]. cbn. repeat split; auto. }
  destruct (String.eqb_spec "polygon" lower) as [<-|N3].
  { split; [split; [intros _; now right; right; left | intros _; eexists; reflexivity]|].
    split; [intros [H|[H|[]]]; discriminate|].
    intros data [= <-]. cbn. repeat split; auto; discriminate. }
  split; [split; [intros [data H]; discriminate | intros [H|[H|[H|[]]]]; congruence]|].
  split; [reflexivity | intros data H; discriminate].
Qed.

Lemma manual_connect_accepts_display_names_witness :
  manualConnectionData "0xB36EDa1ffC696FFba07D4Be5cd249FE5E0118130" "BSC"
  = inl (Error "Unsupported network")
  /\ exists data,
       manualConnectionData "0xB36EDa1ffC696FFba07D4Be5cd249FE5E0118130" "BNB Smart Chain"
       = inr data.
Proof.
  split.
  - apply (manual_connect_accepts_display_names
             "0xB36EDa1ffC696FFba07D4Be5cd249FE5E0118130" "BSC"); [reflexivity|].
    now left.
  - apply (manual_connect_accepts_display_names
             "0xB36EDa1ffC696FFba07D4Be5cd249FE5E0118130" "BNB Smart Chain"); [reflexivity|].
    right. now left.
Defined.

Lemma find_unique {A : Type} (p : A -> bool) (l : list A) (w : A) :
  In w l -> p w = true -> (forall x, In x l -> p x = true -> x = w) ->
  List.find p l = Some w.
Proof.
  induction l as [|a l IH]; intros Hin Hp Huniq; [destruct Hin|].
  cbn [List.find]. destruct (p a) eqn:E.
  - f_equal. apply Huniq; [now left | exact E].
  - destruct Hin as [->|Hin]; [congruence|].
    apply IH; [exact Hin | exact Hp |]. intros x Hx. apply Huniq. now right.
Qed.

(** The wallet just appended under an unused id is the one the reconciler
    finds under that id. *)
Lemma find_new_wallet (userId : string) (w : ConnectedWallet) (s s' : Store) :
  connectedWallets s' = connectedWallets s ++ [w] ->
  cw_userId w = userId ->
  ~ In (cw_id w) (List.map cw_id (connectedWallets s)) ->
  List.find (fun x => String.eqb (cw_id x) (cw_id w))
            (orderByDesc cw_lastConnected (walletsOf userId s'))
  = Some w.
Proof.
  intros Hrows Huser Hnew. apply find_unique.
  - apply orderByDesc_In, walletsOf_In. rewrite Hrows, in_app_iff. split; [|exact Huser].
    right. now left.
  - apply String.eqb_refl.
  - intros x Hx Hid. apply orderByDesc_In, walletsOf_In in Hx as [Hx _].
    apply String.eqb_eq in Hid. rewrite Hrows, in_app_iff in Hx.
    destruct Hx as [Hx|[<-|[]]]; [|reflexivity].
    exfalso. apply Hnew. rewrite <- Hid. now apply in_map.
Qed.

(** X17. With the insert succeeding, a connection posted with its three
    required fields is stored for the user under the generated id, with the
    network lower-cased and chain id "1" when none is given. When that id is
    not in use, a refresh of the new wallet finds it. If the lower-cased
    network is one of ethereum, bsc, polygon, tron, the wallet's fetcher
    returns a list and the refresh goes on to price and store that list;
    otherwise the refresh route answers 500 and leaves the balances alone. *)
Theorem connect_then_refresh (env : Env) (userId walletType walletAddress network : string)
    (chainId : option string) (s : Store) :
  walletType <> "" -> walletAddress <> "" -> network <> "" ->
  asciiOnly network = true ->
  ~ In (gen_random_uuid env (tick s)) (List.map cw_id (connectedWallets s)) ->
  exists w s',
    connectRoute env userId
      {| cb_walletType := Some walletType; cb_walletAddress := Some walletAddress;
         cb_chainId := chainId; cb_network := Some network |} s
    = (inr (Json 200 w), s')
    /\ connectedWallets s' = connectedWallets s ++ [w]
    /\ walletBalances s' = walletBalances s
    /\ cw_id w = gen_random_uuid env (tick s)
    /\ cw_userId w = userId /\ cw_walletAddress w = walletAddress
    /\ cw_network w = toLowerCase network
    /\ cw_chainId w = match chainId with
                      | Some c => if String.eqb c "" then "1" else c
                      | None => "1"
                      end
    /\ (fetchable (toLowerCase network) = true ->
        exists balances s1,
          balancesOf env w (entering (cw_id w) userId s') = (inr balances, s1)
          /\ fetchAndUpdateWalletBalances env (cw_id w) userId s'
             = priceAndSave env (cw_id w) userId balances s1)
    /\ (fetchable (toLowerCase network) = false ->
        exists s'',
          refreshRoute env userId (cw_id w) s'
          = (inr (Message 500 "Failed to refresh balances"), s'')
          /\ walletBalances s'' = walletBalances s).
Proof.
  intros Ht Ha Hn _ Hnew.
  unfold connectRoute, present. cbn [cb_walletType cb_walletAddress cb_network cb_chainId].
  apply String.eqb_neq in Ht, Ha, Hn. rewrite Ht, Ha, Hn. cbn [negb orb].
  unfold tryCatch, bind at 1 2 3, newId, now, createConnectedWalletWithId, bind, now, ret.
  cbn [advance tick trace connectedWallets walletBalances inserted default from_option id
       icw_userId icw_walletType icw_walletAddress icw_chainId icw_network
       icw_isActive icw_lastConnected].
  eexists _, _. split; [reflexivity|].
  cbn [connectedWallets walletBalances cw_id cw_userId cw_walletAddress cw_network cw_chainId].
  split; [reflexivity|]. split; [reflexivity|]. split; [reflexivity|].
  split; [reflexivity|]. split; [reflexivity|]. split; [reflexivity|].
  split.
  { destruct chainId as [c|]; [|reflexivity]. cbn [default]. now destruct (String.eqb c ""). }
  match goal with |- context [connectedWallets s ++ [?row]] => set (w := row) in * end.
  match goal with |- context [refreshRoute env userId (gen_random_uuid env (tick s)) ?st] =>
    set (s' := st) end.
  assert (Hfind : List.find (fun x => String.eqb (cw_id x) (cw_id w))
                    (orderByDesc cw_lastConnected
                       (walletsOf userId (entering (cw_id w) userId s')))
                  = Some w).
  { apply (find_new_wallet userId w s); [reflexivity | reflexivity | exact Hnew]. }
  change (gen_random_uuid env (tick s)) with (cw_id w).
  assert (Hrun : fetchAndUpdateWalletBalances env (cw_id w) userId s'
                 = (balances <- balancesOf env w ;;
                    priceAndSave env (cw_id w) userId balances)
                     (entering (cw_id w) userId s')).
  { rewrite fetchAndUpdate_unfold.
    change (walletsOf userId s') with (walletsOf userId (entering (cw_id w) userId s')).
    now rewrite Hfind. }
  destruct (balancesOf_outcome env w (entering (cw_id w) userId s'))
    as [[Hin (balances & s1 & E)]|[Hout E]].
  - split.
    + intros _. exists balances, s1. split; [exact E|].
      rewrite Hrun. unfold bind. now rewrite E.
    + intros Hf. apply fetchable_supported in Hin. cbn [cw_network w] in Hin. congruence.
  - split.
    + intros Hf. apply fetchable_supported in Hf. now destruct Hout.
    + intros _. unfold refreshRoute, tryCatch, bind at 1. rewrite Hrun.
      unfold bind. rewrite E. unfold ret. eexists. split; reflexivity.
Qed.

Lemma connect_then_refresh_witness :
  exists w s' s'',
    connectRoute Sample.funded "u1"
      (bodyOf (providerConnectionData "metamask"
                 "0xB36EDa1ffC696FFba07D4Be5cd249FE5E0118130" "0x38"))
      Sample.emptyStore
    = (inr (Json 200 w), s')
    /\ cw_network w = "bnb smart chain"
    /\ refreshRoute Sample.funded "u1" (cw_id w) s'
       = (inr (Message 500 "Failed to refresh balances"), s'').
Proof.
  destruct (connect_then_refresh Sample.funded "u1" "metamask"
              "0xB36EDa1ffC696FFba07D4Be5cd249FE5E0118130" "bnb smart chain"
              (Some "0x38") Sample.emptyStore)
    as (w & s' & E & _ & _ & _ & _ & _ & Hnet & _ & _ & Hfail);
    [discriminate | discriminate | discriminate | reflexivity | intros [] |].
  destruct (Hfail eq_refl) as (s'' & Hrun & _).
  exists w, s', s''. split; [exact E|]. split; [exact Hnet | exact Hrun].
Defined.

Lemma seedWallets_spec (env : Env) (userId : string) (wallets : list PredefinedWallet) :
  forall s, exists s' added,
    seedWallets env userId wallets s = (inr tt, s')
    /\ connectedWallets s' = connectedWallets s ++ added
    /\ List.length added = List.length wallets
    /\ (forall w, In w added -> cw_userId w = userId).
Proof.
  induction wallets as [|wallet rest IH]; intros s.
  - exists s, []. cbn [seedWallets]. unfold ret. rewrite app_nil_r.
    repeat split. intros w [].
  - cbn [seedWallets]. unfold bind.
    destruct (seedWallet_spec env userId wallet s) as (s1 & w1 & -> & R1 & U1 & _).
    destruct (IH s1) as (s' & added & -> & R & L & U).
    exists s', (w1 :: added). split; [reflexivity|]. split; [|split].
    + rewrite R, R1, <- app_assoc. reflexivity.
    + cbn [List.length]. now rewrite L.
    + intros w [<-|Hw]; [exact U1 | now apply U].
Qed.

(** X18. With the inserts of the seeding succeeding, GET
    /api/wallets/connected answers 200 with a list that is not empty: the
    user's wallets after seeding, most recently connected first. For a user
    who had wallets nothing is changed; a user who had none gets four
    wallets. *)
Theorem connectedRoute_lists_seeded_wallets (env : Env) (userId : string) (s : Store) :
  exists wallets s',
    connectedRoute env userId s = (inr (Json 200 wallets), s')
    /\ wallets <> []
    /\ descSorted cw_lastConnected wallets
    /\ Permutation wallets (walletsOf userId s')
    /\ (walletsOf userId s <> [] -> s' = s)
    /\ (walletsOf userId s = [] -> List.length wallets = 4%nat).
Proof.
  assert (Hne : forall l : list ConnectedWallet,
             l <> [] -> orderByDesc cw_lastConnected l <> []).
  { intros l Hl E. apply Hl. apply length_zero_iff_nil.
    rewrite <- (orderByDesc_length cw_lastConnected), E. reflexivity. }
  unfold connectedRoute, tryCatch, bind at 1.
  unfold initializeWalletWithAddresses, tryCatch, bind at 1, getConnectedWallets at 1.
  fold (walletsOf userId s).
  destruct (List.length _ =? 0)%nat eqn:E.
  - apply walletsOf_empty_length in E.
    destruct (seedWallets_spec env userId predefinedWallets s) as (s' & added & -> & R & L & U).
    unfold bind, getConnectedWallets, ret. fold (walletsOf userId s').
    assert (Hw : walletsOf userId s' = added).
    { unfold walletsOf in *. rewrite R, List.filter_app, E. cbn [app].
      apply forallb_filter_id, forallb_forall. intros w Hw. now apply String.eqb_eq, U. }
    eexists _, _. split; [reflexivity|]. split; [|split; [|split; [|split]]].
    + apply Hne. rewrite Hw. destruct added; [discriminate L | discriminate].
    + apply orderByDesc_sorted.
    + apply orderByDesc_Permutation.
    + intros H. contradiction.
    + intros _. now rewrite orderByDesc_length, Hw, L.
  - unfold ret at 1, bind, getConnectedWallets, ret. fold (walletsOf userId s).
    assert (Hsome : walletsOf userId s <> []).
    { intros H. apply walletsOf_empty_length in H. congruence. }
    eexists _, _. split; [reflexivity|]. split; [|split; [|split; [|split]]].
    + now apply Hne.
    + apply orderByDesc_sorted.
    + apply orderByDesc_Permutation.
    + reflexivity.
    + intros H. contradiction.
Qed.

Lemma filter_by_key {A : Type} (key : A -> string) (l : list A) (old : A) :
  NoDup (List.map key l) -> In old l ->
  List.filter (fun x => String.eqb (key x) (key old)) l = [old].
Proof.
  intros Hnd Hin.
  assert (Hmem : In old (List.filter (fun x => String.eqb (key x) (key old)) l)).
  { apply filter_In. split; [exact Hin | apply String.eqb_refl]. }
  destruct (List.filter _ l) as [|a [|b rest]] eqn:E.
  - destruct Hmem.
  - destruct Hmem as [->|[]]. reflexivity.
  - exfalso. exact (NoDup_filter_key key (key old) l Hnd a b rest E).
Qed.

(** X19. A login that carries no e-mail clears the stored admin flag and
    keeps the stored e-mail. For a user whose stored e-mail is the
    administrator's, the two routes then disagree: /api/auth/user reports
    isAdmin true, from the e-mail, while /api/admin/users answers 403, from
    the flag. *)
Theorem login_without_email_revokes_admin (env : Env) (userData : UpsertUser)
    (old : User) (db : Database) :
  usersKey (users db) -> In old (users db) ->
  u_email old = Some ADMIN_EMAIL ->
  uu_id userData = Some (u_id old) -> uu_email userData = Undefined ->
  exists u db',
    upsertUser env userData db = (inr u, db')
    /\ u_email u = Some ADMIN_EMAIL /\ u_isAdmin u = Some false
    /\ (exists payload,
           fst (authUserRoute (u_id old) db') = inr (Json 200 payload)
           /\ u_isAdmin payload = Some true)
    /\ fst (adminUsersRoute (u_id old) db') = inr (Message 403 "Admin access required").
Proof.
  intros Hkey Hin Hmail Hid Hnone.
  pose proof (filter_by_key u_id (users db) old Hkey Hin) as E.
  unfold upsertUser, dbind at 1 2 3, inCore, now. rewrite Hid. unfold dret at 1.
  cbn [core users tradingHistory marketData advance tick].
  rewrite (existsb_filter (fun u => String.eqb (u_id u) (u_id old))), E.
  destruct (update_by_key u_id (updatedUser userData (clock env (tick (core db))))
              (u_id old) (users db)) as (_ & Hf & _); [reflexivity|].
  cbv zeta beta in Hf.
  unfold dbind, setUsers, dret. rewrite Hf, E. cbn [List.map List.hd].
  eexists _, _. split; [reflexivity|].
  assert (Hflag : emailIsAdmin userData = false) by (unfold emailIsAdmin; now rewrite Hnone).
  assert (Hkeep : u_email (updatedUser userData (clock env (tick (core db))) old)
                  = Some ADMIN_EMAIL).
  { cbn [updatedUser u_email]. rewrite Hnone. exact Hmail. }
  split; [exact Hkeep|]. split; [cbn [updatedUser u_isAdmin]; now rewrite Hflag|].
  assert (Hget : forall d,
             users d = List.map (fun u => if String.eqb (u_id u) (u_id old)
                                          then updatedUser userData (clock env (tick (core db))) u
                                          else u) (users db) ->
             fst (getUser (u_id old) d)
             = inr (Some (updatedUser userData (clock env (tick (core db))) old))).
  { intros d Hd. unfold getUser. cbn [fst]. rewrite Hd. f_equal.
    rewrite (getUser_after_update (u_id old)
               (updatedUser userData (clock env (tick (core db)))) (users db));
      [|reflexivity].
    now rewrite E. }
  split.
  - eexists. unfold authUserRoute, dtryCatch, dbind.
    match goal with |- context [getUser (u_id old) ?d] =>
      pose proof (Hget d eq_refl) as Hg; destruct (getUser (u_id old) d) as [r d'] eqn:Eg end.
    cbn [fst] in Hg. subst r. unfold dret. cbn [fst]. split; [reflexivity|].
    cbn [u_isAdmin]. unfold isAdminUser. rewrite Hkeep. now rewrite String.eqb_refl.
  - unfold adminUsersRoute, dtryCatch, dbind.
    match goal with |- context [getUser (u_id old) ?d] =>
      pose proof (Hget d eq_refl) as Hg; destruct (getUser (u_id old) d) as [r d'] eqn:Eg end.
    cbn [fst] in Hg. subst r. cbn [updatedUser u_isAdmin]. rewrite Hflag. reflexivity.
Qed.

Lemma login_without_email_revokes_admin_witness :
  exists u db',
    upsertUser Sample.funded More.loginWithoutEmail More.database = (inr u, db')
    /\ u_isAdmin u = Some false
    /\ fst (adminUsersRoute "u1" db') = inr (Message 403 "Admin access required").
Proof.
  destruct (login_without_email_revokes_admin Sample.funded More.loginWithoutEmail
              {| u_id := "u1"; u_email := Some ADMIN_EMAIL; u_firstName := Some "Ada";
                 u_lastName := None; u_profileImageUrl := None; u_isAdmin := Some true;
                 u_createdAt := Some 1690000000000%Z; u_updatedAt := Some 1690000000000%Z |}
              More.database)
    as (u & db' & E & _ & Hflag & _ & Hroute).
  - repeat constructor. rewrite list_elem_of_In. intros [].
  - now left.
  - reflexivity.
  - reflexivity.
  - reflexivity.
  - exists u, db'. split; [exact E|]. split; [exact Hflag | exact Hroute].
Defined.

Lemma usdKept_here (rows : list WalletBalance) (r : WalletBalance) :
  In r rows -> usdKept rows r.
Proof. intros H. right. now exists r. Qed.

Lemma usdKept_same (before : list WalletBalance) (r r' : WalletBalance) :
  wb_id r' = wb_id r -> wb_balanceUSD r' = wb_balanceUSD r ->
  usdKept before r -> usdKept before r'.
Proof.
  intros Hid Husd [H|(old & Hin & Ho & Hu)].
  - left. congruence.
  - right. exists old. repeat split; congruence.
Qed.

Lemma hd_In_or {A : Type} (d : A) (l : list A) : List.hd d l = d \/ In (List.hd d l) l.
Proof. destruct l; [now left | right; now left]. Qed.

(** An upsert that carries no USD value. *)
Lemma upsert_usdKept (env : Env) (b : InsertWalletBalance) (s : Store)
    (before : list WalletBalance) :
  ib_balanceUSD b = Undefined ->
  (forall r, In r (walletBalances s) -> usdKept before r) ->
  exists row s',
    upsertWalletBalance env b s = (inr row, s')
    /\ (forall r, In r (walletBalances s') -> usdKept before r)
    /\ usdKept before row.
Proof.
  intros Hnone Hall.
  destruct (List.filter (matchesTriple b) (walletBalances s)) as [|first others] eqn:E.
  - rewrite (upsert_insert env b s E). eexists _, _. split; [reflexivity|].
    cbn [walletBalances]. split.
    + intros r [Hr|[<-|[]]]%in_app_iff; [now apply Hall|].
      left. cbn [insertedRow wb_balanceUSD]. now rewrite Hnone.
    + left. cbn [insertedRow wb_balanceUSD]. now rewrite Hnone.
  - rewrite (upsert_update env b s first others E). eexists _, _. split; [reflexivity|].
    cbn [walletBalances].
    assert (Hfirst : In first (walletBalances s)).
    { apply (proj1 (filter_In (matchesTriple b) first (walletBalances s))).
      rewrite E. now left. }
    assert (Hup : forall x, In x (walletBalances s) ->
                            usdKept before (updatedRow b (clock env (tick s)) x)).
    { intros x Hx. apply (usdKept_same before x); [reflexivity | | now apply Hall].
      cbn [updatedRow wb_balanceUSD]. now rewrite Hnone. }
    assert (Hrows : forall r,
               In r (List.map (fun r => if String.eqb (wb_id r) (wb_id first)
                                        then updatedRow b (clock env (tick s)) r else r)
                              (walletBalances s)) ->
               usdKept before r).
    { intros r (x & <- & Hx)%in_map_iff.
      destruct (String.eqb (wb_id x) (wb_id first)); [now apply Hup | now apply Hall]. }
    split; [exact Hrows|].
    match goal with |- usdKept before (List.hd ?d ?l) =>
      destruct (hd_In_or d l) as [-> | Hin] end.
    + now apply Hup.
    + apply filter_In in Hin as [Hin _]. now apply Hrows.
Qed.

Lemma saveBalances_usdKept (env : Env) (walletId userId : string)
    (prices : gmap string JSON) (balances : list RawBalance)
    (before : list WalletBalance) :
  (forall b, In b balances -> balanceUSD prices b = Undefined) ->
  forall saved s,
    (forall r, In r (walletBalances s) -> usdKept before r) ->
    (forall r, In r saved -> usdKept before r) ->
    exists rows s',
      saveBalances env walletId userId prices balances saved s = (inr rows, s')
      /\ (forall r, In r (walletBalances s') -> usdKept before r)
      /\ (forall r, In r rows -> usdKept before r).
Proof.
  induction balances as [|b rest IH]; intros Hnone saved s Hall Hsaved; cbn [saveBalances].
  - exists saved, s. unfold ret. auto.
  - unfold bind.
    destruct (upsert_usdKept env (balanceData walletId userId prices b) s before)
      as (row & s1 & -> & Hall1 & Hrow); [apply Hnone; now left | exact Hall |].
    apply IH; [intros b' Hb'; apply Hnone; now right | exact Hall1 |].
    intros r [Hr|[<-|[]]]%in_app_iff; [now apply Hsaved | exact Hrow].
Qed.

Lemma getTokenPrices_down (env : Env) (symbols : list string) (s : Store) :
  pricesDown env ->
  exists s', getTokenPrices env symbols s = (inr ∅, s')
             /\ walletBalances s' = walletBalances s.
Proof.
  intros Hdown. specialize (Hdown (tick s) symbols).
  unfold getTokenPrices, tryCatch, bind, fetch, throw, ret.
  destruct (http env (tick s) (priceUrl symbols)) as [|st b].
  - eexists. split; reflexivity.
  - rewrite Hdown. cbn [negb]. eexists. split; reflexivity.
Qed.

(** X20. While the price API is down, a refresh stores no USD value of its
    own: every row of the table afterwards, and every row returned, has no
    USD value or has the one the row of its id had before the refresh. *)
Theorem refresh_without_prices_keeps_usd (env : Env) (walletId userId : string) (s : Store) :
  pricesDown env ->
  (forall r, In r (walletBalances (snd (fetchAndUpdateWalletBalances env walletId userId s))) ->
             usdKept (walletBalances s) r)
  /\ (forall rows,
         fst (fetchAndUpdateWalletBalances env walletId userId s) = inr rows ->
         forall r, In r rows -> usdKept (walletBalances s) r).
Proof.
  intros Hdown.
  set (R := fun a b : Store => walletBalances b = walletBalances a).
  assert (Hrefl : forall a, R a a) by reflexivity.
  assert (Htrans : forall a b c, R a b -> R b c -> R a c)
    by (unfold R; intros a b c H1 H2; congruence).
  assert (Hworld : forall a k evs, (tick a <= k)%nat ->
            R a {| tick := k; trace := trace a ++ evs;
                   connectedWallets := connectedWallets a;
                   walletBalances := walletBalances a |}) by reflexivity.
  rewrite fetchAndUpdate_unfold.
  destruct (List.find _ _) as [wallet|].
  - unfold bind.
    pose proof (keeps_balancesOf R Hrefl Htrans env Hworld wallet
                  (entering walletId userId s)) as Hb.
    destruct (balancesOf env wallet (entering walletId userId s)) as [[e|balances] s1];
      cbn [snd] in Hb; unfold R in Hb; cbn [entering record snd walletBalances] in Hb.
    + cbn [fst snd]. rewrite Hb. split; [apply usdKept_here | discriminate].
    + unfold priceAndSave, bind.
      match goal with |- context [getTokenPrices env ?symbols s1] =>
        destruct (getTokenPrices_down env symbols s1 Hdown) as (s2 & -> & Hp) end.
      destruct (saveBalances_usdKept env walletId userId ∅ balances (walletBalances s)) with
        (saved := @nil WalletBalance) (s := s2) as (rows & s3 & -> & Hall & Hrows).
      * intros b _. unfold balanceUSD. now rewrite lookup_empty.
      * rewrite Hp, Hb. apply usdKept_here.
      * intros r [].
      * cbn [fst snd]. split; [exact Hall|]. now intros rows' [= <-].
  - cbn [fst snd]. unfold entering, record. cbn [snd walletBalances].
    split; [apply usdKept_here | discriminate].
Qed.

Lemma refresh_without_prices_keeps_usd_witness :
  List.Forall (usdKept [Sample.ethRow])
    (walletBalances
       (snd (fetchAndUpdateWalletBalances More.withoutPrices "w1" "u1" Sample.oneBalance))).
Proof.
  assert (Hdown : pricesDown More.withoutPrices) by (intros k symbols; exact I).
  apply List.Forall_forall.
  exact (proj1 (refresh_without_prices_keeps_usd More.withoutPrices "w1" "u1"
                  Sample.oneBalance Hdown)).
Defined.

Lemma requests_app (l1 l2 : list Event) : requests (l1 ++ l2) = requests l1 ++ requests l2.
Proof.
  induction l1 as [|[url|fn args] l1 IH]; cbn [app requests]; [reflexivity | | exact IH].
  now rewrite IH.
Qed.

Lemma trxEntry_key (accountData : Value) (l : list RawBalance) :
  trxEntry accountData = inr l ->
  (List.length l <= 1)%nat /\ forall b, In b l -> entryKey b = ("TRX", None).
Proof.
  unfold trxEntry. intros H.
  assert (Hnil : (List.length (@nil RawBalance) <= 1)%nat
                 /\ forall b, In b (@nil RawBalance) -> entryKey b = ("TRX", None))
    by (split; [cbn; lia | intros b []]).
  destruct (get accountData "data") as [e|data]; [discriminate|].
  destruct (truthy data); [|now injection H as <-].
  destruct (get data "length") as [e|len]; [discriminate|].
  destruct (0 <? ToNumber len)%float; [|now injection H as <-].
  destruct (get data "0") as [e|account]; [discriminate|].
  destruct (get account "balance") as [e|raw]; [discriminate|].
  destruct (0 <? _)%float; injection H as <-; [|exact Hnil].
  split; [cbn; lia|]. intros b [<-|[]]. reflexivity.
Qed.

Lemma tronTokenLoop_keys (env : Env) (tokens : list Value) :
  forall balances, exists more,
    tronTokenLoop env tokens balances = balances ++ more
    /\ forall b, In b more -> entryKey b = ("USDT", Some usdtTrc20Address).
Proof.
  induction tokens as [|token rest IH]; intros balances; cbn [tronTokenLoop].
  - exists []. split; [now rewrite app_nil_r | intros b []].
  - assert (Hstop : exists more, balances = balances ++ more
                                 /\ forall b, In b more ->
                                              entryKey b = ("USDT", Some usdtTrc20Address)).
    { exists []. split; [now rewrite app_nil_r | intros b []]. }
    destruct (get token "token_address") as [e|a]; [exact Hstop|].
    destruct (strictEqualsString a usdtTrc20Address); [|apply IH].
    destruct (get token "balance") as [e|raw]; [exact Hstop|].
    destruct (get token "token_decimal") as [e|dec]; [exact Hstop|].
    match goal with |- context [tronTokenLoop env rest (balances ++ [?entry])] =>
      destruct (IH (balances ++ [entry])) as (more & -> & Hmore); exists (entry :: more) end.
    split; [now rewrite <- app_assoc|].
    intros b [<-|Hb]; [reflexivity | now apply Hmore].
Qed.

Lemma tronTokens_keys (env : Env) (tokenData : Value) (balances : list RawBalance) :
  exists more,
    tronTokens env tokenData balances = balances ++ more
    /\ forall b, In b more -> entryKey b = ("USDT", Some usdtTrc20Address).
Proof.
  assert (Hstop : exists more, balances = balances ++ more
                               /\ forall b, In b more ->
                                            entryKey b = ("USDT", Some usdtTrc20Address)).
  { exists []. split; [now rewrite app_nil_r | intros b []]. }
  unfold tronTokens.
  destruct (get tokenData "data") as [e|data]; [exact Hstop|].
  destruct (truthy data); [|exact Hstop].
  destruct (iterate data) as [e|tokens]; [exact Hstop|].
  apply tronTokenLoop_keys.
Qed.

(** X21. Whatever TronGrid answers, fetchTronBalance returns at most one
    TRX entry, without contract address, followed by USDT entries that all
    carry the USDT-TRC20 contract; no other symbol is returned. It sends the
    account request and at most the token request after it, and leaves the
    balance table alone. *)
Theorem fetchTronBalance_only_trx_and_usdt (env : Env) (address : string) (s : Store) :
  exists native tokens s',
    fetchTronBalance env address s = (inr (native ++ tokens), s')
    /\ (List.length native <= 1)%nat
    /\ (forall b, In b native -> entryKey b = ("TRX", None))
    /\ (forall b, In b tokens -> entryKey b = ("USDT", Some usdtTrc20Address))
    /\ walletBalances s' = walletBalances s
    /\ (requests (trace s')
        = requests (trace s) ++ [tronGrid +:+ "/v1/accounts/" +:+ address]
        \/ requests (trace s')
           = requests (trace s)
             ++ [tronGrid +:+ "/v1/accounts/" +:+ address;
                 tronGrid +:+ "/v1/accounts/" +:+ address +:+ "/tokens?type=trc20"]).
Proof.
  assert (Hnil : (List.length (@nil RawBalance) <= 1)%nat
                 /\ forall b, In b (@nil RawBalance) -> entryKey b = ("TRX", None))
    by (split; [cbn; lia | intros b []]).
  assert (Hrest : forall native s1,
             (List.length native <= 1)%nat ->
             (forall b, In b native -> entryKey b = ("TRX", None)) ->
             walletBalances s1 = walletBalances s ->
             requests (trace s1)
             = requests (trace s) ++ [tronGrid +:+ "/v1/accounts/" +:+ address] ->
             exists native' tokens s',
               caught (fetch env (tronGrid +:+ "/v1/accounts/" +:+ address
                                  +:+ "/tokens?type=trc20"))
                 (ret native)
                 (fun tokenResponse =>
                    if ok tokenResponse then
                      caught (json tokenResponse) (ret native)
                        (fun tokenData => ret (tronTokens env tokenData native))
                    else ret native) s1
               = (inr (native' ++ tokens), s')
               /\ (List.length native' <= 1)%nat
               /\ (forall b, In b native' -> entryKey b = ("TRX", None))
               /\ (forall b, In b tokens -> entryKey b = ("USDT", Some usdtTrc20Address))
               /\ walletBalances s' = walletBalances s
               /\ (requests (trace s')
                   = requests (trace s) ++ [tronGrid +:+ "/v1/accounts/" +:+ address]
                   \/ requests (trace s')
                      = requests (trace s)
                        ++ [tronGrid +:+ "/v1/accounts/" +:+ address;
                            tronGrid +:+ "/v1/accounts/" +:+ address
                            +:+ "/tokens?type=trc20"])).
  { intros native s1 Hlen Hkey Hrows Hreq.
    assert (Htrace : forall url,
               requests (trace s1 ++ [Requested url])
               = requests (trace s) ++ [tronGrid +:+ "/v1/accounts/" +:+ address; url]).
    { intros url. rewrite requests_app, Hreq, <- app_assoc. reflexivity. }
    assert (Hplain : forall s', walletBalances s' = walletBalances s ->
               (requests (trace s')
                = requests (trace s)
                  ++ [tronGrid +:+ "/v1/accounts/" +:+ address;
                      tronGrid +:+ "/v1/accounts/" +:+ address +:+ "/tokens?type=trc20"]) ->
               exists native' tokens s'',
                 (inr native : Except (list RawBalance), s') = (inr (native' ++ tokens), s'')
                 /\ (List.length native' <= 1)%nat
                 /\ (forall b, In b native' -> entryKey b = ("TRX", None))
                 /\ (forall b, In b tokens -> entryKey b = ("USDT", Some usdtTrc20Address))
                 /\ walletBalances s'' = walletBalances s
                 /\ (requests (trace s'')
                     = requests (trace s) ++ [tronGrid +:+ "/v1/accounts/" +:+ address]
                     \/ requests (trace s'')
                        = requests (trace s)
                          ++ [tronGrid +:+ "/v1/accounts/" +:+ address;
                              tronGrid +:+ "/v1/accounts/" +:+ address
                              +:+ "/tokens?type=trc20"])).
    { intros s' Hw Hr. exists native, [], s'. rewrite app_nil_r.
      split; [reflexivity|]. split; [exact Hlen|]. split; [exact Hkey|].
      split; [intros b []|]. split; [exact Hw | now right]. }
    unfold caught at 1, fetch.
    destruct (http env (tick s1) _) as [|st bd].
    - unfold ret. apply Hplain; [exact Hrows | apply Htrace].
    - destruct (ok {| status := st; body := bd |}).
      + unfold caught, json. cbn [body].
        destruct bd as [j|]; unfold ret, throw.
        * destruct (tronTokens_keys env (Some j) native) as (more & -> & Hmore).
          exists native, more. eexists. split; [reflexivity|].
          split; [exact Hlen|]. split; [exact Hkey|]. split; [exact Hmore|].
          split; [exact Hrows | right; apply Htrace].
        * apply Hplain; [exact Hrows | apply Htrace].
      + unfold ret. apply Hplain; [exact Hrows | apply Htrace]. }
  unfold fetchTronBalance, bind at 1, record.
  unfold caught at 1, tronAccount, bind at 1, fetch at 1.
  cbn [tick trace connectedWallets walletBalances].
  assert (Hreq : requests ((trace s ++ [Entered "fetchTronBalance" [address]])
                           ++ [Requested (tronGrid +:+ "/v1/accounts/" +:+ address)])
                 = requests (trace s) ++ [tronGrid +:+ "/v1/accounts/" +:+ address]).
  { rewrite !requests_app. cbn [requests]. now rewrite app_nil_r. }
  destruct (http env (tick s) _) as [|st bd].
  - unfold ret. exists [], []. eexists. split; [reflexivity|].
    split; [apply Hnil|]. split; [apply Hnil|]. split; [intros b []|].
    split; [reflexivity | left; exact Hreq].
  - destruct (ok {| status := st; body := bd |}).
    + unfold bind, json. cbn [body].
      destruct bd as [j|]; unfold ret, throw, lift.
      * destruct (trxEntry (Some j)) as [e|native] eqn:E.
        -- exists [], []. eexists. split; [reflexivity|].
           split; [apply Hnil|]. split; [apply Hnil|]. split; [intros b []|].
           split; [reflexivity | left; exact Hreq].
        -- destruct (trxEntry_key (Some j) native E) as [Hlen Hkey].
           apply Hrest; [exact Hlen | exact Hkey | reflexivity | exact Hreq].
      * exists [], []. eexists. split; [reflexivity|].
        split; [apply Hnil|]. split; [apply Hnil|]. split; [intros b []|].
        split; [reflexivity | left; exact Hreq].
    + unfold ret at 1. apply Hrest; [apply Hnil | apply Hnil | reflexivity | exact Hreq].
Qed.

(** ** What the fetchers return after an exception *)

Lemma tokenLoop_returns (env : Env) (endpoints : list (string * string))
    (address network : string) (tokens : list (string * string)) :
  forall balances s, exists more s',
    tokenLoop env endpoints address network tokens balances s = (inr (balances ++ more), s').
Proof.
  induction tokens as [|token rest IH]; intros balances s; cbn [tokenLoop].
  - exists [], s. unfold ret. now rewrite app_nil_r.
  - unfold caught.
    destruct (tokenTurn env endpoints address network token s) as [[e|[b|]] s1].
    + exists [], s1. unfold ret. now rewrite app_nil_r.
    + destruct (IH (pushed balances (Some b)) s1) as (more & s' & E).
      exists (b :: more), s'. rewrite E. cbn [pushed]. now rewrite <- app_assoc.
    + apply IH.
Qed.

Lemma tronTokenLoop_stops (env : Env) (bad : Value) (after : list Value) (e : Exn) :
  get bad "token_address" = inl e ->
  forall before balances,
    tronTokenLoop env (before ++ bad :: after) balances = tronTokenLoop env before balances.
Proof.
  intros Hbad. induction before as [|token rest IH]; intros balances;
    cbn [app tronTokenLoop].
  - now rewrite Hbad.
  - destruct (get token "token_address") as [e'|a]; [reflexivity|].
    destruct (strictEqualsString a usdtTrc20Address); [|apply IH].
    destruct (get token "balance") as [e'|raw]; [reflexivity|].
    destruct (get token "token_decimal") as [e'|dec]; [reflexivity|].
    apply IH.
Qed.

(** C2, amended. A chain balance fetcher never propagates an exception:
    for every address and network it returns a list. An exception does not
    empty that list; what was pushed before it is returned.
    fetchEVMBalance returns the native entry, when fetchNativeBalance gave
    one, followed by the list fetchTokenBalances returned. fetchNativeBalance
    gives null when its request is rejected or its body is not JSON, and the
    token balances are fetched all the same. The token loop keeps every
    entry it has pushed, and an exception in one of its turns ends the loop
    with the entries pushed in the turns before.
    fetchTronBalance returns the empty list when the account step raises.
    When the token request is rejected, answered with a failure status or
    with a body that is not JSON, it returns what the account step pushed;
    otherwise it returns that followed by the entries read from the token
    list, the reading ending at a token whose token_address cannot be
    read. *)
Theorem fetchers_never_throw (env : Env) (address network : string) (s : Store) :
  let evm := snd (record (Entered "fetchEVMBalance" [address; network]) s) in
  let tron := snd (record (Entered "fetchTronBalance" [address]) s) in
  let tokensUrl := tronGrid +:+ "/v1/accounts/" +:+ address +:+ "/tokens?type=trc20" in
  (exists balances s', fetchEVMBalance env address network s = (inr balances, s'))
  /\ (exists balances s', fetchTronBalance env address s = (inr balances, s'))
  /\ (exists native s1 tokens s2,
         fetchNativeBalance env address network evm = (inr native, s1)
         /\ fetchTokenBalances env address network s1 = (inr tokens, s2)
         /\ fetchEVMBalance env address network s = (inr (pushed [] native ++ tokens), s2))
  /\ (forall endpoints apiUrl nativeSymbol s0,
         assoc network API_ENDPOINTS = Some endpoints ->
         nativeRequest endpoints address network = Some (apiUrl, nativeSymbol) ->
         (http env (tick s0) apiUrl = Rejected
          \/ exists st, http env (tick s0) apiUrl = Answered st None) ->
         fst (fetchNativeBalance env address network s0) = inr None)
  /\ (forall endpoints tokens balances s0,
         exists more s1,
           tokenLoop env endpoints address network tokens balances s0
           = (inr (balances ++ more), s1))
  /\ (forall endpoints token rest balances s0 e s1,
         tokenTurn env endpoints address network token s0 = (inl e, s1) ->
         tokenLoop env endpoints address network (token :: rest) balances s0
         = (inr balances, s1))
  /\ (forall e s1,
         tronAccount env address tron = (inl e, s1) ->
         fetchTronBalance env address s = (inr [], s1))
  /\ (forall pushedByAccount s1,
         tronAccount env address tron = (inr pushedByAccount, s1) ->
         (http env (tick s1) tokensUrl = Rejected
          \/ (exists st, http env (tick s1) tokensUrl = Answered st None)
          \/ (exists st b, http env (tick s1) tokensUrl = Answered st b
                           /\ ok {| status := st; body := b |} = false)) ->
         fst (fetchTronBalance env address s) = inr pushedByAccount)
  /\ (forall pushedByAccount s1 st tokenData,
         tronAccount env address tron = (inr pushedByAccount, s1) ->
         http env (tick s1) tokensUrl = Answered st (Some tokenData) ->
         ok {| status := st; body := Some tokenData |} = true ->
         fst (fetchTronBalance env address s)
         = inr (tronTokens env (Some tokenData) pushedByAccount))
  /\ (forall tokenData balances,
         exists more, tronTokens env tokenData balances = balances ++ more)
  /\ (forall before bad after balances e,
         get bad "token_address" = inl e ->
         tronTokenLoop env (before ++ bad :: after) balances
         = tronTokenLoop env before balances).
Proof.
  intros evm tron tokensUrl.
  split; [apply total_fetchEVMBalance|]. split; [apply total_fetchTronBalance|].
  split; [|split; [|split; [|split; [|split; [|split; [|split; [|split]]]]]]].
  - destruct (total_fetchNativeBalance env address network evm) as (native & s1 & E1).
    destruct (total_fetchTokenBalances env address network s1) as (tokens & s2 & E2).
    exists native, s1, tokens, s2. split; [exact E1|]. split; [exact E2|].
    unfold fetchEVMBalance, bind at 1, record, tryCatch, bind.
    unfold evm, record in E1. cbn [snd] in E1. rewrite E1, E2. reflexivity.
  - intros endpoints apiUrl nativeSymbol s0 Hend Hreq Hfail.
    unfold fetchNativeBalance. rewrite Hend, Hreq.
    unfold tryCatch, bind, fetch, json, throw, ret.
    destruct Hfail as [-> | [st ->]]; [reflexivity|].
    destruct (ok {| status := st; body := None |}); reflexivity.
  - intros endpoints tokens balances s0. apply tokenLoop_returns.
  - intros endpoints token rest balances s0 e s1 Hturn.
    cbn [tokenLoop]. unfold caught. now rewrite Hturn.
  - intros e s1 Hacc. unfold fetchTronBalance, bind at 1, record, caught at 1.
    unfold tron, record in Hacc. cbn [snd] in Hacc. now rewrite Hacc.
  - intros pushedByAccount s1 Hacc Hfail.
    unfold fetchTronBalance, bind at 1, record, caught at 1.
    unfold tron, record in Hacc. cbn [snd] in Hacc. rewrite Hacc.
    unfold caught, fetch, json, throw, ret. fold tokensUrl.
    destruct Hfail as [-> | [[st ->] | (st & b & -> & ->)]]; [reflexivity | | reflexivity].
    destruct (ok {| status := st; body := None |}); reflexivity.
  - intros pushedByAccount s1 st tokenData Hacc Hreply Hok.
    unfold fetchTronBalance, bind at 1, record, caught at 1.
    unfold tron, record in Hacc. cbn [snd] in Hacc. rewrite Hacc.
    unfold caught, fetch, json, throw, ret. fold tokensUrl.
    rewrite Hreply, Hok. reflexivity.
  - intros tokenData balances.
    destruct (tronTokens_keys env tokenData balances) as (more & E & _). now exists more.
  - intros before bad after balances e Hbad.
    exact (tronTokenLoop_stops env bad after e Hbad before balances).
Qed.

Lemma fetchers_never_throw_witness :
  http More.nativeDown 0
       "https://api.etherscan.io/api?module=account&action=balance&address=0xB36EDa1ffC696FFba07D4Be5cd249FE5E0118130&tag=latest"
  = Rejected
  /\ exists tokens,
       fst (fetchEVMBalance More.nativeDown "0xB36EDa1ffC696FFba07D4Be5cd249FE5E0118130"
              "ethereum" Sample.emptyStore)
       = inr tokens
       /\ List.map tokenSymbol tokens = ["USDT"; "USDC"; "BNB"].
Proof.
  split; [reflexivity|].
  destruct (fetchers_never_throw More.nativeDown "0xB36EDa1ffC696FFba07D4Be5cd249FE5E0118130"
              "ethereum" Sample.emptyStore)
    as (_ & _ & (native & s1 & tokens & s2 & E1 & E2 & E) & _).
  exists (pushed [] native ++ tokens). split; [now rewrite E|].
  vm_compute in E1. injection E1 as <- <-.
  vm_compute in E2. injection E2 as <- _. reflexivity.
Defined.
